(** * pr-manager: the LLM client of [llm.go]

    A shallow embedding of [llm.go] (both revisions of the file that the
    repository holds) and the properties of its question-extraction scan, its
    interactive question loop and its request/response round trips.

    Go strings are byte sequences: they are modelled by [string] (one [ascii]
    per byte).  Go's [int] is modelled by [Z]; every [int] of the program is an
    index into, or a count over, a string or slice held in memory, so none can
    reach the 64-bit wrap-around.  Writes to standard output ([fmt.Print*]) do
    not influence any returned value or any request; they are left out. *)

From Stdlib Require Import ZArith String Ascii List Lia Bool.
From Stdlib Require Import DecimalString.
From Stdlib Require Import Floats.PrimFloat.
From stdpp Require Import base option list strings.
Import ListNotations.
Open Scope Z_scope.
Set Warnings "-register-all".

(** ** Go run-time outcomes *)

(** The outcome of running a piece of Go code: a value, or a run-time panic
    (index or slice bound out of range).  [OutOfFuel] is an artefact of the
    model: a [for] loop is a [Fixpoint] over a bound on its iterations, and
    [OutOfFuel] says that the bound was too small. *)
Inductive run (A : Type) : Type :=
| Ret (a : A)
| Panic
| OutOfFuel.
Arguments Ret {A} a.
Arguments Panic {A}.
Arguments OutOfFuel {A}.

Definition run_bind {A B : Type} (m : run A) (k : A -> run B) : run B :=
  match m with
  | Ret a => k a
  | Panic => Panic
  | OutOfFuel => OutOfFuel
  end.

Notation "'let*' x := m 'in' k" := (run_bind m (fun x => k))
  (at level 10, x pattern, m at level 100, k at level 200).

(** ** Go strings *)

(** Characters that the source names. *)
Definition dquote : ascii := "034"%char.
Definition newline : ascii := "010"%char.
Definition lbrace : ascii := "{"%char.
Definition rbrace : ascii := "}"%char.

(** [len(s)]. *)
Definition len (s : string) : Z := Z.of_nat (String.length s).

(** [s[i]]: panics unless [0 <= i < len(s)]. *)
Definition byteAt (s : string) (i : Z) : run ascii :=
  if (0 <=? i) && (i <? len s)
  then match String.get (Z.to_nat i) s with
       | Some c => Ret c
       | None => Panic
       end
  else Panic.

(** [s[lo:hi]]: panics unless [0 <= lo <= hi <= len(s)]. *)
Definition slice (s : string) (lo hi : Z) : run string :=
  if (0 <=? lo) && (lo <=? hi) && (hi <=? len s)
  then Ret (substring (Z.to_nat lo) (Z.to_nat (hi - lo)) s)
  else Panic.

(** [s[lo:]] and [s[:hi]]. *)
Definition sliceFrom (s : string) (lo : Z) : run string := slice s lo (len s).
Definition sliceTo (s : string) (hi : Z) : run string := slice s 0 hi.

(** [strings.Index(s, substr)]: the index of the first occurrence of [substr]
    in [s], or [-1]. *)
Definition stringsIndex (s substr : string) : Z :=
  match String.index 0 substr s with
  | Some n => Z.of_nat n
  | None => -1
  end.

(** [strings.HasPrefix(s, prefix)]. *)
Definition stringsHasPrefix (s pre : string) : bool := String.prefix pre s.

(** *** [strings.TrimSpace]

    [strings.TrimSpace] removes the leading and trailing white space, as
    Unicode defines it, of a UTF-8 string: the six ASCII characters below and
    the runes U+0085, U+00A0, U+1680, U+2000..U+200A, U+2028, U+2029, U+202F,
    U+205F and U+3000.  Each of these runes has one UTF-8 encoding, whose
    first byte is a leading byte and whose other bytes are continuation
    bytes, so that "the first (last) rune is a space" is "the string starts
    (ends) with one of these encodings". *)
Definition asciiSpace (c : ascii) : bool :=
  match N_of_ascii c with
  | 9%N | 10%N | 11%N | 12%N | 13%N | 32%N => true
  | _ => false
  end.

(** The two-byte encodings: U+0085 is [C2 85] and U+00A0 is [C2 A0]. *)
Definition space2 (a b : ascii) : bool :=
  match N_of_ascii a, N_of_ascii b with
  | 194%N, 133%N | 194%N, 160%N => true
  | _, _ => false
  end.

(** The three-byte encodings: U+1680 is [E1 9A 80]; U+2000..U+200A are
    [E2 80 80] .. [E2 80 8A]; U+2028, U+2029 and U+202F are [E2 80 A8],
    [E2 80 A9] and [E2 80 AF]; U+205F is [E2 81 9F]; U+3000 is [E3 80 80]. *)
Definition space3 (a b c : ascii) : bool :=
  match N_of_ascii a, N_of_ascii b with
  | 225%N, 154%N => (N_of_ascii c =? 128)%N
  | 226%N, 128%N =>
      let n := N_of_ascii c in
      ((128 <=? n)%N && (n <=? 138)%N)
      || (n =? 168)%N || (n =? 169)%N || (n =? 175)%N
  | 226%N, 129%N => (N_of_ascii c =? 159)%N
  | 227%N, 128%N => (N_of_ascii c =? 128)%N
  | _, _ => false
  end.

(** Drop the spaces a byte sequence starts with. *)
Fixpoint dropSpaces (s : list ascii) : list ascii :=
  match s with
  | a :: r1 =>
      if asciiSpace a then dropSpaces r1
      else match r1 with
           | b :: r2 =>
               if space2 a b then dropSpaces r2
               else match r2 with
                    | c :: r3 => if space3 a b c then dropSpaces r3 else s
                    | [] => s
                    end
           | [] => s
           end
  | [] => []
  end.

(** The same on a reversed byte sequence: the encodings are met last byte
    first. *)
Fixpoint dropSpacesRev (s : list ascii) : list ascii :=
  match s with
  | a :: r1 =>
      if asciiSpace a then dropSpacesRev r1
      else match r1 with
           | b :: r2 =>
               if space2 b a then dropSpacesRev r2
               else match r2 with
                    | c :: r3 => if space3 c b a then dropSpacesRev r3 else s
                    | [] => s
                    end
           | [] => s
           end
  | [] => []
  end.

Definition stringsTrimSpace (s : string) : string :=
  string_of_list_ascii
    (rev (dropSpacesRev (rev (dropSpaces (list_ascii_of_string s))))).

(** *** [fmt.Sprintf]

    [fmt.Sprintf(format, args...)] for string arguments and the verbs the
    program uses ([%s] and [%v], which print a string as it is, and [%%]).  A
    verb with no argument left prints [%!s(MISSING)]; arguments that no verb
    used are appended as [%!(EXTRA string=a, string=b)].  The formats of the
    program hold no flag, no width and no other verb; another verb is
    printed as [fmt] prints a verb that does not apply to its argument. *)
Fixpoint extraArgs (args : list string) : string :=
  match args with
  | [] => ""
  | [a] => "string=" +:+ a
  | a :: rest => "string=" +:+ a +:+ ", " +:+ extraArgs rest
  end.

Fixpoint fmtSprintf (format : string) (args : list string) : string :=
  match format with
  | EmptyString =>
      match args with
      | [] => ""
      | _ => "%!(EXTRA " +:+ extraArgs args +:+ ")"
      end
  | String c rest =>
      if Ascii.eqb c "%"
      then match rest with
           | EmptyString => "%!(NOVERB)" +:+ fmtSprintf rest args
           | String v rest' =>
               if Ascii.eqb v "%" then String "%" (fmtSprintf rest' args)
               else if Ascii.eqb v "s" || Ascii.eqb v "v"
               then match args with
                    | a :: args' => a +:+ fmtSprintf rest' args'
                    | [] => "%!" +:+ String v "(MISSING)" +:+ fmtSprintf rest' []
                    end
               else match args with
                    | a :: args' =>
                        "%!" +:+ String v "(string=" +:+ a +:+ ")"
                        +:+ fmtSprintf rest' args'
                    | [] => "%!" +:+ String v "(MISSING)" +:+ fmtSprintf rest' []
                    end
           end
      else String c (fmtSprintf rest args)
  end.

(** [fmt.Sprintf] for arguments that are strings or ints, and the verbs with
    which the program prints them: [%s] for a string, [%d] for an int, [%v]
    for either, and [%%].  A verb that is given an argument of the other kind
    prints [%!d(string=a)] or [%!s(int=1)]. *)
Inductive fmtArg : Type :=
| ArgString (s : string)
| ArgInt (n : Z).

(** An int in decimal, as [%d] prints it. *)
Definition formatInt (n : Z) : string := NilZero.string_of_int (Z.to_int n).

Definition argType (a : fmtArg) : string :=
  match a with
  | ArgString _ => "string"
  | ArgInt _ => "int"
  end.

Definition argValue (a : fmtArg) : string :=
  match a with
  | ArgString s => s
  | ArgInt n => formatInt n
  end.

Definition verbApplies (v : ascii) (a : fmtArg) : bool :=
  match a with
  | ArgString _ => Ascii.eqb v "s" || Ascii.eqb v "v"
  | ArgInt _ => Ascii.eqb v "d" || Ascii.eqb v "v"
  end.

Fixpoint extraArgsAny (args : list fmtArg) : string :=
  match args with
  | [] => ""
  | [a] => argType a +:+ "=" +:+ argValue a
  | a :: rest => argType a +:+ "=" +:+ argValue a +:+ ", " +:+ extraArgsAny rest
  end.

Fixpoint fmtSprintfAny (format : string) (args : list fmtArg) : string :=
  match format with
  | EmptyString =>
      match args with
      | [] => ""
      | _ => "%!(EXTRA " +:+ extraArgsAny args +:+ ")"
      end
  | String c rest =>
      if Ascii.eqb c "%"
      then match rest with
           | EmptyString => "%!(NOVERB)" +:+ fmtSprintfAny rest args
           | String v rest' =>
               if Ascii.eqb v "%" then String "%" (fmtSprintfAny rest' args)
               else match args with
                    | a :: args' =>
                        (if verbApplies v a then argValue a
                         else "%!" +:+ String v "(" +:+ argType a +:+ "="
                              +:+ argValue a +:+ ")")
                        +:+ fmtSprintfAny rest' args'
                    | [] =>
                        "%!" +:+ String v "(MISSING)" +:+ fmtSprintfAny rest' []
                    end
           end
      else String c (fmtSprintfAny rest args)
  end.

(** [strings.ToLower] on ASCII text.  The program's [strings.ToLower] is a
    parameter of the development below (it also maps the upper-case letters of
    other scripts); this is the instance used to run the model. *)
Definition asciiLower (c : ascii) : ascii :=
  let n := N_of_ascii c in
  if (65 <=? n)%N && (n <=? 90)%N then ascii_of_N (n + 32) else c.

Fixpoint asciiToLower (s : string) : string :=
  match s with
  | EmptyString => EmptyString
  | String c r => String (asciiLower c) (asciiToLower r)
  end.

(** ** [encoding/json]

    The program decodes one kind of JSON text:
    [json.Unmarshal(data, &questionsObj)] with
    [questionsObj struct { Questions []string `json:"questions"` }].  That
    decoder is a parameter of the development below.  [Json.Unmarshal] is an
    executable instance of it, written from the documentation of
    [encoding/json]: the text is first checked against the JSON grammar as a
    whole, then the members of the object are stored in order.  (The limit
    that [encoding/json] puts on the nesting depth is not modelled.) *)
Module Json.

Inductive value : Type :=
| Null
| Bool (b : bool)
| Number (text : list ascii)
| Str (s : list ascii)
| Arr (elems : list value)
| Obj (members : list (list ascii * value)).

Definition code (c : ascii) : N := N_of_ascii c.
Definition byte (n : N) : ascii := ascii_of_N n.

Definition isWS (c : ascii) : bool :=
  match code c with
  | 32%N | 9%N | 10%N | 13%N => true
  | _ => false
  end.

Fixpoint skipWS (s : list ascii) : list ascii :=
  match s with
  | c :: r => if isWS c then skipWS r else s
  | [] => []
  end.

Definition isDigit (c : ascii) : bool :=
  (48 <=? code c)%N && (code c <=? 57)%N.

Definition hexVal (c : ascii) : option N :=
  let n := code c in
  if (48 <=? n)%N && (n <=? 57)%N then Some (n - 48)%N
  else if (97 <=? n)%N && (n <=? 102)%N then Some (n - 87)%N
  else if (65 <=? n)%N && (n <=? 70)%N then Some (n - 55)%N
  else None.

(** The digits a text starts with, and the rest. *)
Fixpoint digits (s : list ascii) : list ascii * list ascii :=
  match s with
  | c :: r => if isDigit c then let (d, r') := digits r in (c :: d, r')
              else ([], s)
  | [] => ([], [])
  end.

(** A number: an optional minus sign; then [0], or a digit from [1] to [9]
    and any digits; then, optionally, a point and one digit or more; then,
    optionally, [e] or [E], an optional sign and one digit or more. *)
Definition parseNumber (s : list ascii) : option (list ascii * list ascii) :=
  let (sign, s1) :=
    match s with
    | c :: r => if Ascii.eqb c "-" then ([c], r) else ([], s)
    | [] => ([], s)
    end in
  match s1 with
  | c :: r =>
      if negb (isDigit c) then None else
      let (int, s2) := if Ascii.eqb c "0" then ([c], r)
                       else let (d, r') := digits r in (c :: d, r') in
      let frac :=
        match s2 with
        | p :: r2 =>
            if Ascii.eqb p "."
            then match digits r2 with
                 | ([], _) => None
                 | (d, r3) => Some (p :: d, r3)
                 end
            else Some ([], s2)
        | [] => Some ([], s2)
        end in
      match frac with
      | None => None
      | Some (fr, s3) =>
          match s3 with
          | e :: r3 =>
              if Ascii.eqb e "e" || Ascii.eqb e "E"
              then let (esign, r4) :=
                     match r3 with
                     | g :: r' => if Ascii.eqb g "+" || Ascii.eqb g "-"
                                  then ([g], r') else ([], r3)
                     | [] => ([], r3)
                     end in
                   match digits r4 with
                   | ([], _) => None
                   | (d, r5) => Some (sign ++ int ++ fr ++ e :: esign ++ d, r5)
                   end
              else Some (sign ++ int ++ fr, s3)
          | [] => Some (sign ++ int ++ fr, s3)
          end
      end
  | [] => None
  end.

(** [utf8.EncodeRune] of a code point that is no surrogate. *)
Definition encodeRune (r : N) : list ascii :=
  if (r <? 128)%N then [byte r]
  else if (r <? 2048)%N then [byte (192 + r / 64); byte (128 + r mod 64)]%N
  else if (r <? 65536)%N
  then [byte (224 + r / 4096); byte (128 + (r / 64) mod 64);
        byte (128 + r mod 64)]%N
  else [byte (240 + r / 262144); byte (128 + (r / 4096) mod 64);
        byte (128 + (r / 64) mod 64); byte (128 + r mod 64)]%N.

(** U+FFFD, which stands for what is not valid UTF-8 or UTF-16. *)
Definition replacementChar : list ascii := encodeRune 65533.

Definition between (lo hi : N) (c : ascii) : bool :=
  (lo <=? code c)%N && (code c <=? hi)%N.

(** The number of bytes of the UTF-8 sequence a text starts with: [0] when it
    starts with none (as [utf8.DecodeRune] judges it). *)
Definition runeLen (s : list ascii) : nat :=
  match s with
  | a :: r =>
      if (code a <? 128)%N then 1%nat
      else match r with
      | b :: r2 =>
          if between 194 223 a then (if between 128 191 b then 2 else 0)%nat
          else match r2 with
          | c :: r3 =>
              let second3 :=
                if (code a =? 224)%N then between 160 191 b
                else if (code a =? 237)%N then between 128 159 b
                else between 128 191 b in
              if between 224 239 a
              then (if second3 && between 128 191 c then 3 else 0)%nat
              else match r3 with
              | d :: _ =>
                  let second4 :=
                    if (code a =? 240)%N then between 144 191 b
                    else if (code a =? 244)%N then between 128 143 b
                    else between 128 191 b in
                  if between 240 244 a && second4 && between 128 191 c
                     && between 128 191 d
                  then 4%nat else 0%nat
              | [] => 0%nat
              end
          | [] => 0%nat
          end
      | [] => 0%nat
      end
  | [] => 0%nat
  end.

(** Four hexadecimal digits. *)
Definition hex4 (s : list ascii) : option (N * list ascii) :=
  match s with
  | a :: b :: c :: d :: r =>
      match hexVal a, hexVal b, hexVal c, hexVal d with
      | Some x, Some y, Some z, Some w =>
          Some ((((x * 16 + y) * 16 + z) * 16 + w)%N, r)
      | _, _, _, _ => None
      end
  | _ => None
  end.

Definition isSurrogate (r : N) : bool := (55296 <=? r)%N && (r <? 57344)%N.

(** The body of a string, after its opening quote: the bytes it denotes and
    the text after its closing quote. *)
Fixpoint parseString (fuel : nat) (s : list ascii)
  : option (list ascii * list ascii) :=
  match fuel with
  | O => None
  | S f =>
      match s with
      | [] => None
      | c :: r =>
          if Ascii.eqb c dquote then Some ([], r)
          else if (code c <? 32)%N then None
          else if Ascii.eqb c "\"
          then match r with
               | e :: r2 =>
                   let simple (b : N) :=
                     match parseString f r2 with
                     | Some (t, r') => Some (byte b :: t, r')
                     | None => None
                     end in
                   match code e with
                   | 34%N => simple 34%N
                   | 92%N => simple 92%N
                   | 47%N => simple 47%N
                   | 98%N => simple 8%N
                   | 102%N => simple 12%N
                   | 110%N => simple 10%N
                   | 114%N => simple 13%N
                   | 116%N => simple 9%N
                   | 117%N =>
                       match hex4 r2 with
                       | None => None
                       | Some (u, r3) =>
                           let single :=
                             match parseString f r3 with
                             | Some (t, r') =>
                                 Some ((if isSurrogate u then replacementChar
                                        else encodeRune u) ++ t, r')
                             | None => None
                             end in
                           if isSurrogate u
                           then match r3 with
                                | b1 :: b2 :: r4 =>
                                    if Ascii.eqb b1 "\" && Ascii.eqb b2 "u"
                                    then match hex4 r4 with
                                         | Some (u2, r5) =>
                                             if (u <? 56320)%N
                                                && (56320 <=? u2)%N
                                                && (u2 <? 57344)%N
                                             then match parseString f r5 with
                                                  | Some (t, r') =>
                                                      Some (encodeRune
                                                              (65536
                                                               + (u - 55296) * 1024
                                                               + (u2 - 56320))%N
                                                              ++ t, r')
                                                  | None => None
                                                  end
                                             else single
                                         | None => single
                                         end
                                    else single
                                | _ => single
                                end
                           else single
                       end
                   | _ => None
                   end
               | [] => None
               end
          else
            let n := runeLen s in
            match parseString f (if (n =? 0)%nat then r else drop n s) with
            | Some (t, r') =>
                Some ((if (n =? 0)%nat then replacementChar else take n s) ++ t, r')
            | None => None
            end
      end
  end.

Definition startsNumber (c : ascii) : bool := Ascii.eqb c "-" || isDigit c.

(** A JSON value with the white space before it, and the text after it. *)
Fixpoint parseValue (fuel : nat) (s : list ascii) : option (value * list ascii) :=
  match fuel with
  | O => None
  | S f =>
      match skipWS s with
      | [] => None
      | c :: r =>
          if Ascii.eqb c "{"
          then match skipWS r with
               | c' :: r' =>
                   if Ascii.eqb c' "}" then Some (Obj [], r')
                   else match parseMembers f r with
                        | Some (ms, r2) => Some (Obj ms, r2)
                        | None => None
                        end
               | [] => None
               end
          else if Ascii.eqb c "["
          then match skipWS r with
               | c' :: r' =>
                   if Ascii.eqb c' "]" then Some (Arr [], r')
                   else match parseElements f r with
                        | Some (vs, r2) => Some (Arr vs, r2)
                        | None => None
                        end
               | [] => None
               end
          else if Ascii.eqb c dquote
          then match parseString (S (length r)) r with
               | Some (t, r') => Some (Str t, r')
               | None => None
               end
          else if startsNumber c
          then match parseNumber (c :: r) with
               | Some (t, r') => Some (Number t, r')
               | None => None
               end
          else match c :: r with
               | "t"%char :: "r"%char :: "u"%char :: "e"%char :: r' =>
                   Some (Bool true, r')
               | "f"%char :: "a"%char :: "l"%char :: "s"%char :: "e"%char :: r' =>
                   Some (Bool false, r')
               | "n"%char :: "u"%char :: "l"%char :: "l"%char :: r' =>
                   Some (Null, r')
               | _ => None
               end
      end
  end
(** The members of an object, one at least, up to its closing brace. *)
with parseMembers (fuel : nat) (s : list ascii)
  : option (list (list ascii * value) * list ascii) :=
  match fuel with
  | O => None
  | S f =>
      match skipWS s with
      | q :: r =>
          if negb (Ascii.eqb q dquote) then None else
          match parseString (S (length r)) r with
          | None => None
          | Some (k, r1) =>
              match skipWS r1 with
              | c :: r2 =>
                  if negb (Ascii.eqb c ":") then None else
                  match parseValue f r2 with
                  | None => None
                  | Some (v, r3) =>
                      match skipWS r3 with
                      | d :: r4 =>
                          if Ascii.eqb d "}" then Some ([(k, v)], r4)
                          else if Ascii.eqb d ","
                          then match parseMembers f r4 with
                               | Some (ms, r5) => Some ((k, v) :: ms, r5)
                               | None => None
                               end
                          else None
                      | [] => None
                      end
                  end
              | [] => None
              end
          end
      | [] => None
      end
  end
(** The elements of an array, one at least, up to its closing bracket. *)
with parseElements (fuel : nat) (s : list ascii)
  : option (list value * list ascii) :=
  match fuel with
  | O => None
  | S f =>
      match parseValue f s with
      | None => None
      | Some (v, r1) =>
          match skipWS r1 with
          | d :: r2 =>
              if Ascii.eqb d "]" then Some ([v], r2)
              else if Ascii.eqb d ","
              then match parseElements f r2 with
                   | Some (vs, r3) => Some (v :: vs, r3)
                   | None => None
                   end
              else None
          | [] => None
          end
      end
  end.

(** A whole text: one value, white space around it, nothing else. *)
Definition parse (data : string) : option value :=
  let s := list_ascii_of_string data in
  match parseValue (S (length s)) s with
  | Some (v, r) => match skipWS r with [] => Some v | _ => None end
  | None => None
  end.

(** A key names the field tagged [questions] when the two are equal or equal
    under Unicode's simple case folding: besides the ASCII letters of either
    case, U+017F (long s, [C5 BF]) folds with [s]. *)
Fixpoint foldName (k : list ascii) : list ascii :=
  match k with
  | a :: r =>
      match r with
      | b :: r' =>
          if (code a =? 197)%N && (code b =? 191)%N
          then "S"%char :: foldName r'
          else (if between 97 122 a then byte (code a - 32) else a) :: foldName r
      | [] => [if between 97 122 a then byte (code a - 32) else a]
      end
  | [] => []
  end.

Definition namesQuestions (k : list ascii) : bool :=
  bool_decide (foldName k = list_ascii_of_string "QUESTIONS").

(** The [Questions] slice while the text is decoded: the strings its backing
    array holds, how many of them are the slice, and whether a value of the
    wrong type was met (an [UnmarshalTypeError]: decoding goes on and the
    error is returned at the end). *)
Record target : Type := mkTarget {
  backing : list string;
  length_ : nat;
  typeError : bool
}.

(** An array stored into the slice, element [i] onwards: a string replaces
    element [i]; [null] leaves it as it is; any other value is of the wrong
    type. *)
Fixpoint storeElements (elems : list value) (i : nat) (t : target) : target :=
  match elems with
  | [] => t
  | v :: rest =>
      let buf := if (length (backing t) <=? i)%nat
                 then backing t ++ [EmptyString] else backing t in
      let n := Nat.max (length_ t) (S i) in
      match v with
      | Str s =>
          storeElements rest (S i)
            (mkTarget (<[i := string_of_list_ascii s]> buf) n (typeError t))
      | Null => storeElements rest (S i) (mkTarget buf n (typeError t))
      | _ => storeElements rest (S i) (mkTarget buf n true)
      end
  end.

(** One member of the object stored into the struct. *)
Definition storeMember (t : target) (m : list ascii * value) : target :=
  if namesQuestions (fst m)
  then match snd m with
       | Arr [] => mkTarget [] 0 (typeError t)
       | Arr elems =>
           let t' := storeElements elems 0 t in
           mkTarget (backing t') (length elems) (typeError t')
       | Null => mkTarget [] 0 (typeError t)
       | _ => mkTarget (backing t) (length_ t) true
       end
  else t.

(** [json.Unmarshal(data, &questionsObj)] on a zero [questionsObj]: [None]
    when it returns an error, the [Questions] field otherwise. *)
Definition Unmarshal (data : string) : option (list string) :=
  match parse data with
  | None => None
  | Some Null => Some []
  | Some (Obj members) =>
      let t := fold_left storeMember members (mkTarget [] 0 false) in
      if typeError t then None else Some (take (length_ t) (backing t))
  | Some _ => None
  end.

End Json.

(** ** The data of [llm.go] *)

(** [float64]. *)
Definition float64 : Type := PrimFloat.float.

(** A Go [error]: [None] is [nil], [Some msg] an error whose text is [msg]. *)
Definition error : Type := option string.

Definition dq : string := String dquote EmptyString.
Definition nl : string := String newline EmptyString.

Record LLMConfig : Type := mkLLMConfig {
  APIKey : string;
  Model : string;
  Temperature : float64;
  MaxTokens : Z;
  EnableQuestions : bool
}.

Record ChatMessage : Type := mkChatMessage {
  Role : string;
  Content : string
}.

Record ChatRequest : Type := mkChatRequest {
  reqModel : string;
  Messages : list ChatMessage;
  reqTemperature : float64;
  reqMaxTokens : Z
}.

(** [Choices] holds the [Message] of each choice; [Error] is the [Message] of
    the error the pointer leads to, [None] when the pointer is [nil]. *)
Record ChatResponse : Type := mkChatResponse {
  Choices : list ChatMessage;
  Error : option string
}.

Record QuestionResponse : Type := mkQuestionResponse {
  Question : string;
  Answer : string
}.

(** ** The world around the program *)

(** An HTTP request as [http.NewRequest] and [req.Header.Set] build it.  Its
    body is kept as the [ChatRequest] that [json.Marshal] encoded. *)
Record HttpRequest : Type := mkHttpRequest {
  Method : string;
  URL : string;
  Header : list (string * string);
  Body : ChatRequest
}.

(** What becomes of a request that is sent: [client.Do] fails, or reading the
    body fails, or the body is not the JSON of a [ChatResponse], or it is. *)
Inductive HttpOutcome : Type :=
| SendFailed (err : string)
| ReadFailed (err : string)
| UnmarshalFailed (err : string)
| Decoded (r : ChatResponse).

(** The world: what the API answers to the first, second, ... request it
    receives; the requests sent so far; the bytes not yet read from standard
    input. *)
Record World : Type := mkWorld {
  network : nat -> HttpOutcome;
  sent : list HttpRequest;
  stdin : string
}.

(** Code that acts on the world. *)
Definition IO (A : Type) : Type := World -> run (A * World).

Definition io_ret {A : Type} (a : A) : IO A := fun w => Ret (a, w).

Definition io_bind {A B : Type} (m : IO A) (k : A -> IO B) : IO B :=
  fun w =>
    match m w with
    | Ret (a, w') => k a w'
    | Panic => Panic
    | OutOfFuel => OutOfFuel
    end.

Definition lift {A : Type} (r : run A) : IO A :=
  fun w =>
    match r with
    | Ret a => Ret (a, w)
    | Panic => Panic
    | OutOfFuel => OutOfFuel
    end.

Notation "'do' x <- m ; k" := (io_bind m (fun x => k))
  (at level 10, x pattern, m at level 100, k at level 200).

(** A [float64] that is not finite, as [json.Marshal] prints it when it
    refuses it. *)
Definition unsupportedValue (t : float64) : option string :=
  if negb (PrimFloat.eqb t t) then Some "NaN"
  else if PrimFloat.eqb t infinity then Some "+Inf"
  else if PrimFloat.eqb t neg_infinity then Some "-Inf"
  else None.

(** [json.Marshal(requestBody)]: the error it returns.  The encoder refuses a
    [float64] that is not finite and nothing else that a [ChatRequest] can
    hold. *)
Definition jsonMarshal (requestBody : ChatRequest) : error :=
  match unsupportedValue (reqTemperature requestBody) with
  | Some v => Some ("json: unsupported value: " +:+ v)
  | None => None
  end.

(** No response: the zero [ChatResponse]. *)
Definition noResponse : ChatResponse := mkChatResponse [] None.

(** The POST request of lines 133-139 (and 292-298, 621-627, 692-698).
    [http.NewRequest] cannot fail on the constant method and URL it is
    given. *)
Definition newRequest (requestBody : ChatRequest) (apiKey : string)
  : HttpRequest :=
  mkHttpRequest "POST" "https://api.openai.com/v1/chat/completions"
    [("Content-Type", "application/json");
     ("Authorization", fmtSprintf "Bearer %s" [apiKey])]
    requestBody.

(** The world once a request has been sent. *)
Definition afterSend (w : World) (req : HttpRequest) : World :=
  mkWorld (network w) (sent w ++ [req]) (stdin w).

(** The request/response round trip that the source writes out in each of its
    API functions (lines 127-156, 286-315, 615-644 and 686-715): encode the
    request body, build the POST request, send it, read the body of the
    response and decode it.  The result is [chatResponse] and the error of
    the first step that failed. *)
Definition roundTrip (requestBody : ChatRequest) (apiKey : string)
  : IO (ChatResponse * error) :=
  fun w =>
    match jsonMarshal requestBody with
    | Some err =>
        Ret ((noResponse, Some (fmtSprintf "failed to marshal request: %v" [err])), w)
    | None =>
        let w' := afterSend w (newRequest requestBody apiKey) in
        match network w (length (sent w)) with
        | SendFailed err =>
            Ret ((noResponse, Some (fmtSprintf "failed to send request: %v" [err])), w')
        | ReadFailed err =>
            Ret ((noResponse, Some (fmtSprintf "failed to read response: %v" [err])), w')
        | UnmarshalFailed err =>
            Ret ((noResponse,
                  Some (fmtSprintf "failed to unmarshal response: %v" [err])), w')
        | Decoded chatResponse => Ret ((chatResponse, None), w')
        end
    end.

(** The first line of a text: its bytes up to and including the first
    [delim], or all of them when there is none; and the text that follows
    it. *)
Fixpoint readUntil (delim : ascii) (s : string) : string * string :=
  match s with
  | EmptyString => (EmptyString, EmptyString)
  | String c r =>
      if Ascii.eqb c delim then (String c EmptyString, r)
      else let (line, rest) := readUntil delim r in (String c line, rest)
  end.

(** [bytes.IndexByte(buf, delim)] and the two slices that it gives: the bytes
    of [buf] up to and including the first [delim] and the bytes after it;
    [None] when [delim] does not occur in [buf]. *)
Fixpoint cutAt (delim : ascii) (buf : string) : option (string * string) :=
  match buf with
  | EmptyString => None
  | String c r =>
      if Ascii.eqb c delim then Some (String c EmptyString, r)
      else match cutAt delim r with
           | Some (line, rest) => Some (String c line, rest)
           | None => None
           end
  end.

(** The size of the buffer of a [bufio.NewReader]. *)
Definition defaultBufSize : nat := 4096.

(** The environment of the process: a variable is unset ([None]) or set,
    maybe to the empty text. *)
Record Process : Type := mkProcess {
  environ : string -> option string
}.

(** [os.Getenv(key)]: the value of the variable, empty when it is unset. *)
Definition osGetenv (key : string) (p : Process) : string :=
  match environ p key with
  | Some v => v
  | None => ""
  end.

(** ** The earlier revision of [llm.go] (lines 500-728) *)
Module Older.

Record LLMConfig : Type := mkLLMConfig {
  APIKey : string;
  Model : string;
  Temperature : float64;
  MaxTokens : Z
}.

Section Configuration.

(** [godotenv.Load()], of the library [github.com/joho/godotenv]: the error
    it returns and the process after it. *)
Variable godotenvLoad : Process -> error * Process.

(** [NewLLMConfig] (lines 546-576): the configuration and the process after
    it.  [0.7] is the [float64] nearest to it. *)
Definition NewLLMConfig (p : Process) : LLMConfig * Process :=
  let config := mkLLMConfig "" "gpt-4" 0x1.6666666666666p-1%float 1000 in
  let config :=
    mkLLMConfig (osGetenv "OPENAI_KEY" p) (Model config) (Temperature config)
      (MaxTokens config) in
  if (APIKey config =? "")%string
  then
    let (err, p') := godotenvLoad p in
    match err with
    | None =>
        (mkLLMConfig (osGetenv "OPENAI_KEY" p') (Model config)
           (Temperature config) (MaxTokens config), p')
    | Some _ => (config, p')
    end
  else (config, p).

End Configuration.

(** The format of the system prompt of [GenerateCommitMessage] (lines 585-600). *)
Definition commitPromptFormat : string :=
  "You are a professional software engineer who has just finished writing code. You've staged your changes and
	are now tasked with writing a commit message. You will be given a git diff and a template. Use the template to generate a commit message. 
	The commit message should be concise and informative. The people reveiwing your commit message are also professional software engineers, 
	so you can use technical language and abbreviations such as LLM, FF, etc. 
	The template is a markdown file, but don't include the comments in your response. 
	The first line of the commit message should be structured as follows:
	<subdirectory of the repo> <common directory of the file changes>: <brief title of the changes>
	Example: go ingester_worker: Adds implementation for receiving LLM requests
	Example: client dashboard_settings: add LLM settings to UI
	Example: go gql_api: Defines GraphQL API for auth signin
	Example: database/migrations: Adds new migrations for new tables
	Example: client map: fixes bug with map view
	
	The rest of the commit message should be an informative description of the changes you made. You do not need to format the commit message with headers.
	Use the following template format for your response:
	%s".

(** The format of the system prompt of [GeneratePRMessage] (lines 666-671). *)
Definition prPromptFormat : string :=
  "You are a professional software engineer who has finished a feature branch and is creating a pull request. 
	You will be given a list of commit messages from the branch and a PR template. Use the template to generate a comprehensive PR description.
	The PR description should clearly explain the changes, their purpose, and any important implementation details. 
	Do not include any other texts about testing, a human who will review your PR message will fill that part out.
	Use the following template format for your response. Be sure to include the entirety of the template:
	%s".

(** [GenerateCommitMessage] (lines 579-657). *)
Definition GenerateCommitMessage (diff : string) (config : LLMConfig)
  (template : string) : IO (string * error) :=
  if (APIKey config =? "")%string
  then io_ret ("", Some "OpenAI API key not found. Set the OPENAI_KEY environment variable")
  else
    let systemPrompt := fmtSprintf commitPromptFormat [template] in
    let messages :=
      [mkChatMessage "system" systemPrompt;
       mkChatMessage "user"
         (fmtSprintf ("Here is the git diff:" +:+ nl +:+ nl +:+ "%s") [diff])] in
    let requestBody :=
      mkChatRequest (Model config) messages (Temperature config)
        (MaxTokens config) in
    do (chatResponse, err) <- roundTrip requestBody (APIKey config);
    match err with
    | Some _ => io_ret ("", err)
    | None =>
        match Error chatResponse with
        | Some message => io_ret ("", Some (fmtSprintf "API error: %s" [message]))
        | None =>
            match Choices chatResponse with
            | [] => io_ret ("", Some "no response from API")
            | choice :: _ => io_ret (stringsTrimSpace (Content choice), None)
            end
        end
    end.

(** [GeneratePRMessage] (lines 660-728). *)
Definition GeneratePRMessage (commits : string) (config : LLMConfig)
  (template : string) : IO (string * error) :=
  if (APIKey config =? "")%string
  then io_ret ("", Some "OpenAI API key not found. Set the OPENAI_KEY environment variable")
  else
    let systemPrompt := fmtSprintf prPromptFormat [template] in
    let messages :=
      [mkChatMessage "system" systemPrompt;
       mkChatMessage "user"
         (fmtSprintf
            ("Here are the commit messages from the branch:" +:+ nl +:+ nl +:+ "%s")
            [commits])] in
    let requestBody :=
      mkChatRequest (Model config) messages (Temperature config)
        (MaxTokens config) in
    do (chatResponse, err) <- roundTrip requestBody (APIKey config);
    match err with
    | Some _ => io_ret ("", err)
    | None =>
        match Error chatResponse with
        | Some message => io_ret ("", Some (fmtSprintf "API error: %s" [message]))
        | None =>
            match Choices chatResponse with
            | [] => io_ret ("", Some "no response from API")
            | choice :: _ => io_ret (stringsTrimSpace (Content choice), None)
            end
        end
    end.

End Older.

(** ** The current revision of [llm.go] (lines 1-500) *)

(** The format of the system prompt of [GenerateCommitMessage] (lines 94-112). *)
Definition commitPromptFormat : string :=
  "You are a professional software engineer who has just finished writing code.
	You've staged your changes and are now tasked with writing a commit message. You will be given a git
	diff and a template. Use the git diff to determine what changes have been made in this commit. This is important
	for you to write an accurate and thoughtful commit message. Use the template to generate a commit message. 
	The commit message should be concise and informative. The people reveiwing your commit message are also professional software engineers, 
	so you can use technical language and do not need to spell out abbreviations such as PR, LLM, FF, etc. 
	The template is a markdown file, but don't include the comments in your response.
	The first line of the commit message should be structured as follows:
	<subdirectory of the repo> <common directory of the file changes>: <brief title of the changes>
	Example: go ingester_worker: Adds implementation for receiving LLM requests
	Example: client dashboard_settings: add LLM settings to UI
	Example: go gql_api: Defines GraphQL API for auth signin
	Example: database/migrations: Adds new migrations for new tables
	Example: client map: fixes bug with map view
	
	Do not include any markdown headers in your response.
	The rest of the commit message should be an informative description of the changes you made.
	Use the following template format for your response:
	%s".

(** The text that [GeneratePRMessage] hands to [fmt.Sprintf] as its first
    argument (lines 178-185). *)
Definition prPromptText : string :=
  "You are a professional software engineer who has finished a feature branch and is creating a pull request. 
	You will be given a list of commit messages from the branch and a PR template. Use the template to generate a comprehensive PR description.
	The PR description should clearly explain the changes, their purpose, and any important implementation details. 
	Do not include any other texts about testing, a human who will review your PR message will fill that part out.
	IMPORTANT: You MUST include the ENTIRE template in your response, including ALL sections at the end.
	%s
	Use the following template format for your response:
	%s".

(** The text that [getQuestionsPrompt] returns when questions are enabled
    (lines 266-272). *)
Definition questionsPromptText : string :=
  "
	If you need additional information to write a more informative PR description, you can ask up to 3 questions.
	To ask questions, respond with a JSON object in the following format:
	{" +:+ dq +:+ "questions" +:+ dq +:+ ": [" +:+ dq +:+ "question 1" +:+ dq +:+ ", " +:+ dq +:+ "question 2" +:+ dq +:+ ", " +:+ dq +:+ "question 3" +:+ dq +:+ "]}
	
	Only ask questions if you genuinely need more context to write a better PR description. Don't ask questions in most cases.
	".

Section Configuration.

(** [godotenv.Load()], of the library [github.com/joho/godotenv]: the error
    it returns and the process after it. *)
Variable godotenvLoad : Process -> error * Process.

(** [NewLLMConfig] (lines 55-85): the configuration and the process after
    it.  [0.7] is the [float64] nearest to it; the fields that the literal
    leaves out are zero. *)
Definition NewLLMConfig (p : Process) : LLMConfig * Process :=
  let config := mkLLMConfig "" "gpt-4" 0x1.6666666666666p-1%float 1000 false in
  let config :=
    mkLLMConfig (osGetenv "OPENAI_KEY" p) (Model config) (Temperature config)
      (MaxTokens config) (EnableQuestions config) in
  if (APIKey config =? "")%string
  then
    let (err, p') := godotenvLoad p in
    match err with
    | None =>
        (mkLLMConfig (osGetenv "OPENAI_KEY" p') (Model config)
           (Temperature config) (MaxTokens config) (EnableQuestions config), p')
    | Some _ => (config, p')
    end
  else (config, p).

End Configuration.

(** [GenerateCommitMessage] (lines 88-169). *)
Definition GenerateCommitMessage (diff : string) (config : LLMConfig)
  (template : string) : IO (string * error) :=
  if (APIKey config =? "")%string
  then io_ret ("", Some "OpenAI API key not found. Set the OPENAI_KEY environment variable")
  else
    let systemPrompt := fmtSprintf commitPromptFormat [template] in
    let messages :=
      [mkChatMessage "system" systemPrompt;
       mkChatMessage "user"
         (fmtSprintf ("Here is the git diff:" +:+ nl +:+ nl +:+ "%s") [diff])] in
    let requestBody :=
      mkChatRequest (Model config) messages (Temperature config)
        (MaxTokens config) in
    do (chatResponse, err) <- roundTrip requestBody (APIKey config);
    match err with
    | Some _ => io_ret ("", err)
    | None =>
        match Error chatResponse with
        | Some message => io_ret ("", Some (fmtSprintf "API error: %s" [message]))
        | None =>
            match Choices chatResponse with
            | [] => io_ret ("", Some "no response from API")
            | choice :: _ => io_ret (stringsTrimSpace (Content choice), None)
            end
        end
    end.

(** [getQuestionsPrompt] (lines 264-275). *)
Definition getQuestionsPrompt (enableQuestions : bool) : string :=
  if enableQuestions then questionsPromptText else "".

(** [makeOpenAIRequest] (lines 278-327). *)
Definition makeOpenAIRequest (messages : list ChatMessage) (config : LLMConfig)
  : IO (string * error) :=
  let requestBody :=
    mkChatRequest (Model config) messages (Temperature config)
      (MaxTokens config) in
  do (chatResponse, err) <- roundTrip requestBody (APIKey config);
  match err with
  | Some _ => io_ret ("", err)
  | None =>
      match Error chatResponse with
      | Some message => io_ret ("", Some (fmtSprintf "API error: %s" [message]))
      | None =>
          match Choices chatResponse with
          | [] => io_ret ("", Some "no response from API")
          | choice :: _ => io_ret (Content choice, None)
          end
      end
  end.

(** The literal that opens a questions payload: an opening brace, the word
    [questions] between double quotes, a colon. *)
Definition questionsMarker : string := "{" +:+ dq +:+ "questions" +:+ dq +:+ ":".

(** The brace-matching loop of [extractQuestions] (lines 340-350), which
    [extractPRDescription] repeats (lines 469-479): the loop from index [i] on
    with the counter at [braceCount]; its result is [endIdx] when the loop is
    left, [-1] when no brace brought the counter back to zero. *)
Fixpoint findClosingBrace (fuel : nat) (response : string) (i braceCount : Z)
  {struct fuel} : run Z :=
  if i <? len response
  then match fuel with
       | O => OutOfFuel
       | S fuel' =>
           let* c := byteAt response i in
           if Ascii.eqb c lbrace
           then findClosingBrace fuel' response (i + 1) (braceCount + 1)
           else
             let* c' := byteAt response i in
             if Ascii.eqb c' rbrace
             then let braceCount := braceCount - 1 in
                  if braceCount =? 0 then Ret i
                  else findClosingBrace fuel' response (i + 1) braceCount
             else findClosingBrace fuel' response (i + 1) braceCount
       end
  else Ret (-1).

(** The loop of [formatQuestionsAndAnswers] (lines 444-447), from index [i]
    on, with [sb] what the builder holds. *)
Fixpoint formatLoop (i : Z) (qas : list QuestionResponse) (sb : string) : string :=
  match qas with
  | [] => sb
  | qa :: rest =>
      let sb :=
        sb +:+ fmtSprintfAny ("Question %d: %s" +:+ nl)
                 [ArgInt (i + 1); ArgString (Question qa)] in
      let sb :=
        sb +:+ fmtSprintfAny ("Answer: %s" +:+ nl +:+ nl)
                 [ArgString (Answer qa)] in
      formatLoop (i + 1) rest sb
  end.

(** [formatQuestionsAndAnswers] (lines 439-450). *)
Definition formatQuestionsAndAnswers (qas : list QuestionResponse) : string :=
  formatLoop 0 qas ("Here are my answers to your questions:" +:+ nl +:+ nl).

(** [extractPRDescription] (lines 453-500). *)
Definition extractPRDescription (response : string) : run string :=
  if (stringsTrimSpace response =? "")%string
     || stringsHasPrefix (stringsTrimSpace response) questionsMarker
  then Ret ""
  else
    let startIdx := stringsIndex response questionsMarker in
    if startIdx =? -1 then Ret response
    else
      let* endIdx := findClosingBrace (String.length response) response startIdx 0 in
      if endIdx =? -1 then Ret response
      else
        let* before := sliceTo response startIdx in
        let beforeQuestions := stringsTrimSpace before in
        let* after := sliceFrom response (endIdx + 1) in
        let afterQuestions := stringsTrimSpace after in
        if negb (beforeQuestions =? "")%string && negb (afterQuestions =? "")%string
        then Ret (beforeQuestions +:+ nl +:+ nl +:+ afterQuestions)
        else if negb (beforeQuestions =? "")%string then Ret beforeQuestions
        else if negb (afterQuestions =? "")%string then Ret afterQuestions
        else Ret "".

(** A [QuestionResponse] with its [Answer] replaced. *)
Definition setAnswer (answer : string) (q : QuestionResponse) : QuestionResponse :=
  mkQuestionResponse (Question q) answer.

(** [questions[i].Answer = answer]: panics unless [0 <= i < len(questions)]. *)
Definition storeAnswer (questions : list QuestionResponse) (i : Z)
  (answer : string) : run (list QuestionResponse) :=
  if (0 <=? i) && (i <? Z.of_nat (length questions))
  then Ret (alter (setAnswer answer) (Z.to_nat i) questions)
  else Panic.

(** [questions[i].Answer]: panics unless [0 <= i < len(questions)]. *)
Definition loadAnswer (questions : list QuestionResponse) (i : Z) : run string :=
  if (0 <=? i) && (i <? Z.of_nat (length questions))
  then match questions !! Z.to_nat i with
       | Some q => Ret (Answer q)
       | None => Panic
       end
  else Panic.

(** The loop of lines 412-414, from index [j] on. *)
Fixpoint clearAnswers (fuel : nat) (questions : list QuestionResponse) (j : Z)
  {struct fuel} : run (list QuestionResponse) :=
  if j <? Z.of_nat (length questions)
  then match fuel with
       | O => OutOfFuel
       | S fuel' =>
           let* questions := storeAnswer questions j "" in
           clearAnswers fuel' questions (j + 1)
       end
  else Ret questions.

(** The loop of lines 211-216: is there an answer that is not empty? *)
Fixpoint anyAnswered (questionResponses : list QuestionResponse) : bool :=
  match questionResponses with
  | [] => false
  | q :: rest => if negb (Answer q =? "")%string then true else anyAnswered rest
  end.

(** The loop of lines 230-237: the question and the answer of each answered
    question, appended to [newMessages]. *)
Fixpoint appendAnswered (newMessages : list ChatMessage)
  (questionResponses : list QuestionResponse) : list ChatMessage :=
  match questionResponses with
  | [] => newMessages
  | qa :: rest =>
      if negb (Answer qa =? "")%string
      then appendAnswered
             (newMessages ++ [mkChatMessage "assistant" (Question qa);
                              mkChatMessage "user" (Answer qa)]) rest
      else appendAnswered newMessages rest
  end.

(** A slice that may be [nil], read as the list of its elements. *)
Definition elements {A : Type} (s : option (list A)) : list A :=
  match s with
  | Some l => l
  | None => []
  end.

(** ** Sample inputs

    Concrete responses, configurations and worlds on which the model is run
    in the examples that close the development. *)

(** A response with text around a payload of two questions. *)
Definition twoQuestions : string :=
  "Draft. " +:+ questionsMarker +:+ " [" +:+ dq +:+ "Why?" +:+ dq +:+ ", "
  +:+ dq +:+ "Which issue?" +:+ dq +:+ "]} Thanks.".

(** A payload whose only question holds an opening brace. *)
Definition braceInQuestion : string :=
  questionsMarker +:+ "[" +:+ dq +:+ "Why {?" +:+ dq +:+ "]}".

(** The same after a note, and after a space and a letter. *)
Definition notedBraceInQuestion : string := "Note: " +:+ braceInQuestion.
Definition spacedBraceInQuestion : string := " a" +:+ braceInQuestion.

(** A payload of four questions. *)
Definition fourQuestions : string :=
  questionsMarker +:+ "[" +:+ dq +:+ "a" +:+ dq +:+ "," +:+ dq +:+ "b" +:+ dq
  +:+ "," +:+ dq +:+ "c" +:+ dq +:+ "," +:+ dq +:+ "d" +:+ dq +:+ "]}".

(** A payload that is cut before any closing brace. *)
Definition cutPayload : string := "See " +:+ questionsMarker +:+ " [".

Definition sampleConfig : LLMConfig :=
  mkLLMConfig "sk-sample" "gpt-4" 0.5%float 1000 true.

Definition plainConfig : LLMConfig :=
  mkLLMConfig "sk-sample" "gpt-4" 0.5%float 1000 false.

Definition noKeyConfig : LLMConfig :=
  mkLLMConfig "" "gpt-4" 0.5%float 1000 true.

Definition nanConfig : LLMConfig :=
  mkLLMConfig "sk-sample" "gpt-4" nan 1000 true.

(** An API that answers [first] to the first request and [second] to the
    others. *)
Definition apiSays (first second : string) (n : nat) : HttpOutcome :=
  match n with
  | O => Decoded (mkChatResponse [mkChatMessage "assistant" first] None)
  | S _ => Decoded (mkChatResponse [mkChatMessage "assistant" second] None)
  end.

(** A world where nothing has been sent yet. *)
Definition freshWorld (first second input : string) : World :=
  mkWorld (apiSays first second) [] input.

(** A [godotenv.Load] to run the model with: it fails with [err], or it finds
    a file that gives [file key] to each of its keys, and sets those that the
    environment does not hold. *)
Definition loadDotenv (file : string + (string -> option string)) (p : Process)
  : error * Process :=
  match file with
  | inl err => (Some err, p)
  | inr values =>
      (None,
       mkProcess
         (fun key => match environ p key with
                     | Some v => Some v
                     | None => values key
                     end))
  end.

(** An environment that holds [OPENAI_KEY] with the value [v], and one that
    holds nothing. *)
Definition keyInEnvironment (v : string) : Process :=
  mkProcess (fun key => if (key =? "OPENAI_KEY")%string then Some v else None).

Definition emptyEnvironment : Process := mkProcess (fun _ => None).

(** A world where no request can be sent. *)
Definition offlineWorld : World :=
  mkWorld (fun _ => SendFailed "dial tcp: no route to host") [] "".

(** Two ways in which standard input delivers its bytes: all that fits, as
    a file or a pipe that holds them already; a line at a time, as a
    terminal. *)
Definition readAvailable (room : nat) (input : string) : nat := room.

Definition readOneLine (room : nat) (input : string) : nat :=
  String.length (fst (readUntil newline input)).

Definition threeQuestions : list QuestionResponse :=
  [mkQuestionResponse "one" ""; mkQuestionResponse "two" "";
   mkQuestionResponse "three" ""].

Section Program.

(** [json.Unmarshal(data, &questionsObj)] for the [questionsObj] of
    [extractQuestions] (lines 361-365): [None] when it returns an error, the
    [Questions] field of the decoded struct otherwise. *)
Variable jsonUnmarshalQuestions : string -> option (list string).

(** [strings.ToLower]. *)
Variable stringsToLower : string -> string.

(** Lines 361-391 of [extractQuestions]: decode [jsonStr], keep three
    questions at most.  A slice is [None] when it is [nil]. *)
Definition decodeQuestions (jsonStr : string)
  : option (list QuestionResponse) * bool :=
  match jsonUnmarshalQuestions jsonStr with
  | None => (None, false)
  | Some questions =>
      if (length questions =? 0)%nat then (None, false)
      else
        let maxQuestions := 3%nat in
        let questions :=
          if (maxQuestions <? length questions)%nat
          then take maxQuestions questions else questions in
        let questionResponses :=
          map (fun q => mkQuestionResponse q "") questions in
        (Some questionResponses, (0 <? length questionResponses)%nat)
  end.

(** Lines 332-359 of [extractQuestions]: the text [jsonStr] that is handed to
    the decoder, [None] when the function returns before. *)
Definition questionsJSON (response : string) : run (option string) :=
  let startIdx := stringsIndex response questionsMarker in
  if startIdx =? -1 then Ret None
  else
    let* endIdx := findClosingBrace (String.length response) response startIdx 0 in
    if endIdx =? -1
    then
      let* tail := sliceFrom response startIdx in
      let endIdx := stringsIndex tail "}" + startIdx in
      if endIdx =? -1 then Ret None
      else let* jsonStr := slice response startIdx (endIdx + 1) in
           Ret (Some jsonStr)
    else let* jsonStr := slice response startIdx (endIdx + 1) in
         Ret (Some jsonStr).

(** [extractQuestions] (lines 330-392). *)
Definition extractQuestions (response : string)
  : run (option (list QuestionResponse) * bool) :=
  let* jsonStr := questionsJSON response in
  match jsonStr with
  | None => Ret (None, false)
  | Some jsonStr => Ret (decodeQuestions jsonStr)
  end.

(** Is the answer to question [i] one of the two words that skip the rest
    (line 409)? *)
Definition skipsAll (questions : list QuestionResponse) (i : Z) : run bool :=
  let* a := loadAnswer questions i in
  if (stringsToLower a =? "skip all")%string then Ret true
  else let* a' := loadAnswer questions i in
       Ret (stringsToLower a' =? "skipall")%string.

(** [os.Stdin.Read(p)]: the number of bytes that a read into [room] bytes
    delivers when [input] is what standard input still holds.  The operating
    system chooses it (a terminal delivers a line, a file or a pipe what
    fits), so it is a parameter; the input gets shorter at every read, so a
    function of the room and of the input left covers every sequence of
    reads.  [delivered] bounds it as the system does: one byte at least
    unless the input is at its end, the room and the input at most. *)
Variable stdinRead : nat -> string -> nat.

Definition delivered (room : nat) (input : string) : nat :=
  Nat.min (Nat.max 1 (stdinRead room input))
    (Nat.min room (String.length input)).

(** One read: the bytes delivered (none at the end of the input) and the
    input left. *)
Definition osStdinRead (room : nat) (input : string) : string * string :=
  let n := delivered room input in
  (substring 0 n input, substring n (String.length input - n) input).

(** The loop of [bufio.Reader.ReadString(delim)] ([ReadSlice] within
    [collectFragments]) on a reader that holds the bytes [buf], read from
    standard input and not delivered yet: search the buffer for [delim];
    when it is missing, take a buffer that is full as a fragment ([full] are
    the fragments taken), and fill one that is not by one read, at whose end
    of input what the buffer holds is delivered (the error is dropped by the
    program).  The result is the text delivered, the bytes that the reader
    keeps, and the input left. *)
Fixpoint readStringLoop (fuel : nat) (delim : ascii) (full buf input : string)
  {struct fuel} : run (string * string * string) :=
  match cutAt delim buf with
  | Some (line, rest) => Ret (full +:+ line, rest, input)
  | None =>
      match fuel with
      | O => OutOfFuel
      | S fuel' =>
          if (defaultBufSize <=? String.length buf)%nat
          then readStringLoop fuel' delim (full +:+ buf) "" input
          else
            let (chunk, input') :=
              osStdinRead (defaultBufSize - String.length buf) input in
            if (chunk =? "")%string then Ret (full +:+ buf, "", input')
            else readStringLoop fuel' delim full (buf +:+ chunk) input'
      end
  end.

(** [reader.ReadString(delim)] for a reader on standard input that holds
    [reader]: the text delivered and the bytes that the reader holds
    afterwards. *)
Definition readString (delim : ascii) (reader : string) : IO (string * string) :=
  fun w =>
    match readStringLoop (2 * String.length (stdin w) + 2) delim "" reader
            (stdin w) with
    | Ret (line, reader', input') =>
        Ret ((line, reader'), mkWorld (network w) (sent w) input')
    | Panic => Panic
    | OutOfFuel => OutOfFuel
    end.

(** The loop of lines 401-417, [n] questions from index [i] on still to be
    asked, with [reader] what the reader of line 399 holds. *)
Fixpoint askLoop (n : nat) (i : Z) (questions : list QuestionResponse)
  (reader : string) : IO (list QuestionResponse * string) :=
  match n with
  | O => io_ret (questions, reader)
  | S n' =>
      do (answer, reader) <- readString newline reader;
      do questions <- lift (storeAnswer questions i (stringsTrimSpace answer));
      do skip <- lift (skipsAll questions i);
      if skip
      then
        do questions <- lift (clearAnswers (length questions) questions (i + 1));
        io_ret (questions, reader)
      else askLoop n' (i + 1) questions reader
  end.

(** [askUserQuestions] (lines 395-436).  [bufio.NewReader(os.Stdin)] is a
    reader that holds nothing yet; it is dropped, with the bytes that it
    holds, when the function returns.  The count of the answers (lines
    419-433) only chooses what is printed. *)
Definition askUserQuestions (questions : list QuestionResponse)
  : IO (list QuestionResponse) :=
  let reader := "" in
  do (questions, _) <- askLoop (length questions) 0 questions reader;
  io_ret questions.

(** [GeneratePRMessage] (lines 172-261). *)
Definition GeneratePRMessage (commits : string) (config : LLMConfig)
  (template : string) : IO (string * error) :=
  if (APIKey config =? "")%string
  then io_ret ("", Some "OpenAI API key not found. Set the OPENAI_KEY environment variable")
  else
    let systemPrompt :=
      fmtSprintf (getQuestionsPrompt (EnableQuestions config))
        [prPromptText; template] in
    let messages :=
      [mkChatMessage "system" systemPrompt;
       mkChatMessage "user"
         (fmtSprintf
            ("Here are the commit messages from the branch:" +:+ nl +:+ nl +:+ "%s")
            [commits])] in
    do (response, err) <- makeOpenAIRequest messages config;
    match err with
    | Some _ => io_ret ("", err)
    | None =>
        do (questionResponses, hasQuestions) <- lift (extractQuestions response);
        if hasQuestions && EnableQuestions config
        then
          do questionResponses <- askUserQuestions (elements questionResponses);
          if anyAnswered questionResponses
          then
            let newMessages :=
              [mkChatMessage "system" systemPrompt;
               mkChatMessage "user"
                 (fmtSprintf
                    ("Here are the commit messages from the branch:"
                     +:+ nl +:+ nl +:+ "%s") [commits]);
               mkChatMessage "assistant"
                 "I need some additional information to write a better PR description."] in
            let newMessages := appendAnswered newMessages questionResponses in
            let newMessages :=
              newMessages ++
              [mkChatMessage "user"
                 "Now that you have this additional information, please generate a comprehensive PR description using the template provided earlier."] in
            do (response, err) <- makeOpenAIRequest newMessages config;
            match err with
            | Some _ => io_ret ("", err)
            | None => io_ret (stringsTrimSpace response, None)
            end
          else
            do response <- lift (extractPRDescription response);
            io_ret (stringsTrimSpace response, None)
        else io_ret (stringsTrimSpace response, None)
    end.

(** ** The words of the claims

    The notions that the claims are stated with, written after their words
    and not after the code: where the literal occurs, what the counter of
    braces is worth, what an API function makes of an answer, which messages
    a call holds. *)

(** [sub] occurs in [s] at position [n]; [n] is its first occurrence. *)
Definition occursAt (sub s : string) (n : nat) : Prop :=
  substring n (String.length sub) s = sub.

Definition firstOccurrence (sub s : string) (n : nat) : Prop :=
  occursAt sub s n /\ forall m, (m < n)%nat -> ~ occursAt sub s m.

(** What a byte adds to the counter: an opening brace increments it, a
    closing brace decrements it. *)
Definition braceStep (c : ascii) : Z :=
  if Ascii.eqb c lbrace then 1 else if Ascii.eqb c rbrace then -1 else 0.

(** The counter after the [k] bytes from position [start] on. *)
Fixpoint braceCounter (s : string) (start k : nat) : Z :=
  match k with
  | O => 0
  | S k' =>
      braceCounter s start k'
      + match String.get (start + k') s with
        | Some c => braceStep c
        | None => 0
        end
  end.

(** The counter once the byte at position [e] has been counted. *)
Definition counterAt (s : string) (start e : nat) : Z :=
  braceCounter s start (S e - start).

(** [e] is the first position where the counter, started at [start], is back
    to zero; there is no such position. *)
Definition counterReturnsAt (s : string) (start e : nat) : Prop :=
  (start <= e < String.length s)%nat /\ counterAt s start e = 0
  /\ forall e', (start <= e' < e)%nat -> counterAt s start e' <> 0.

Definition counterNeverReturns (s : string) (start : nat) : Prop :=
  forall e, (start <= e < String.length s)%nat -> counterAt s start e <> 0.

(** [e] is the position of the first closing brace at or after [start]; there
    is no closing brace at or after [start]. *)
Definition firstClosingBraceAt (s : string) (start e : nat) : Prop :=
  (start <= e)%nat /\ String.get e s = Some rbrace
  /\ forall e', (start <= e' < e)%nat -> String.get e' s <> Some rbrace.

Definition noClosingBraceFrom (s : string) (start : nat) : Prop :=
  forall e, (start <= e)%nat -> String.get e s <> Some rbrace.

(** The bytes of [s] from position [start] to position [e], both included. *)
Definition fromTo (s : string) (start e : nat) : string :=
  substring start (S e - start) s.

(** The payload as the claim delimits it: from the first occurrence of the
    literal to the first position where the counter is back to zero. *)
Definition countedPayload (response payload : string) : Prop :=
  exists start e,
    firstOccurrence questionsMarker response start
    /\ counterReturnsAt response start e
    /\ payload = fromTo response start e.

(** The payload as the code delimits it: as above or, when the counter never
    comes back to zero, up to the first closing brace after the literal. *)
Definition delimitedPayload (response payload : string) : Prop :=
  exists start e,
    firstOccurrence questionsMarker response start
    /\ (counterReturnsAt response start e
        \/ (counterNeverReturns response start
            /\ firstClosingBraceAt response start e))
    /\ payload = fromTo response start e.

(** Two pieces of text joined by a blank line when neither is empty. *)
Definition joinParagraphs (a b : string) : string :=
  if negb (a =? "")%string && negb (b =? "")%string then a +:+ nl +:+ nl +:+ b
  else if negb (a =? "")%string then a
  else b.

(** The configuration of the earlier revision that a configuration of the
    current one holds. *)
Definition older (config : LLMConfig) : Older.LLMConfig :=
  Older.mkLLMConfig (APIKey config) (Model config) (Temperature config)
    (MaxTokens config).

(** The text of the error for a missing API key (lines 90 and 174). *)
Definition keyNotFound : string :=
  "OpenAI API key not found. Set the OPENAI_KEY environment variable".

(** What an API function makes of the outcome of its request: the content of
    the first choice, or the error that it reports. *)
Definition answerOf (o : HttpOutcome) : string * error :=
  match o with
  | SendFailed err => ("", Some ("failed to send request: " +:+ err))
  | ReadFailed err => ("", Some ("failed to read response: " +:+ err))
  | UnmarshalFailed err => ("", Some ("failed to unmarshal response: " +:+ err))
  | Decoded r =>
      match Error r with
      | Some message => ("", Some ("API error: " +:+ message))
      | None =>
          match Choices r with
          | [] => ("", Some "no response from API")
          | choice :: _ => (Content choice, None)
          end
      end
  end.

(** A content returned with its surrounding white space trimmed; an error
    returned as it is. *)
Definition trimmed (a : string * error) : string * error :=
  match snd a with
  | None => (stringsTrimSpace (fst a), None)
  | Some _ => ("", snd a)
  end.

(** The outcome of the next request, and of the one after it. *)
Definition firstOutcome (w : World) : HttpOutcome := network w (length (sent w)).
Definition secondOutcome (w : World) : HttpOutcome :=
  network w (S (length (sent w))).

(** The question and the answer of a question, as two messages. *)
Definition asMessages (qa : QuestionResponse) : list ChatMessage :=
  [mkChatMessage "assistant" (Question qa); mkChatMessage "user" (Answer qa)].

Definition answered (qa : QuestionResponse) : bool := negb (Answer qa =? "")%string.

(** The first [n] lines of an input and the text that follows them. *)
Fixpoint readLines (n : nat) (input : string) : list string * string :=
  match n with
  | O => ([], input)
  | S n' =>
      let (line, rest) := readUntil newline input in
      let (lines, rest') := readLines n' rest in
      (line :: lines, rest')
  end.

(** The messages of the first call of [GeneratePRMessage]: the system prompt
    and the user message that holds the commit messages. *)
Definition initialMessages (commits : string) (config : LLMConfig)
  (template : string) : list ChatMessage :=
  [mkChatMessage "system"
     (fmtSprintf (getQuestionsPrompt (EnableQuestions config))
        [prPromptText; template]);
   mkChatMessage "user"
     ("Here are the commit messages from the branch:" +:+ nl +:+ nl +:+ commits)].

(** The messages of its second call, as the claim lists them: the messages
    of the first call, the notice of the assistant, the question and the
    answer of each answered question, the final instruction. *)
Definition followUpMessages (initial : list ChatMessage)
  (questionResponses : list QuestionResponse) : list ChatMessage :=
  initial
  ++ [mkChatMessage "assistant"
        "I need some additional information to write a better PR description."]
  ++ flat_map asMessages (List.filter answered questionResponses)
  ++ [mkChatMessage "user"
        "Now that you have this additional information, please generate a comprehensive PR description using the template provided earlier."].

(** The request that an API function sends for a list of messages. *)
Definition requestFor (messages : list ChatMessage) (config : LLMConfig)
  : HttpRequest :=
  newRequest
    (mkChatRequest (Model config) messages (Temperature config) (MaxTokens config))
    (APIKey config).

(** The follow-up request is due: questions are enabled, the first response
    holds questions that [extractQuestions] extracts, and the user gives one
    of them an answer that is not empty. *)
Definition wantsFollowUp (config : LLMConfig) (w : World) : Prop :=
  EnableQuestions config = true
  /\ exists content qs questions' w',
       answerOf (firstOutcome w) = (content, None)
       /\ extractQuestions content = Ret (Some qs, true)
       /\ askUserQuestions qs w = Ret (questions', w')
       /\ anyAnswered questions' = true.

(** A text that holds no [%]: [fmt.Sprintf] copies it. *)
Fixpoint noVerb (s : string) : bool :=
  match s with
  | EmptyString => true
  | String c r => negb (Ascii.eqb c "%") && noVerb r
  end.

(** The response holds nothing but questions (line 455). *)
Definition onlyQuestions (s : string) : bool :=
  (stringsTrimSpace s =? "")%string
  || stringsHasPrefix (stringsTrimSpace s) questionsMarker.

(** The answer lowercases to one of the two words that skip the remaining
    questions. *)
Definition skipWord (answer : string) : bool :=
  (stringsToLower answer =? "skip all")%string
  || (stringsToLower answer =? "skipall")%string.

(** A request carries the configuration: it is a POST to the chat
    completions URL, with a JSON content type, the API key as bearer token,
    and the model, the temperature and the token limit of the
    configuration. *)
Definition carriesConfig (config : LLMConfig) (req : HttpRequest) : Prop :=
  Method req = "POST"
  /\ URL req = "https://api.openai.com/v1/chat/completions"
  /\ Header req
     = [("Content-Type", "application/json");
        ("Authorization", "Bearer " +:+ APIKey config)]
  /\ reqModel (Body req) = Model config
  /\ reqTemperature (Body req) = Temperature config
  /\ reqMaxTokens (Body req) = MaxTokens config.

(** A format without the verb that ends it. *)
Definition withoutFinalVerb (format : string) : string :=
  substring 0 (String.length format - 2) format.

(** The block of [formatQuestionsAndAnswers] for a question, numbered [n]. *)
Definition numberedBlock (n : Z) (qa : QuestionResponse) : string :=
  "Question " +:+ formatInt n +:+ ": " +:+ Question qa +:+ nl
  +:+ "Answer: " +:+ Answer qa +:+ nl +:+ nl.

(** A question with the trimmed line that answers it. *)
Definition answeredBy (q : QuestionResponse) (line : string) : QuestionResponse :=
  mkQuestionResponse (Question q) (stringsTrimSpace line).

(** No line trims to a skip word; every line trims to the empty text. *)
Definition noSkipWord (lines : list string) : bool :=
  forallb (fun line => negb (skipWord (stringsTrimSpace line))) lines.

Definition allBlank (lines : list string) : bool :=
  forallb (fun line => (stringsTrimSpace line =? "")%string) lines.

(** The questions with the answers taken from the text [input], as a
    recursion on the list of the questions: each question takes the next
    line, trimmed; at a skip word the questions that follow get the empty
    answer and no more line is taken.  The second component is the text
    that follows the lines taken. *)
Fixpoint answerAll (questions : list QuestionResponse) (input : string)
  : list QuestionResponse * string :=
  match questions with
  | [] => ([], input)
  | q :: rest =>
      let (line, input') := readUntil newline input in
      if skipWord (stringsTrimSpace line)
      then (answeredBy q line :: map (setAnswer "") rest, input')
      else let (rest', input'') := answerAll rest input' in
           (answeredBy q line :: rest', input'')
  end.

(** ** Properties *)

(** *** Strings and indices *)

Lemma substring_length (s : string) :
  forall n m, String.length (substring n m s) = Nat.min m (String.length s - n).
Proof.
  induction s as [|c s IH]; intros n m.
  - destruct n, m; reflexivity.
  - destruct n as [|n]; simpl.
    + destruct m as [|m]; simpl; [reflexivity|].
      rewrite IH, Nat.sub_0_r. reflexivity.
    + apply IH.
Qed.

Lemma get_Some_lt (s : string) :
  forall n c, String.get n s = Some c -> (n < String.length s)%nat.
Proof.
  induction s as [|a s IH]; intros n c H; simpl in *; [discriminate|].
  destruct n as [|n]; [lia|]. apply IH in H. lia.
Qed.

Lemma get_lt_Some (s : string) :
  forall n, (n < String.length s)%nat -> exists c, String.get n s = Some c.
Proof.
  induction s as [|a s IH]; intros n H; simpl in *; [lia|].
  destruct n as [|n]; [eauto|]. apply IH. lia.
Qed.

Lemma get_ge_None (s : string) :
  forall n, (String.length s <= n)%nat -> String.get n s = None.
Proof.
  induction s as [|a s IH]; intros n H; simpl in *; [reflexivity|].
  destruct n as [|n]; [lia|]. apply IH. lia.
Qed.

Lemma occursAt_bound (sub s : string) (n : nat) :
  (0 < String.length sub)%nat ->
  occursAt sub s n -> (n + String.length sub <= String.length s)%nat.
Proof.
  unfold occursAt. intros Hsub H.
  pose proof (substring_length s n (String.length sub)) as L.
  rewrite H in L. lia.
Qed.

Lemma occursAt_get (sub s : string) (n p : nat) :
  occursAt sub s n -> (p < String.length sub)%nat ->
  String.get (p + n) s = String.get p sub.
Proof.
  unfold occursAt. intros H Hp.
  rewrite <- (substring_correct1 s n (String.length sub) p Hp), H. reflexivity.
Qed.

Lemma occursAt_marker_brace (s : string) (n : nat) :
  occursAt questionsMarker s n -> String.get n s = Some lbrace.
Proof.
  intros H. apply (occursAt_get _ _ _ 0%nat) in H; [exact H|].
  vm_compute. lia.
Qed.

(** A one-byte text occurs where the byte stands. *)
Lemma occursAt_byte (c : ascii) (s : string) (n : nat) :
  occursAt (String c EmptyString) s n <-> String.get n s = Some c.
Proof.
  unfold occursAt. simpl String.length. revert n.
  induction s as [|a s IH]; intros n.
  - destruct n; simpl; split; discriminate.
  - destruct n as [|n]; simpl.
    + destruct s; simpl; split; congruence.
    + apply IH.
Qed.

(** [strings.Index] finds the first occurrence, and [-1] only when there is
    none. *)
Lemma stringsIndex_found (s sub : string) :
  stringsIndex s sub <> -1 ->
  exists n, stringsIndex s sub = Z.of_nat n /\ firstOccurrence sub s n.
Proof.
  unfold stringsIndex. destruct (String.index 0 sub s) as [n|] eqn:E; [|congruence].
  intros _. exists n. split; [reflexivity|]. split.
  - exact (index_correct1 _ _ _ _ E).
  - intros m Hm. apply (index_correct2 _ _ _ _ E); lia.
Qed.

Lemma stringsIndex_missing (s sub : string) :
  sub <> EmptyString -> stringsIndex s sub = -1 -> forall n, ~ occursAt sub s n.
Proof.
  unfold stringsIndex. destruct (String.index 0 sub s) as [n|] eqn:E; [lia|].
  intros Hsub _ m. apply (index_correct3 _ _ _ _ E Hsub). lia.
Qed.

Lemma firstOccurrence_unique (sub s : string) (n m : nat) :
  firstOccurrence sub s n -> firstOccurrence sub s m -> n = m.
Proof.
  intros [Hn Hn'] [Hm Hm'].
  destruct (Nat.lt_trichotomy n m) as [H|[H|H]]; [|exact H|].
  - exfalso. exact (Hm' n H Hn).
  - exfalso. exact (Hn' m H Hm).
Qed.

Lemma stringsIndex_first (s sub : string) (n : nat) :
  sub <> EmptyString -> firstOccurrence sub s n -> stringsIndex s sub = Z.of_nat n.
Proof.
  intros Hsub Hn.
  destruct (Z.eq_dec (stringsIndex s sub) (-1)) as [E|E].
  - exfalso. exact (stringsIndex_missing s sub Hsub E n (proj1 Hn)).
  - destruct (stringsIndex_found s sub E) as (m & -> & Hm).
    f_equal. exact (firstOccurrence_unique _ _ _ _ Hm Hn).
Qed.

Lemma byteAt_get (s : string) (n : nat) (c : ascii) :
  String.get n s = Some c -> byteAt s (Z.of_nat n) = Ret c.
Proof.
  intros H. unfold byteAt, len. pose proof (get_Some_lt _ _ _ H).
  rewrite Nat2Z.id, H.
  destruct (Z.leb_spec 0 (Z.of_nat n)); [|lia].
  destruct (Z.ltb_spec (Z.of_nat n) (Z.of_nat (String.length s))); [|lia].
  reflexivity.
Qed.

Lemma slice_in_range (s : string) (lo hi : nat) :
  (lo <= hi <= String.length s)%nat ->
  slice s (Z.of_nat lo) (Z.of_nat hi) = Ret (substring lo (hi - lo) s).
Proof.
  intros H. unfold slice, len.
  destruct (Z.leb_spec 0 (Z.of_nat lo)); [|lia].
  destruct (Z.leb_spec (Z.of_nat lo) (Z.of_nat hi)); [|lia].
  destruct (Z.leb_spec (Z.of_nat hi) (Z.of_nat (String.length s))); [|lia].
  simpl. rewrite Nat2Z.id, <- Nat2Z.inj_sub, Nat2Z.id by lia. reflexivity.
Qed.

(** *** The brace-matching loop *)

Lemma findClosingBrace_eq (fuel : nat) (s : string) (i bc : Z) :
  findClosingBrace fuel s i bc =
  if i <? len s
  then match fuel with
       | O => OutOfFuel
       | S fuel' =>
           let* c := byteAt s i in
           if Ascii.eqb c lbrace
           then findClosingBrace fuel' s (i + 1) (bc + 1)
           else
             let* c' := byteAt s i in
             if Ascii.eqb c' rbrace
             then if bc - 1 =? 0 then Ret i
                  else findClosingBrace fuel' s (i + 1) (bc - 1)
             else findClosingBrace fuel' s (i + 1) bc
       end
  else Ret (-1).
Proof. destruct fuel; reflexivity. Qed.

Lemma counterAt_step (s : string) (start p : nat) (c : ascii) :
  (start <= p)%nat -> String.get p s = Some c ->
  counterAt s start p = braceCounter s start (p - start) + braceStep c.
Proof.
  intros Hp Hc. unfold counterAt.
  replace (S p - start)%nat with (S (p - start)) by lia. simpl.
  replace (start + (p - start))%nat with p by lia. rewrite Hc. reflexivity.
Qed.

Lemma counterAt_next (s : string) (start p : nat) :
  (start <= p)%nat -> braceCounter s start (S p - start) = counterAt s start p.
Proof. reflexivity. Qed.

(** The loop, once it is past the opening brace and while the counter has not
    been back to zero: it ends at the first position where the counter is
    zero, or with [-1] when there is none. *)
Lemma findClosingBrace_scan (s : string) (start : nat) :
  forall (fuel p : nat) (bc : Z),
    (start < p)%nat ->
    bc = braceCounter s start (p - start) ->
    1 <= bc ->
    (forall e', (start <= e' < p)%nat -> counterAt s start e' <> 0) ->
    (String.length s - p <= fuel)%nat ->
    (findClosingBrace fuel s (Z.of_nat p) bc = Ret (-1)
     /\ counterNeverReturns s start)
    \/ (exists e, findClosingBrace fuel s (Z.of_nat p) bc = Ret (Z.of_nat e)
                  /\ counterReturnsAt s start e).
Proof.
  induction fuel as [|fuel IH]; intros p bc Hp Hbc Hpos Hnz Hfuel;
    rewrite findClosingBrace_eq; unfold len.
  - destruct (Z.ltb_spec (Z.of_nat p) (Z.of_nat (String.length s))); [lia|].
    left. split; [reflexivity|]. intros e He. apply Hnz. lia.
  - destruct (Z.ltb_spec (Z.of_nat p) (Z.of_nat (String.length s))) as [Hlt|Hge].
    + destruct (get_lt_Some s p ltac:(lia)) as [c Hc].
      rewrite (byteAt_get _ _ _ Hc). simpl run_bind.
      pose proof (counterAt_step s start p c ltac:(lia) Hc) as Hstep.
      rewrite <- Hbc in Hstep. unfold braceStep in Hstep.
      replace (Z.of_nat p + 1) with (Z.of_nat (S p)) by lia.
      assert (Hnext : forall bc', bc' = counterAt s start p -> 1 <= bc' ->
                (findClosingBrace fuel s (Z.of_nat (S p)) bc' = Ret (-1)
                 /\ counterNeverReturns s start)
                \/ (exists e, findClosingBrace fuel s (Z.of_nat (S p)) bc'
                              = Ret (Z.of_nat e)
                              /\ counterReturnsAt s start e)).
      { intros bc' Hbc' Hpos'. apply IH; try lia.
        - rewrite Hbc'. symmetry. apply counterAt_next. lia.
        - intros e' He'. destruct (Nat.eq_dec e' p) as [->|Hne].
          + lia.
          + apply Hnz. lia. }
      destruct (Ascii.eqb c lbrace).
      * apply Hnext; lia.
      * destruct (Ascii.eqb c rbrace).
        -- destruct (Z.eqb_spec (bc - 1) 0) as [Hz|Hz].
           ++ right. exists p. split; [reflexivity|].
              split; [lia|]. split; [lia|]. intros e' He'. apply Hnz. lia.
           ++ apply Hnext; lia.
        -- apply Hnext; lia.
    + left. split; [reflexivity|]. intros e He. apply Hnz. lia.
Qed.

(** The loop as the program starts it, on an opening brace with the counter
    at zero. *)
Lemma findClosingBrace_spec (s : string) (start : nat) :
  String.get start s = Some lbrace ->
  (findClosingBrace (String.length s) s (Z.of_nat start) 0 = Ret (-1)
   /\ counterNeverReturns s start)
  \/ (exists e, findClosingBrace (String.length s) s (Z.of_nat start) 0
                = Ret (Z.of_nat e)
                /\ counterReturnsAt s start e).
Proof.
  intros Hc. pose proof (get_Some_lt _ _ _ Hc) as Hlt.
  rewrite findClosingBrace_eq. unfold len.
  destruct (Z.ltb_spec (Z.of_nat start) (Z.of_nat (String.length s))); [|lia].
  destruct (String.length s) as [|n] eqn:En; [lia|].
  rewrite (byteAt_get _ _ _ Hc). simpl run_bind.
  replace (Ascii.eqb lbrace lbrace) with true by reflexivity.
  replace (Z.of_nat start + 1) with (Z.of_nat (S start)) by lia.
  pose proof (counterAt_step s start start lbrace ltac:(lia) Hc) as Hstep.
  rewrite Nat.sub_diag in Hstep. simpl in Hstep.
  apply findClosingBrace_scan; try lia.
  - replace (S start - start)%nat with 1%nat by lia. simpl.
    rewrite Nat.add_0_r, Hc. reflexivity.
  - intros e' He'. replace e' with start by lia. rewrite Hstep. discriminate.
Qed.

Lemma counterReturnsAt_unique (s : string) (start e1 e2 : nat) :
  counterReturnsAt s start e1 -> counterReturnsAt s start e2 -> e1 = e2.
Proof.
  intros (R1 & Z1 & F1) (R2 & Z2 & F2).
  destruct (Nat.lt_trichotomy e1 e2) as [H|[H|H]]; [|exact H|].
  - exfalso. apply (F2 e1); [lia|exact Z1].
  - exfalso. apply (F1 e2); [lia|exact Z2].
Qed.

Lemma counterReturnsAt_not_never (s : string) (start e : nat) :
  counterReturnsAt s start e -> ~ counterNeverReturns s start.
Proof. intros (R & Z0 & _) N. exact (N e R Z0). Qed.

(** What the loop returns tells which of the two cases holds. *)
Lemma findClosingBrace_none (s : string) (start : nat) :
  String.get start s = Some lbrace ->
  findClosingBrace (String.length s) s (Z.of_nat start) 0 = Ret (-1) ->
  counterNeverReturns s start.
Proof.
  intros Hc H. destruct (findClosingBrace_spec s start Hc) as [[_ N]|(e & E & _)].
  - exact N.
  - rewrite E in H. inversion H. lia.
Qed.

Lemma findClosingBrace_never (s : string) (start : nat) :
  String.get start s = Some lbrace -> counterNeverReturns s start ->
  findClosingBrace (String.length s) s (Z.of_nat start) 0 = Ret (-1).
Proof.
  intros Hc N. destruct (findClosingBrace_spec s start Hc) as [[E _]|(e & _ & R)].
  - exact E.
  - exfalso. exact (counterReturnsAt_not_never _ _ _ R N).
Qed.

Lemma findClosingBrace_returns (s : string) (start e : nat) :
  String.get start s = Some lbrace -> counterReturnsAt s start e ->
  findClosingBrace (String.length s) s (Z.of_nat start) 0 = Ret (Z.of_nat e).
Proof.
  intros Hc R. destruct (findClosingBrace_spec s start Hc) as [[_ N]|(e' & E & R')].
  - exfalso. exact (counterReturnsAt_not_never _ _ _ R N).
  - rewrite E. do 2 f_equal. exact (counterReturnsAt_unique _ _ _ _ R' R).
Qed.

(** *** Where the payload is *)

Lemma questionsMarker_nonempty : questionsMarker <> EmptyString.
Proof. discriminate. Qed.

Lemma substring_zero (s : string) : forall n, substring n 0 s = EmptyString.
Proof. induction s as [|c s IH]; intros [|n]; simpl; auto. Qed.

(** The bytes from [start] on, read at an offset. *)
Lemma get_tail (s : string) (start m : nat) :
  String.get m (substring start (String.length s - start) s)
  = String.get (m + start) s.
Proof.
  destruct (Nat.lt_ge_cases m (String.length s - start)) as [H|H].
  - apply substring_correct1. exact H.
  - rewrite substring_correct2 by exact H.
    symmetry. apply get_ge_None. lia.
Qed.

Lemma sliceFrom_in_range (s : string) (start : nat) :
  (start <= String.length s)%nat ->
  sliceFrom s (Z.of_nat start)
  = Ret (substring start (String.length s - start) s).
Proof. intros H. unfold sliceFrom, len. apply slice_in_range. lia. Qed.

Lemma closing_brace_in_tail (s : string) (start e : nat) :
  firstClosingBraceAt s start e ->
  stringsIndex (substring start (String.length s - start) s) "}"
  = Z.of_nat (e - start).
Proof.
  intros (He & Hc & Hfirst).
  apply stringsIndex_first; [discriminate|]. split.
  - apply occursAt_byte. rewrite get_tail.
    replace (e - start + start)%nat with e by lia. exact Hc.
  - intros m Hm Hocc. apply occursAt_byte in Hocc. rewrite get_tail in Hocc.
    apply (Hfirst (m + start)%nat); [lia|exact Hocc].
Qed.

Lemma no_closing_brace_in_tail (s : string) (start : nat) :
  noClosingBraceFrom s start ->
  stringsIndex (substring start (String.length s - start) s) "}" = -1.
Proof.
  intros Hno.
  destruct (Z.eq_dec
              (stringsIndex (substring start (String.length s - start) s) "}")
              (-1)) as [E|E]; [exact E|].
  destruct (stringsIndex_found _ _ E) as (n & _ & Hocc & _).
  apply occursAt_byte in Hocc. rewrite get_tail in Hocc.
  exfalso. apply (Hno (n + start)%nat); [lia|exact Hocc].
Qed.

(** There is a first closing brace at or after [start], or there is none. *)
Lemma closing_brace_cases (s : string) (start : nat) :
  (exists e, firstClosingBraceAt s start e) \/ noClosingBraceFrom s start.
Proof.
  destruct (Z.eq_dec
              (stringsIndex (substring start (String.length s - start) s) "}")
              (-1)) as [E|E].
  - right. intros e He Hc.
    apply (stringsIndex_missing _ "}" ltac:(discriminate) E (e - start)%nat).
    apply occursAt_byte. rewrite get_tail.
    replace (e - start + start)%nat with e by lia. exact Hc.
  - left. destruct (stringsIndex_found _ _ E) as (n & _ & Hocc & Hfirst).
    exists (n + start)%nat. split; [lia|]. split.
    + apply occursAt_byte in Hocc. rewrite get_tail in Hocc. exact Hocc.
    + intros e' He' Hc. apply (Hfirst (e' - start)%nat); [lia|].
      apply occursAt_byte. rewrite get_tail.
      replace (e' - start + start)%nat with e' by lia. exact Hc.
Qed.

(** The literal is missing, or it has a first occurrence. *)
Lemma marker_cases (s : string) :
  (forall n, ~ occursAt questionsMarker s n)
  \/ (exists start, firstOccurrence questionsMarker s start).
Proof.
  destruct (Z.eq_dec (stringsIndex s questionsMarker) (-1)) as [E|E].
  - left. exact (stringsIndex_missing _ _ questionsMarker_nonempty E).
  - right. destruct (stringsIndex_found _ _ E) as (n & _ & H). eauto.
Qed.

(** From the literal on, the counter comes back to zero at some first
    position, or it never does. *)
Lemma counter_cases (s : string) (start : nat) :
  occursAt questionsMarker s start ->
  (exists e, counterReturnsAt s start e) \/ counterNeverReturns s start.
Proof.
  intros Hocc.
  destruct (findClosingBrace_spec s start (occursAt_marker_brace _ _ Hocc))
    as [[_ N]|(e & _ & R)]; eauto.
Qed.

Lemma questionsJSON_no_marker (s : string) :
  (forall n, ~ occursAt questionsMarker s n) -> questionsJSON s = Ret None.
Proof.
  intros Hno. unfold questionsJSON.
  destruct (Z.eqb_spec (stringsIndex s questionsMarker) (-1)) as [E|E];
    [reflexivity|].
  destruct (stringsIndex_found _ _ E) as (n & _ & Hocc & _).
  exfalso. exact (Hno n Hocc).
Qed.

Lemma questionsJSON_counted (s : string) (start e : nat) :
  firstOccurrence questionsMarker s start -> counterReturnsAt s start e ->
  questionsJSON s = Ret (Some (fromTo s start e)).
Proof.
  intros Hfirst Hret. unfold questionsJSON.
  rewrite (stringsIndex_first _ _ _ questionsMarker_nonempty Hfirst).
  destruct (Z.eqb_spec (Z.of_nat start) (-1)); [lia|].
  rewrite (findClosingBrace_returns _ _ _
             (occursAt_marker_brace _ _ (proj1 Hfirst)) Hret).
  simpl run_bind. destruct (Z.eqb_spec (Z.of_nat e) (-1)); [lia|].
  destruct Hret as (Hr & _).
  replace (Z.of_nat e + 1) with (Z.of_nat (S e)) by lia.
  rewrite slice_in_range by lia. reflexivity.
Qed.

Lemma questionsJSON_fallback (s : string) (start e : nat) :
  firstOccurrence questionsMarker s start -> counterNeverReturns s start ->
  firstClosingBraceAt s start e ->
  questionsJSON s = Ret (Some (fromTo s start e)).
Proof.
  intros Hfirst Hnever Hbrace. unfold questionsJSON.
  pose proof (get_Some_lt _ _ _ (occursAt_marker_brace _ _ (proj1 Hfirst))) as Hb.
  rewrite (stringsIndex_first _ _ _ questionsMarker_nonempty Hfirst).
  destruct (Z.eqb_spec (Z.of_nat start) (-1)); [lia|].
  rewrite (findClosingBrace_never _ _
             (occursAt_marker_brace _ _ (proj1 Hfirst)) Hnever).
  simpl run_bind. rewrite sliceFrom_in_range by lia. simpl run_bind.
  rewrite (closing_brace_in_tail _ _ _ Hbrace).
  destruct Hbrace as (He & Hc & _). pose proof (get_Some_lt _ _ _ Hc).
  replace (Z.of_nat (e - start) + Z.of_nat start) with (Z.of_nat e) by lia.
  destruct (Z.eqb_spec (Z.of_nat e) (-1)); [lia|].
  replace (Z.of_nat e + 1) with (Z.of_nat (S e)) by lia.
  rewrite slice_in_range by lia. reflexivity.
Qed.

Lemma questionsJSON_no_brace (s : string) (start : nat) :
  firstOccurrence questionsMarker s start -> counterNeverReturns s start ->
  noClosingBraceFrom s start ->
  questionsJSON s = Ret (if (start =? 0)%nat then None else Some EmptyString).
Proof.
  intros Hfirst Hnever Hno. unfold questionsJSON.
  pose proof (get_Some_lt _ _ _ (occursAt_marker_brace _ _ (proj1 Hfirst))) as Hb.
  rewrite (stringsIndex_first _ _ _ questionsMarker_nonempty Hfirst).
  destruct (Z.eqb_spec (Z.of_nat start) (-1)); [lia|].
  rewrite (findClosingBrace_never _ _
             (occursAt_marker_brace _ _ (proj1 Hfirst)) Hnever).
  simpl run_bind. rewrite sliceFrom_in_range by lia. simpl run_bind.
  rewrite (no_closing_brace_in_tail _ _ Hno).
  destruct start as [|start]; [reflexivity|].
  destruct (Z.eqb_spec (-1 + Z.of_nat (S start)) (-1)); [lia|].
  replace (-1 + Z.of_nat (S start) + 1) with (Z.of_nat (S start)) by lia.
  rewrite slice_in_range by lia.
  rewrite Nat.sub_diag, substring_zero. reflexivity.
Qed.

(** A closing brace that brings the counter back to zero is a closing brace:
    when there is none after the literal, the counter never comes back. *)
Lemma no_brace_never_returns (s : string) (start : nat) :
  occursAt questionsMarker s start -> noClosingBraceFrom s start ->
  counterNeverReturns s start.
Proof.
  intros Hocc Hno.
  destruct (counter_cases s start Hocc) as [(e & R)|N]; [|exact N].
  exfalso. destruct R as (Hr & Hz & Hfirst).
  destruct (get_lt_Some s e ltac:(lia)) as [c Hc].
  pose proof (counterAt_step s start e c ltac:(lia) Hc) as Hstep.
  destruct (Nat.eq_dec e start) as [->|Hne].
  - rewrite (occursAt_marker_brace _ _ Hocc) in Hc. inversion Hc; subst c.
    rewrite Nat.sub_diag in Hstep. simpl in Hstep. rewrite Hstep in Hz.
    discriminate.
  - assert (Hprev : counterAt s start (e - 1) <> 0) by (apply Hfirst; lia).
    unfold counterAt in Hprev.
    replace (S (e - 1) - start)%nat with (e - start)%nat in Hprev by lia.
    unfold braceStep in Hstep.
    destruct (Ascii.eqb_spec c rbrace) as [->|Hnr].
    + exact (Hno e ltac:(lia) Hc).
    + assert (Hmono : forall k, (start <= k < e)%nat -> 1 <= counterAt s start k).
      { intros k. induction k as [|k IHk]; intros Hk.
        - assert (start = 0)%nat by lia. subst start.
          rewrite (counterAt_step s 0 0 lbrace ltac:(lia)
                     (occursAt_marker_brace _ _ Hocc)).
          simpl. unfold braceStep. simpl. lia.
        - destruct (Nat.eq_dec (S k) start) as [Hs|Hs].
          + rewrite Hs.
            rewrite (counterAt_step s start start lbrace ltac:(lia)
                       (occursAt_marker_brace _ _ Hocc)).
            rewrite Nat.sub_diag. simpl. unfold braceStep. simpl. lia.
          + destruct (get_lt_Some s (S k) ltac:(lia)) as [d Hd].
            rewrite (counterAt_step s start (S k) d ltac:(lia) Hd).
            replace (S k - start)%nat with (S k - start)%nat by lia.
            assert (Hk' : 1 <= counterAt s start k) by (apply IHk; lia).
            unfold counterAt in Hk'.
            unfold braceStep.
            destruct (Ascii.eqb_spec d lbrace); [lia|].
            destruct (Ascii.eqb_spec d rbrace) as [->|]; [|lia].
            exfalso. exact (Hno (S k) ltac:(lia) Hd). }
      assert (H1 : 1 <= counterAt s start (e - 1)) by (apply Hmono; lia).
      unfold counterAt in H1.
      replace (S (e - 1) - start)%nat with (e - start)%nat in H1 by lia.
      destruct (Ascii.eqb c lbrace); lia.
Qed.

Lemma firstClosingBraceAt_unique (s : string) (start e1 e2 : nat) :
  firstClosingBraceAt s start e1 -> firstClosingBraceAt s start e2 -> e1 = e2.
Proof.
  intros (R1 & C1 & F1) (R2 & C2 & F2).
  destruct (Nat.lt_trichotomy e1 e2) as [H|[H|H]]; [|exact H|].
  - exfalso. apply (F2 e1); [lia|exact C1].
  - exfalso. apply (F1 e2); [lia|exact C2].
Qed.

(** The payload that the code delimits is unique. *)
Lemma delimitedPayload_unique (s p1 p2 : string) :
  delimitedPayload s p1 -> delimitedPayload s p2 -> p1 = p2.
Proof.
  intros (s1 & e1 & F1 & D1 & ->) (s2 & e2 & F2 & D2 & ->).
  assert (s1 = s2) by exact (firstOccurrence_unique _ _ _ _ F1 F2). subst s2.
  destruct D1 as [R1|[N1 B1]], D2 as [R2|[N2 B2]].
  - f_equal. exact (counterReturnsAt_unique _ _ _ _ R1 R2).
  - exfalso. exact (counterReturnsAt_not_never _ _ _ R1 N2).
  - exfalso. exact (counterReturnsAt_not_never _ _ _ R2 N1).
  - f_equal. exact (firstClosingBraceAt_unique _ _ _ _ B1 B2).
Qed.

(** [questionsJSON] on every response: no panic, and the text it hands to the
    decoder is the delimited payload; when there is no payload it returns
    early, or (the literal not at the start of the response and no closing
    brace after it) it hands over the empty text. *)
Lemma questionsJSON_cases (s : string) :
  (exists payload, delimitedPayload s payload
                   /\ questionsJSON s = Ret (Some payload))
  \/ ((forall payload, ~ delimitedPayload s payload)
      /\ (questionsJSON s = Ret None \/ questionsJSON s = Ret (Some EmptyString))).
Proof.
  destruct (marker_cases s) as [Hno|(start & Hfirst)].
  - right. split.
    + intros p (st & e & (Hocc & _) & _). exact (Hno st Hocc).
    + left. exact (questionsJSON_no_marker s Hno).
  - destruct (counter_cases s start (proj1 Hfirst)) as [(e & R)|N].
    + left. exists (fromTo s start e). split.
      * exists start, e. auto.
      * exact (questionsJSON_counted s start e Hfirst R).
    + destruct (closing_brace_cases s start) as [(e & B)|Hnb].
      * left. exists (fromTo s start e). split.
        -- exists start, e. auto.
        -- exact (questionsJSON_fallback s start e Hfirst N B).
      * right. split.
        -- intros p (st & e & F & D & _).
           assert (st = start) by exact (firstOccurrence_unique _ _ _ _ F Hfirst).
           subst st. destruct D as [R|[_ (He & Hc & _)]].
           ++ exact (counterReturnsAt_not_never _ _ _ R N).
           ++ exact (Hnb e He Hc).
        -- rewrite (questionsJSON_no_brace s start Hfirst N Hnb).
           destruct (start =? 0)%nat; auto.
Qed.

(** *** Decoding the payload *)

Lemma decodeQuestions_cases (jsonStr : string) :
  (exists questions,
      jsonUnmarshalQuestions jsonStr = Some questions /\ questions <> []
      /\ decodeQuestions jsonStr
         = (Some (map (fun q => mkQuestionResponse q EmptyString)
                    (take 3 questions)), true))
  \/ ((jsonUnmarshalQuestions jsonStr = None
       \/ jsonUnmarshalQuestions jsonStr = Some [])
      /\ decodeQuestions jsonStr = (None, false)).
Proof.
  unfold decodeQuestions.
  destruct (jsonUnmarshalQuestions jsonStr) as [questions|]; [|right; auto].
  destruct questions as [|q rest]; [right; auto|].
  left. exists (q :: rest). split; [reflexivity|]. split; [discriminate|].
  destruct (Nat.ltb_spec 3 (length (q :: rest))) as [H|H].
  - reflexivity.
  - rewrite (take_ge (q :: rest) 3) by exact H. reflexivity.
Qed.

(** *** [extractPRDescription] on every response *)

Lemma eqb_empty_join (a b : string) :
  (if negb (a =? "")%string && negb (b =? "")%string
   then Ret (a +:+ nl +:+ nl +:+ b)
   else if negb (a =? "")%string then Ret a
        else if negb (b =? "")%string then Ret b else Ret EmptyString)
  = Ret (joinParagraphs a b).
Proof.
  unfold joinParagraphs.
  destruct (String.eqb_spec a ""), (String.eqb_spec b ""); subst; reflexivity.
Qed.

Lemma extractPRDescription_cases (s : string) :
  (onlyQuestions s = true /\ extractPRDescription s = Ret EmptyString)
  \/ (onlyQuestions s = false
      /\ ((forall n, ~ occursAt questionsMarker s n)
          \/ (exists start, firstOccurrence questionsMarker s start
                            /\ counterNeverReturns s start))
      /\ extractPRDescription s = Ret s)
  \/ (onlyQuestions s = false
      /\ exists start e,
           firstOccurrence questionsMarker s start
           /\ counterReturnsAt s start e
           /\ extractPRDescription s
              = Ret (joinParagraphs
                       (stringsTrimSpace (substring 0 start s))
                       (stringsTrimSpace
                          (substring (S e) (String.length s - S e) s)))).
Proof.
  unfold extractPRDescription. fold (onlyQuestions s).
  destruct (onlyQuestions s); [left; auto|right].
  destruct (marker_cases s) as [Hno|(start & Hfirst)].
  - left. split; [reflexivity|]. split; [left; exact Hno|].
    destruct (Z.eqb_spec (stringsIndex s questionsMarker) (-1)) as [E|E];
      [reflexivity|].
    destruct (stringsIndex_found _ _ E) as (n & _ & Hocc & _).
    exfalso. exact (Hno n Hocc).
  - rewrite (stringsIndex_first _ _ _ questionsMarker_nonempty Hfirst).
    destruct (Z.eqb_spec (Z.of_nat start) (-1)); [lia|].
    pose proof (occursAt_marker_brace _ _ (proj1 Hfirst)) as Hbrace.
    destruct (counter_cases s start (proj1 Hfirst)) as [(e & R)|N].
    + right. split; [reflexivity|]. exists start, e.
      split; [exact Hfirst|]. split; [exact R|].
      rewrite (findClosingBrace_returns _ _ _ Hbrace R). simpl run_bind.
      destruct (Z.eqb_spec (Z.of_nat e) (-1)); [lia|].
      destruct R as (Hr & _).
      unfold sliceTo, sliceFrom, len.
      change 0 with (Z.of_nat 0).
      rewrite slice_in_range by lia. simpl run_bind.
      replace (Z.of_nat e + 1) with (Z.of_nat (S e)) by lia.
      rewrite slice_in_range by lia. simpl run_bind.
      rewrite Nat.sub_0_r. apply eqb_empty_join.
    + left. split; [reflexivity|]. split; [right; eauto|].
      rewrite (findClosingBrace_never _ _ Hbrace N). reflexivity.
Qed.

(** *** The claims about [extractQuestions] and [extractPRDescription] *)

(** C1 (amended): for every response, [extractQuestions] delimits the
    questions payload from the first occurrence of the literal (an opening
    brace, [questions] in double quotes, a colon) to the first position where
    the counter of braces, incremented on each opening brace and decremented
    on each closing brace, is back to zero, or, when the counter never comes
    back to zero, to the first closing brace after the literal
    ([delimitedPayload]).  It never panics; it returns a non-nil, non-empty
    slice and [true], or [nil] and [false]; and it returns [true] if and only
    if there is such a payload, the decoder accepts it and the [Questions] it
    decodes are not empty.  The decoder is any function that, as
    [encoding/json] does, refuses the empty text. *)
Theorem extractQuestions_reports_iff (response : string) :
  jsonUnmarshalQuestions EmptyString = None ->
  exists result,
    extractQuestions response = Ret result
    /\ (result = (None, false)
        \/ exists qs, qs <> [] /\ result = (Some qs, true))
    /\ (snd result = true <->
        exists payload questions,
          delimitedPayload response payload
          /\ jsonUnmarshalQuestions payload = Some questions
          /\ questions <> []).
Proof.
  intros Hempty. unfold extractQuestions.
  destruct (questionsJSON_cases response) as [(p & Hp & ->)|[Hno [->| ->]]];
    simpl run_bind.
  - destruct (decodeQuestions_cases p) as [(qs & Hq & Hne & ->)|[Hbad ->]].
    + eexists. split; [reflexivity|]. split.
      * right. eexists. split; [|reflexivity].
        destruct qs; [congruence|discriminate].
      * simpl. split; [|reflexivity]. intros _. exists p, qs. auto.
    + eexists. split; [reflexivity|]. split; [left; reflexivity|].
      simpl. split; [discriminate|].
      intros (p' & qs & Hp' & Hq & Hne).
      rewrite (delimitedPayload_unique _ _ _ Hp' Hp) in Hq.
      destruct Hbad as [Hb|Hb]; rewrite Hb in Hq; congruence.
  - eexists. split; [reflexivity|]. split; [left; reflexivity|].
    simpl. split; [discriminate|].
    intros (p' & qs & Hp' & _). exfalso. exact (Hno p' Hp').
  - unfold decodeQuestions. rewrite Hempty.
    eexists. split; [reflexivity|]. split; [left; reflexivity|].
    simpl. split; [discriminate|].
    intros (p' & qs & Hp' & _). exfalso. exact (Hno p' Hp').
Qed.

(** C6 (amended): [extractQuestions] and [extractPRDescription] are total on
    every response: neither panics, so every index of the two brace-counting
    scans and every bound of a substring operation, the bounds of the
    fallback slice included, is within the response.  When the scan finds no
    matching closing brace, the fallback takes the payload up to the first
    closing brace after the literal; and when no closing brace follows the
    literal, [extractQuestions] returns [nil] and [false] (for every decoder
    that refuses the empty text). *)
Theorem extract_functions_total (response : string) :
  (exists result, extractQuestions response = Ret result)
  /\ (exists description, extractPRDescription response = Ret description)
  /\ (forall start e,
        firstOccurrence questionsMarker response start ->
        counterNeverReturns response start ->
        firstClosingBraceAt response start e ->
        (e < String.length response)%nat
        /\ questionsJSON response = Ret (Some (fromTo response start e)))
  /\ (jsonUnmarshalQuestions EmptyString = None ->
      forall start,
        firstOccurrence questionsMarker response start ->
        noClosingBraceFrom response start ->
        extractQuestions response = Ret (None, false)).
Proof.
  split; [|split; [|split]].
  - unfold extractQuestions.
    destruct (questionsJSON_cases response) as [(p & _ & ->)|[_ [->| ->]]];
      simpl; eauto.
  - destruct (extractPRDescription_cases response)
      as [[_ ->]|[(_ & _ & ->)|(_ & st & e & _ & _ & ->)]]; eauto.
  - intros start e Hfirst Hnever Hbrace. split.
    + destruct Hbrace as (_ & Hc & _). exact (get_Some_lt _ _ _ Hc).
    + exact (questionsJSON_fallback _ _ _ Hfirst Hnever Hbrace).
  - intros Hempty start Hfirst Hno. unfold extractQuestions.
    rewrite (questionsJSON_no_brace _ _ Hfirst
               (no_brace_never_returns _ _ (proj1 Hfirst) Hno) Hno).
    destruct (start =? 0)%nat; simpl; [reflexivity|].
    unfold decodeQuestions. rewrite Hempty. reflexivity.
Qed.


(** *** Texts joined and cut *)

Lemma append_cons (c : ascii) (s t : string) :
  String c s +:+ t = String c (s +:+ t).
Proof. reflexivity. Qed.

Lemma append_empty_r (s : string) : s +:+ EmptyString = s.
Proof.
  induction s as [|c s IH]; [reflexivity|].
  rewrite append_cons. f_equal. exact IH.
Qed.

Lemma append_assoc (a b c : string) : (a +:+ b) +:+ c = a +:+ (b +:+ c).
Proof.
  induction a as [|x a IH]; [reflexivity|].
  rewrite !append_cons. f_equal. exact IH.
Qed.

Lemma append_length (a b : string) :
  String.length (a +:+ b) = (String.length a + String.length b)%nat.
Proof.
  induction a as [|c a IH]; [reflexivity|].
  rewrite append_cons. simpl. f_equal. exact IH.
Qed.

Lemma substring_split (s : string) :
  forall n m1 m2,
    substring n (m1 + m2) s = substring n m1 s +:+ substring (n + m1) m2 s.
Proof.
  induction s as [|c s IH]; intros n m1 m2.
  - destruct n, m1, m2; reflexivity.
  - destruct n as [|n].
    + destruct m1 as [|m1]; [reflexivity|].
      simpl substring. rewrite append_cons. f_equal. exact (IH 0%nat m1 m2).
    + simpl substring. exact (IH n m1 m2).
Qed.

Lemma substring_all (s : string) : substring 0 (String.length s) s = s.
Proof. induction s as [|c s IH]; [reflexivity|]. simpl. f_equal. exact IH. Qed.

Lemma length_zero_empty (s : string) : String.length s = 0%nat -> s = EmptyString.
Proof. destruct s; [reflexivity|discriminate]. Qed.

(** *** Reading a line *)

Lemma cutAt_found (delim : ascii) (buf : string) :
  forall line rest t,
    cutAt delim buf = Some (line, rest) ->
    readUntil delim (buf +:+ t) = (line, rest +:+ t).
Proof.
  induction buf as [|c buf IH]; intros line rest t H; simpl in H;
    [discriminate|].
  rewrite append_cons. simpl readUntil. destruct (Ascii.eqb c delim).
  - inversion H; subst. reflexivity.
  - destruct (cutAt delim buf) as [[l r]|]; [|discriminate].
    inversion H; subst. rewrite (IH l rest t eq_refl). reflexivity.
Qed.

Lemma cutAt_missing (delim : ascii) (buf t : string) :
  cutAt delim buf = None ->
  readUntil delim (buf +:+ t)
  = (buf +:+ fst (readUntil delim t), snd (readUntil delim t)).
Proof.
  induction buf as [|c buf IH]; intros H; simpl in H.
  - change (EmptyString +:+ ?x) with x. destruct (readUntil delim t);
      reflexivity.
  - rewrite !append_cons. simpl readUntil.
    destruct (Ascii.eqb c delim); [discriminate|].
    destruct (cutAt delim buf) as [[l r]|]; [discriminate|].
    rewrite (IH eq_refl). reflexivity.
Qed.

Lemma readStringLoop_S (fuel : nat) (delim : ascii) (full buf input : string) :
  readStringLoop (S fuel) delim full buf input
  = match cutAt delim buf with
    | Some (line, rest) => Ret (full +:+ line, rest, input)
    | None =>
        if (defaultBufSize <=? String.length buf)%nat
        then readStringLoop fuel delim (full +:+ buf) "" input
        else
          let (chunk, input') :=
            osStdinRead (defaultBufSize - String.length buf) input in
          if (chunk =? "")%string then Ret (full +:+ buf, "", input')
          else readStringLoop fuel delim full (buf +:+ chunk) input'
    end.
Proof. reflexivity. Qed.

(** A read delivers the first bytes of the input and leaves the others; it
    delivers nothing only at the end of the input. *)
Lemma osStdinRead_split (room : nat) (input : string) :
  fst (osStdinRead room input) +:+ snd (osStdinRead room input) = input.
Proof.
  unfold osStdinRead. cbv zeta. simpl fst. simpl snd.
  assert (Hn : (delivered room input <= String.length input)%nat)
    by (unfold delivered; lia).
  generalize dependent (delivered room input). intros n Hn.
  transitivity (substring 0 (n + (String.length input - n)) input).
  - rewrite substring_split. reflexivity.
  - replace (n + (String.length input - n))%nat with (String.length input)
      by lia.
    apply substring_all.
Qed.

Lemma osStdinRead_length (room : nat) (input : string) :
  String.length (fst (osStdinRead room input)) = delivered room input
  /\ String.length (snd (osStdinRead room input))
     = (String.length input - delivered room input)%nat.
Proof.
  unfold osStdinRead. cbv zeta. simpl fst. simpl snd.
  rewrite !substring_length. unfold delivered. lia.
Qed.

(** [ReadString] delivers the first line of what the reader holds followed by
    the input, and the reader and the input hold what follows that line. *)
Lemma readStringLoop_spec :
  forall (fuel : nat) (delim : ascii) (full buf input : string),
    (2 * String.length input
     + (if (defaultBufSize <=? String.length buf)%nat then 1 else 0) < fuel)%nat ->
    exists buf' input',
      readStringLoop fuel delim full buf input
      = Ret (full +:+ fst (readUntil delim (buf +:+ input)), buf', input')
      /\ buf' +:+ input' = snd (readUntil delim (buf +:+ input)).
Proof.
  induction fuel as [|fuel IH]; intros delim full buf input Hfuel; [lia|].
  rewrite readStringLoop_S.
  destruct (cutAt delim buf) as [[line rest]|] eqn:Hcut.
  - exists rest, input. rewrite (cutAt_found _ _ _ _ input Hcut). auto.
  - rewrite (cutAt_missing _ _ input Hcut). simpl fst. simpl snd.
    destruct (Nat.leb_spec defaultBufSize (String.length buf)) as [Hfull|Hroom].
    + destruct (IH delim (full +:+ buf) EmptyString input) as (b & r & E & Hs).
      { change (String.length "") with 0%nat.
        destruct (Nat.leb_spec defaultBufSize 0); [|lia].
        unfold defaultBufSize in *. lia. }
      exists b, r. rewrite E. change (EmptyString +:+ input) with input in *.
      rewrite append_assoc. auto.
    + pose proof (osStdinRead_split (defaultBufSize - String.length buf) input)
        as Hsplit.
      pose proof (osStdinRead_length (defaultBufSize - String.length buf) input)
        as [Hchunk Hleft].
      destruct (osStdinRead (defaultBufSize - String.length buf) input)
        as [chunk input'].
      simpl fst in *. simpl snd in *.
      destruct (String.eqb_spec chunk "") as [->|Hne].
      * change (EmptyString +:+ input') with input' in Hsplit. subst input'.
        assert (Hend : input = EmptyString).
        { apply length_zero_empty. simpl in Hchunk. unfold delivered in Hchunk.
          lia. }
        subst input. exists EmptyString, EmptyString.
        simpl readUntil. simpl fst. simpl snd.
        rewrite append_empty_r. auto.
      * assert (Hpos : (1 <= String.length chunk)%nat).
        { destruct chunk; [congruence|simpl; lia]. }
        destruct (IH delim full (buf +:+ chunk) input') as (b & r & E & Hs).
        { unfold delivered in Hchunk, Hleft.
          destruct (Nat.leb_spec defaultBufSize (String.length buf)); [lia|].
          destruct (defaultBufSize <=? String.length (buf +:+ chunk))%nat; lia. }
        exists b, r. rewrite E.
        rewrite append_assoc, Hsplit in E, Hs |- *.
        rewrite (cutAt_missing _ _ input Hcut) in Hs |- *. auto.
Qed.

Lemma readString_line (reader : string) (w : World) (line rest : string) :
  readUntil newline (reader +:+ stdin w) = (line, rest) ->
  exists reader' input',
    readString newline reader w
    = Ret ((line, reader'), mkWorld (network w) (sent w) input')
    /\ reader' +:+ input' = rest.
Proof.
  intros Hline. unfold readString.
  destruct (readStringLoop_spec (2 * String.length (stdin w) + 2) newline
              EmptyString reader (stdin w)) as (b & r & E & Hs).
  { destruct (defaultBufSize <=? String.length reader)%nat; lia. }
  rewrite E, Hline in *. exists b, r. auto.
Qed.

(** [ReadString] reads standard input and nothing else of the world. *)
Lemma readString_stdin (reader : string) (w w0 : World) :
  stdin w0 = stdin w ->
  readString newline reader w0
  = match readString newline reader w with
    | Ret (a, w') => Ret (a, mkWorld (network w0) (sent w0) (stdin w'))
    | Panic => Panic
    | OutOfFuel => OutOfFuel
    end.
Proof.
  intros Hin. unfold readString. rewrite Hin.
  destruct (readStringLoop (2 * String.length (stdin w) + 2) newline ""
              reader (stdin w)) as [[[line reader'] input']| |]; reflexivity.
Qed.

(** *** The question loop *)

Lemma map_Question_alter (answer : string) (i : nat)
  (questions : list QuestionResponse) :
  map Question (alter (setAnswer answer) i questions) = map Question questions.
Proof.
  revert i. induction questions as [|q rest IH]; intros [|i]; simpl;
    try reflexivity.
  f_equal. apply IH.
Qed.

Lemma storeAnswer_in_range (questions : list QuestionResponse) (i : nat)
  (answer : string) :
  (i < length questions)%nat ->
  storeAnswer questions (Z.of_nat i) answer
  = Ret (alter (setAnswer answer) i questions).
Proof.
  intros H. unfold storeAnswer. rewrite Nat2Z.id.
  destruct (Z.leb_spec 0 (Z.of_nat i)); [|lia].
  destruct (Z.ltb_spec (Z.of_nat i) (Z.of_nat (length questions))); [|lia].
  reflexivity.
Qed.

Lemma loadAnswer_in_range (questions : list QuestionResponse) (i : nat)
  (q : QuestionResponse) :
  questions !! i = Some q -> loadAnswer questions (Z.of_nat i) = Ret (Answer q).
Proof.
  intros H. pose proof (lookup_lt_Some _ _ _ H). unfold loadAnswer.
  rewrite Nat2Z.id, H.
  destruct (Z.leb_spec 0 (Z.of_nat i)); [|lia].
  destruct (Z.ltb_spec (Z.of_nat i) (Z.of_nat (length questions))); [|lia].
  reflexivity.
Qed.

(** The inner loop empties the answers from [j] on and nothing else. *)
Lemma clearAnswers_spec :
  forall (fuel : nat) (questions : list QuestionResponse) (j : nat),
    (length questions - j <= fuel)%nat ->
    exists questions',
      clearAnswers fuel questions (Z.of_nat j) = Ret questions'
      /\ length questions' = length questions
      /\ map Question questions' = map Question questions
      /\ (forall k, (k < j)%nat -> questions' !! k = questions !! k)
      /\ (forall k q, (j <= k)%nat -> questions' !! k = Some q ->
                      Answer q = EmptyString).
Proof.
  induction fuel as [|fuel IH]; intros questions j Hfuel; simpl.
  - destruct (Z.ltb_spec (Z.of_nat j) (Z.of_nat (length questions))); [lia|].
    exists questions. repeat split; auto.
    intros k q Hk Hq. apply lookup_lt_Some in Hq. lia.
  - destruct (Z.ltb_spec (Z.of_nat j) (Z.of_nat (length questions))) as [Hlt|Hge].
    + rewrite storeAnswer_in_range by lia. simpl run_bind.
      replace (Z.of_nat j + 1) with (Z.of_nat (S j)) by lia.
      destruct (IH (alter (setAnswer EmptyString) j questions) (S j))
        as (qs' & E & Hlen & Hq & Hlow & Hhigh).
      { rewrite length_alter. lia. }
      exists qs'. split; [exact E|]. rewrite length_alter in Hlen.
      rewrite map_Question_alter in Hq.
      split; [exact Hlen|]. split; [exact Hq|]. split.
      * intros k Hk. rewrite Hlow by lia. apply list_lookup_alter_ne. lia.
      * intros k q Hk Hkq. destruct (Nat.eq_dec k j) as [->|Hne].
        -- rewrite Hlow in Hkq by lia. rewrite list_lookup_alter_eq in Hkq.
           destruct (questions !! j); inversion Hkq. reflexivity.
        -- apply (Hhigh k q); [lia|exact Hkq].
    + exists questions. repeat split; auto.
      intros k q Hk Hq. apply lookup_lt_Some in Hq. lia.
Qed.

(** The two words that skip the remaining questions. *)
Lemma skipsAll_in_range (questions : list QuestionResponse) (i : nat)
  (q : QuestionResponse) :
  questions !! i = Some q ->
  skipsAll questions (Z.of_nat i)
  = Ret ((stringsToLower (Answer q) =? "skip all")%string
         || (stringsToLower (Answer q) =? "skipall")%string).
Proof.
  intros H. unfold skipsAll. rewrite (loadAnswer_in_range _ _ _ H).
  simpl run_bind. destruct (stringsToLower (Answer q) =? "skip all")%string;
    reflexivity.
Qed.

Lemma askLoop_unfold (n : nat) (i : Z) (questions : list QuestionResponse)
  (reader : string) (w : World) :
  askLoop (S n) i questions reader w
  = match readString newline reader w with
    | Ret ((line, reader1), w1) =>
        match storeAnswer questions i (stringsTrimSpace line) with
        | Ret questions1 =>
            match skipsAll questions1 i with
            | Ret true =>
                match clearAnswers (length questions1) questions1 (i + 1) with
                | Ret questions2 => Ret ((questions2, reader1), w1)
                | Panic => Panic
                | OutOfFuel => OutOfFuel
                end
            | Ret false => askLoop n (i + 1) questions1 reader1 w1
            | Panic => Panic
            | OutOfFuel => OutOfFuel
            end
        | Panic => Panic
        | OutOfFuel => OutOfFuel
        end
    | Panic => Panic
    | OutOfFuel => OutOfFuel
    end.
Proof.
  simpl. unfold io_bind, lift, io_ret.
  destruct (readString newline reader w) as [[[line reader1] w1]| |];
    try reflexivity.
  destruct (storeAnswer questions i (stringsTrimSpace line)) as [qs1| |];
    try reflexivity.
  destruct (skipsAll qs1 i) as [[|]| |]; try reflexivity.
  destruct (clearAnswers (length qs1) qs1 (i + 1)); reflexivity.
Qed.

Lemma askLoop_step (n : nat) (i : nat) (questions : list QuestionResponse)
  (q : QuestionResponse) (reader : string) (w : World)
  (line reader1 : string) (w1 : World) :
  questions !! i = Some q ->
  readString newline reader w = Ret ((line, reader1), w1) ->
  askLoop (S n) (Z.of_nat i) questions reader w
  = let answer := stringsTrimSpace line in
    let questions1 := alter (setAnswer answer) i questions in
    if (stringsToLower answer =? "skip all")%string
       || (stringsToLower answer =? "skipall")%string
    then
      match clearAnswers (length questions1) questions1 (Z.of_nat (S i)) with
      | Ret questions2 => Ret ((questions2, reader1), w1)
      | Panic => Panic
      | OutOfFuel => OutOfFuel
      end
    else askLoop n (Z.of_nat (S i)) questions1 reader1 w1.
Proof.
  intros Hq Hread. pose proof (lookup_lt_Some _ _ _ Hq) as Hlt.
  rewrite askLoop_unfold, Hread.
  rewrite storeAnswer_in_range by exact Hlt.
  rewrite (skipsAll_in_range _ i (setAnswer (stringsTrimSpace line) q)).
  2:{ rewrite list_lookup_alter_eq, Hq. reflexivity. }
  change (Answer (setAnswer (stringsTrimSpace line) q))
    with (stringsTrimSpace line).
  replace (Z.of_nat i + 1) with (Z.of_nat (S i)) by lia. cbv zeta.
  destruct ((stringsToLower (stringsTrimSpace line) =? "skip all")%string
            || (stringsToLower (stringsTrimSpace line) =? "skipall")%string);
    reflexivity.
Qed.

(** The loop keeps the questions, their number, the network and the requests
    sent. *)
Lemma askLoop_frame :
  forall (n i : nat) (questions : list QuestionResponse) (reader : string)
         (w : World),
    (i + n = length questions)%nat ->
    exists questions' reader' w',
      askLoop n (Z.of_nat i) questions reader w = Ret ((questions', reader'), w')
      /\ length questions' = length questions
      /\ map Question questions' = map Question questions
      /\ network w' = network w /\ sent w' = sent w.
Proof.
  induction n as [|n IH]; intros i questions reader w Hlen.
  - exists questions, reader, w. repeat split; reflexivity.
  - destruct (lookup_lt_is_Some_2 questions i ltac:(lia)) as [q Hq].
    destruct (readUntil newline (reader +:+ stdin w)) as [line rest] eqn:Hline.
    destruct (readString_line _ _ _ _ Hline) as (reader1 & input1 & Hread & _).
    rewrite (askLoop_step _ _ _ _ _ _ _ _ _ Hq Hread). cbv zeta.
    destruct ((stringsToLower (stringsTrimSpace line) =? "skip all")%string
              || (stringsToLower (stringsTrimSpace line) =? "skipall")%string).
    + destruct (clearAnswers_spec
                  (length (alter (setAnswer (stringsTrimSpace line)) i questions))
                  (alter (setAnswer (stringsTrimSpace line)) i questions) (S i))
        as (qs' & E & Hl & Hq' & _); [lia|].
      rewrite E. eexists _, _, _. split; [reflexivity|].
      rewrite Hl, Hq', length_alter, map_Question_alter. auto.
    + destruct (IH (S i) (alter (setAnswer (stringsTrimSpace line)) i questions)
                  reader1 (mkWorld (network w) (sent w) input1))
        as (qs' & r' & w' & E & Hl & Hq' & Hn & Hs).
      { rewrite length_alter. lia. }
      exists qs', r', w'. split; [exact E|].
      rewrite Hl, Hq', length_alter, map_Question_alter. auto.
Qed.

(** C9: [askUserQuestions] keeps the questions themselves: it returns as many
    entries as it was given, with the same [Question] at every index; only
    [Answer] fields change (and the function always returns, leaving the
    network and the requests sent as they were). *)
Theorem askUserQuestions_preserves_questions
  (questions : list QuestionResponse) (w : World) :
  exists questions' w',
    askUserQuestions questions w = Ret (questions', w')
    /\ length questions' = length questions
    /\ (forall i, Question <$> questions' !! i = Question <$> questions !! i)
    /\ network w' = network w /\ sent w' = sent w.
Proof.
  destruct (askLoop_frame (length questions) 0 questions EmptyString w eq_refl)
    as (qs' & r' & w' & E & Hl & Hq & Hn & Hs).
  exists qs', w'. split.
  { unfold askUserQuestions, io_bind. cbv zeta.
    change (Z.of_nat 0) with 0 in E. rewrite E. reflexivity. }
  split; [exact Hl|]. split; [|auto].
  intros i. rewrite <- !list_lookup_fmap.
  change (fmap Question qs') with (map Question qs').
  change (fmap Question questions) with (map Question questions).
  rewrite Hq. reflexivity.
Qed.

Lemma anyAnswered_lookup (questions : list QuestionResponse) (k : nat)
  (q : QuestionResponse) :
  questions !! k = Some q -> Answer q <> EmptyString ->
  anyAnswered questions = true.
Proof.
  revert k. induction questions as [|q0 rest IH]; intros k Hk Hne;
    [discriminate|].
  simpl. destruct (String.eqb_spec (Answer q0) "") as [E|E]; [|reflexivity].
  destruct k as [|k]; simpl in Hk.
  - inversion Hk; subst. contradiction.
  - exact (IH k Hk Hne).
Qed.

Lemma readLines_S (n : nat) (input : string) :
  readLines (S n) input
  = let (line, rest) := readUntil newline input in
    let (lines, rest') := readLines n rest in
    (line :: lines, rest').
Proof. reflexivity. Qed.

(** The loop when the answer number [m] (from the question at index [i] on) is
    the first that is one of the two skip words: the reader and the input
    hold together what follows the [m + 1] lines delivered. *)
Lemma askLoop_skip :
  forall (m n i : nat) (questions : list QuestionResponse) (reader : string)
         (w : World) (lines : list string) (rest : string),
    (i + n = length questions)%nat -> (m < n)%nat ->
    readLines (S m) (reader +:+ stdin w) = (lines, rest) ->
    (forall j a, (j < m)%nat -> lines !! j = Some a ->
                 skipWord (stringsTrimSpace a) = false) ->
    (forall a, lines !! m = Some a -> skipWord (stringsTrimSpace a) = true) ->
    exists questions' reader' w',
      askLoop n (Z.of_nat i) questions reader w = Ret ((questions', reader'), w')
      /\ reader' +:+ stdin w' = rest
      /\ (forall j a, (j <= m)%nat -> lines !! j = Some a ->
                      Answer <$> questions' !! (i + j)%nat
                      = Some (stringsTrimSpace a))
      /\ (forall k q, (i + m < k)%nat -> questions' !! k = Some q ->
                      Answer q = EmptyString)
      /\ (forall k, (k < i)%nat -> questions' !! k = questions !! k).
Proof.
  induction m as [|m IH]; intros n i questions reader w lines rest Hlen Hm Hread
    Hbefore Hskip;
    (destruct n as [|n]; [lia|]);
    destruct (lookup_lt_is_Some_2 questions i ltac:(lia)) as [q Hq];
    rewrite readLines_S in Hread;
    destruct (readUntil newline (reader +:+ stdin w)) as [line rest1] eqn:Hline;
    destruct (readString_line _ _ _ _ Hline)
      as (reader1 & input1 & Hrs & Hsplit);
    rewrite (askLoop_step _ _ _ _ _ _ _ _ _ Hq Hrs); cbv zeta;
    fold (skipWord (stringsTrimSpace line)).
  - simpl in Hread. inversion Hread; subst lines rest. clear Hread.
    rewrite (Hskip line eq_refl).
    destruct (clearAnswers_spec
                (length (alter (setAnswer (stringsTrimSpace line)) i questions))
                (alter (setAnswer (stringsTrimSpace line)) i questions) (S i))
      as (qs' & E & Hl & _ & Hlow & Hhigh); [lia|].
    rewrite E. eexists _, _, _. split; [reflexivity|].
    split; [exact Hsplit|]. split; [|split].
    + intros j a Hj Ha. assert (j = 0)%nat by lia. subst j.
      simpl in Ha. inversion Ha; subst a.
      rewrite Nat.add_0_r, Hlow by lia.
      rewrite list_lookup_alter_eq, Hq. reflexivity.
    + intros k q' Hk Hkq. apply (Hhigh k q'); [lia|exact Hkq].
    + intros k Hk. rewrite Hlow by lia. apply list_lookup_alter_ne. lia.
  - destruct (readLines (S m) rest1) as [lines' rest'] eqn:Hread'.
    inversion Hread; subst lines rest. clear Hread.
    rewrite (Hbefore 0%nat line ltac:(lia) eq_refl).
    destruct (IH n (S i) (alter (setAnswer (stringsTrimSpace line)) i questions)
                reader1 (mkWorld (network w) (sent w) input1) lines' rest')
      as (qs' & r' & w' & E & Hrest & Hans & Hhigh & Hlow).
    { rewrite length_alter. lia. }
    { lia. }
    { simpl stdin. rewrite Hsplit. exact Hread'. }
    { intros j a Hj Ha. apply (Hbefore (S j) a); [lia|exact Ha]. }
    { intros a Ha. apply Hskip. exact Ha. }
    exists qs', r', w'. split; [exact E|]. split; [exact Hrest|].
    split; [|split].
    + intros j a Hj Ha. destruct j as [|j].
      * simpl in Ha. inversion Ha; subst a.
        rewrite Nat.add_0_r, Hlow by lia.
        rewrite list_lookup_alter_eq, Hq. reflexivity.
      * replace (i + S j)%nat with (S i + j)%nat by lia.
        apply Hans; [lia|exact Ha].
    + intros k q' Hk Hkq. apply (Hhigh k q'); [lia|exact Hkq].
    + intros k Hk. rewrite Hlow by lia. apply list_lookup_alter_ne. lia.
Qed.

Lemma readLines_length :
  forall (n : nat) (input : string) (lines : list string) (rest : string),
    readLines n input = (lines, rest) -> length lines = n.
Proof.
  induction n as [|n IH]; intros input lines rest H; simpl in H.
  - inversion H. reflexivity.
  - destruct (readUntil newline input) as [line r].
    destruct (readLines n r) as [ls r'] eqn:E. inversion H; subst.
    simpl. f_equal. exact (IH _ _ _ E).
Qed.

(** C10: in [askUserQuestions], when the trimmed answer to question [i]
    lowercases to [skip all] or [skipall] (the answers before it do not),
    every question after index [i] gets an empty [Answer] and no further
    question is asked: the loop of lines 401-417 is left once [i + 1] lines
    have been delivered, its reader and standard input holding together the
    input [rest] that follows these lines (what the reader holds is dropped
    with it when the function returns).  Question [i] keeps the trimmed text
    of its answer, which is not empty, so that the any-answered check of
    [GeneratePRMessage] holds.  [lines] are the first [i + 1] lines of the
    input; [strings.ToLower] is any function that maps the empty text to
    itself. *)
Theorem skip_all_stops_the_questions
  (questions : list QuestionResponse) (w : World) (i : nat)
  (lines : list string) (rest : string) :
  stringsToLower EmptyString = EmptyString ->
  (i < length questions)%nat ->
  readLines (S i) (stdin w) = (lines, rest) ->
  (forall j a, (j < i)%nat -> lines !! j = Some a ->
               skipWord (stringsTrimSpace a) = false) ->
  (forall a, lines !! i = Some a -> skipWord (stringsTrimSpace a) = true) ->
  exists questions' w',
    askUserQuestions questions w = Ret (questions', w')
    /\ (exists reader',
          askLoop (length questions) 0 questions EmptyString w
          = Ret ((questions', reader'), w')
          /\ reader' +:+ stdin w' = rest)
    /\ (forall j a, (j <= i)%nat -> lines !! j = Some a ->
                    Answer <$> questions' !! j = Some (stringsTrimSpace a))
    /\ (forall k q, (i < k)%nat -> questions' !! k = Some q ->
                    Answer q = EmptyString)
    /\ anyAnswered questions' = true.
Proof.
  intros Hlower Hi Hread Hbefore Hskip.
  destruct (askLoop_skip i (length questions) 0 questions EmptyString w lines
              rest eq_refl Hi Hread Hbefore Hskip)
    as (qs' & r' & w' & E & Hrest & Hans & Hhigh & _).
  change (Z.of_nat 0) with 0 in E.
  exists qs', w'. split.
  { unfold askUserQuestions, io_bind. cbv zeta. rewrite E. reflexivity. }
  split; [exists r'; split; [exact E|exact Hrest]|].
  split; [exact Hans|]. split; [exact Hhigh|].
  pose proof (readLines_length _ _ _ _ Hread) as Hlen.
  destruct (lookup_lt_is_Some_2 lines i ltac:(lia)) as [a Ha].
  pose proof (Hans i a ltac:(lia) Ha) as Hi'. simpl in Hi'.
  destruct (qs' !! i) as [q|] eqn:Hq; [|discriminate].
  inversion Hi' as [Hqa].
  apply (anyAnswered_lookup qs' i q Hq).
  rewrite Hqa. intros Hempty.
  pose proof (Hskip a Ha) as Hs. rewrite Hempty in Hs.
  unfold skipWord in Hs. rewrite Hlower in Hs. discriminate.
Qed.

(** *** Formatting *)


Lemma fmtSprintf_last (pre a : string) (v : ascii) :
  noVerb pre = true -> Ascii.eqb v "s" || Ascii.eqb v "v" = true ->
  fmtSprintf (pre +:+ String "%" (String v EmptyString)) [a] = pre +:+ a.
Proof.
  intros Hpre Hv. induction pre as [|c pre IH].
  - change (EmptyString +:+ String "%" (String v EmptyString))
      with (String "%" (String v EmptyString)).
    simpl. destruct (Ascii.eqb_spec v "%") as [->|_]; [discriminate|].
    rewrite Hv. apply append_empty_r.
  - simpl in Hpre. apply andb_prop in Hpre. destruct Hpre as [Hc Hpre].
    rewrite !append_cons. simpl. destruct (Ascii.eqb c "%"); [discriminate|].
    f_equal. exact (IH Hpre).
Qed.

Lemma commitsMessage_eq (commits : string) :
  fmtSprintf
    ("Here are the commit messages from the branch:" +:+ nl +:+ nl +:+ "%s")
    [commits]
  = "Here are the commit messages from the branch:" +:+ nl +:+ nl +:+ commits.
Proof.
  exact (fmtSprintf_last
           ("Here are the commit messages from the branch:" +:+ nl +:+ nl)
           commits "s" eq_refl eq_refl).
Qed.

Lemma apiError_eq (message : string) :
  fmtSprintf "API error: %s" [message] = "API error: " +:+ message.
Proof. exact (fmtSprintf_last "API error: " message "s" eq_refl eq_refl). Qed.

(** *** One request *)

Lemma roundTrip_unsupported (body : ChatRequest) (key : string) (w : World)
  (v : string) :
  unsupportedValue (reqTemperature body) = Some v ->
  roundTrip body key w
  = Ret ((noResponse,
          Some ("failed to marshal request: json: unsupported value: " +:+ v)), w).
Proof.
  intros H. unfold roundTrip, jsonMarshal. rewrite H.
  rewrite (fmtSprintf_last "failed to marshal request: " _ "v" eq_refl eq_refl).
  reflexivity.
Qed.

Lemma roundTrip_sent (body : ChatRequest) (key : string) (w : World) :
  unsupportedValue (reqTemperature body) = None ->
  roundTrip body key w
  = Ret (match firstOutcome w with
         | SendFailed err => (noResponse, Some ("failed to send request: " +:+ err))
         | ReadFailed err => (noResponse, Some ("failed to read response: " +:+ err))
         | UnmarshalFailed err =>
             (noResponse, Some ("failed to unmarshal response: " +:+ err))
         | Decoded r => (r, None)
         end, afterSend w (newRequest body key)).
Proof.
  intros H. unfold roundTrip, jsonMarshal, firstOutcome. rewrite H.
  destruct (network w (length (sent w))) as [e|e|e|r].
  - rewrite (fmtSprintf_last "failed to send request: " _ "v" eq_refl eq_refl).
    reflexivity.
  - rewrite (fmtSprintf_last "failed to read response: " _ "v" eq_refl eq_refl).
    reflexivity.
  - rewrite (fmtSprintf_last "failed to unmarshal response: " _ "v" eq_refl eq_refl).
    reflexivity.
  - reflexivity.
Qed.

Lemma makeOpenAIRequest_unsupported (messages : list ChatMessage)
  (config : LLMConfig) (w : World) (v : string) :
  unsupportedValue (Temperature config) = Some v ->
  makeOpenAIRequest messages config w
  = Ret (("", Some ("failed to marshal request: json: unsupported value: " +:+ v)),
         w).
Proof.
  intros H. unfold makeOpenAIRequest, io_bind.
  rewrite (roundTrip_unsupported _ _ _ v) by exact H. reflexivity.
Qed.

Lemma makeOpenAIRequest_sent (messages : list ChatMessage) (config : LLMConfig)
  (w : World) :
  unsupportedValue (Temperature config) = None ->
  makeOpenAIRequest messages config w
  = Ret (answerOf (firstOutcome w), afterSend w (requestFor messages config)).
Proof.
  intros H. unfold makeOpenAIRequest, io_bind.
  rewrite roundTrip_sent by exact H. fold (requestFor messages config).
  unfold answerOf. destruct (firstOutcome w) as [e|e|e|r]; try reflexivity.
  destruct (Error r) as [m|].
  - rewrite apiError_eq. reflexivity.
  - destruct (Choices r); reflexivity.
Qed.

(** An error comes with an empty content. *)
Lemma answerOf_error (o : HttpOutcome) (content err : string) :
  answerOf o = (content, Some err) -> content = EmptyString.
Proof.
  unfold answerOf. destruct o as [e|e|e|r]; try (intros H; inversion H; reflexivity).
  destruct (Error r); [intros H; inversion H; reflexivity|].
  destruct (Choices r); intros H; inversion H; reflexivity.
Qed.

(** *** The messages of the second call *)

Lemma appendAnswered_spec (questionResponses : list QuestionResponse) :
  forall newMessages,
    appendAnswered newMessages questionResponses
    = newMessages ++ flat_map asMessages (List.filter answered questionResponses).
Proof.
  induction questionResponses as [|qa rest IH]; intros acc; simpl.
  - rewrite app_nil_r. reflexivity.
  - unfold answered at 1. destruct (negb (Answer qa =? "")%string).
    + rewrite IH. simpl. rewrite <- app_assoc. reflexivity.
    + apply IH.
Qed.

(** *** [GeneratePRMessage], step by step *)

Lemma GeneratePRMessage_eq (commits : string) (config : LLMConfig)
  (template : string) (w : World) :
  GeneratePRMessage commits config template w =
  if (APIKey config =? "")%string then Ret (("", Some keyNotFound), w)
  else
    match makeOpenAIRequest (initialMessages commits config template) config w with
    | Ret ((response, Some e), w1) => Ret (("", Some e), w1)
    | Ret ((response, None), w1) =>
        match extractQuestions response with
        | Ret (questionResponses, hasQuestions) =>
            if hasQuestions && EnableQuestions config
            then
              match askUserQuestions (elements questionResponses) w1 with
              | Ret (questions', w2) =>
                  if anyAnswered questions'
                  then
                    match makeOpenAIRequest
                            (followUpMessages
                               (initialMessages commits config template)
                               questions') config w2 with
                    | Ret (a, w3) => Ret (trimmed a, w3)
                    | Panic => Panic
                    | OutOfFuel => OutOfFuel
                    end
                  else
                    match extractPRDescription response with
                    | Ret d => Ret ((stringsTrimSpace d, None), w2)
                    | Panic => Panic
                    | OutOfFuel => OutOfFuel
                    end
              | Panic => Panic
              | OutOfFuel => OutOfFuel
              end
            else Ret ((stringsTrimSpace response, None), w1)
        | Panic => Panic
        | OutOfFuel => OutOfFuel
        end
    | Panic => Panic
    | OutOfFuel => OutOfFuel
    end.
Proof.
  unfold GeneratePRMessage.
  destruct (APIKey config =? "")%string; [reflexivity|].
  rewrite commitsMessage_eq. fold (initialMessages commits config template).
  unfold io_bind at 1.
  destruct (makeOpenAIRequest (initialMessages commits config template) config w)
    as [[[response [e|]] w1]| |]; try reflexivity.
  unfold io_bind at 1. unfold lift at 1.
  destruct (extractQuestions response) as [[qs has]| |]; try reflexivity.
  destruct (has && EnableQuestions config); [|reflexivity].
  unfold io_bind at 1.
  destruct (askUserQuestions (elements qs) w1) as [[qs' w2]| |]; try reflexivity.
  destruct (anyAnswered qs').
  - rewrite appendAnswered_spec.
    unfold io_bind.
    replace (([mkChatMessage "system"
                 (fmtSprintf (getQuestionsPrompt (EnableQuestions config))
                    [prPromptText; template]);
               mkChatMessage "user"
                 ("Here are the commit messages from the branch:"
                  +:+ nl +:+ nl +:+ commits);
               mkChatMessage "assistant"
                 "I need some additional information to write a better PR description."]
              ++ flat_map asMessages (List.filter answered qs'))
             ++ [mkChatMessage "user"
                   "Now that you have this additional information, please generate a comprehensive PR description using the template provided earlier."])
      with (followUpMessages (initialMessages commits config template) qs').
    2:{ unfold followUpMessages, initialMessages. reflexivity. }
    destruct (makeOpenAIRequest
                (followUpMessages (initialMessages commits config template) qs')
                config w2) as [[[r2 [e2|]] w3]| |]; reflexivity.
  - unfold io_bind, lift.
    destruct (extractPRDescription response); reflexivity.
Qed.

(** The question loop reads standard input and nothing else of the world. *)
Lemma askLoop_stdin :
  forall (n : nat) (i : Z) (questions : list QuestionResponse) (reader : string)
         (w w0 : World),
    stdin w0 = stdin w ->
    askLoop n i questions reader w0
    = match askLoop n i questions reader w with
      | Ret (a, w') => Ret (a, mkWorld (network w0) (sent w0) (stdin w'))
      | Panic => Panic
      | OutOfFuel => OutOfFuel
      end.
Proof.
  induction n as [|n IH]; intros i questions reader w w0 Hin.
  - simpl. unfold io_ret. rewrite <- Hin. destruct w0; reflexivity.
  - rewrite !askLoop_unfold. rewrite (readString_stdin reader w w0 Hin).
    destruct (readString newline reader w) as [[[line reader1] w1]| |];
      try reflexivity.
    destruct (storeAnswer questions i (stringsTrimSpace line)) as [qs1| |];
      try reflexivity.
    destruct (skipsAll qs1 i) as [[|]| |]; try reflexivity.
    + destruct (clearAnswers (length qs1) qs1 (i + 1)); reflexivity.
    + rewrite (IH (i + 1) qs1 reader1 w1
                 (mkWorld (network w0) (sent w0) (stdin w1)) eq_refl).
      reflexivity.
Qed.

Lemma askUserQuestions_run (questions : list QuestionResponse) (w : World) :
  exists questions' rest,
    (forall w0, stdin w0 = stdin w ->
                askUserQuestions questions w0
                = Ret (questions', mkWorld (network w0) (sent w0) rest))
    /\ length questions' = length questions
    /\ map Question questions' = map Question questions.
Proof.
  destruct (askLoop_frame (length questions) 0 questions EmptyString w eq_refl)
    as (qs' & r' & w' & E & Hl & Hq & _).
  exists qs', (stdin w'). split; [|auto].
  intros w0 Hin. unfold askUserQuestions, io_bind. cbv zeta.
  rewrite (askLoop_stdin _ _ _ _ w w0 Hin).
  change (Z.of_nat 0) with 0 in E. rewrite E. reflexivity.
Qed.

Lemma extractQuestions_shape (response : string) :
  extractQuestions response = Ret (None, false)
  \/ exists qs, qs <> [] /\ extractQuestions response = Ret (Some qs, true).
Proof.
  unfold extractQuestions.
  assert (Hd : forall j, decodeQuestions j = (None, false)
                         \/ exists qs, qs <> [] /\ decodeQuestions j = (Some qs, true)).
  { intros j. destruct (decodeQuestions_cases j) as [(q & _ & Hne & ->)|[_ ->]];
      [right|left; reflexivity].
    eexists. split; [|reflexivity]. destruct q; [congruence|discriminate]. }
  destruct (questionsJSON_cases response) as [(p & _ & ->)|[_ [->| ->]]];
    simpl run_bind; [|left; reflexivity|].
  - destruct (Hd p) as [->|(qs & Hne & ->)]; eauto.
  - destruct (Hd EmptyString) as [->|(qs & Hne & ->)]; eauto.
Qed.

Lemma extractPRDescription_total (response : string) :
  exists d, extractPRDescription response = Ret d.
Proof.
  destruct (extractPRDescription_cases response)
    as [[_ ->]|[(_ & _ & ->)|(_ & st & e & _ & _ & ->)]]; eauto.
Qed.

(** What a run of [GeneratePRMessage] that has a key and a request body that
    can be encoded does, by the answer to its first request. *)
Lemma GeneratePRMessage_run (commits : string) (config : LLMConfig)
  (template : string) (w : World) :
  APIKey config <> EmptyString ->
  unsupportedValue (Temperature config) = None ->
  let initial := initialMessages commits config template in
  let w1 := afterSend w (requestFor initial config) in
  match answerOf (firstOutcome w) with
  | (_, Some e) =>
      GeneratePRMessage commits config template w = Ret (("", Some e), w1)
  | (content, None) =>
      exists qs has,
        extractQuestions content = Ret (qs, has)
        /\ if has && EnableQuestions config
           then
             exists questions' rest,
               askUserQuestions (elements qs) w
               = Ret (questions', mkWorld (network w) (sent w) rest)
               /\ let w2 := mkWorld (network w)
                              (sent w ++ [requestFor initial config]) rest in
                  if anyAnswered questions'
                  then
                    GeneratePRMessage commits config template w
                    = Ret (trimmed (answerOf (secondOutcome w)),
                           afterSend w2
                             (requestFor (followUpMessages initial questions')
                                config))
                  else
                    exists d,
                      extractPRDescription content = Ret d
                      /\ GeneratePRMessage commits config template w
                         = Ret ((stringsTrimSpace d, None), w2)
           else
             GeneratePRMessage commits config template w
             = Ret ((stringsTrimSpace content, None), w1)
  end.
Proof.
  intros Hkey Henc initial w1. rewrite GeneratePRMessage_eq.
  destruct (String.eqb_spec (APIKey config) "") as [E|_]; [contradiction|].
  fold initial. rewrite makeOpenAIRequest_sent by exact Henc. fold w1.
  destruct (answerOf (firstOutcome w)) as [content [e|]]; [reflexivity|].
  assert (Hex : exists qs has, extractQuestions content = Ret (qs, has)).
  { destruct (extractQuestions_shape content) as [->|(qs & _ & ->)]; eauto. }
  destruct Hex as (qs & has & Hex). exists qs, has. split; [exact Hex|].
  rewrite Hex. destruct (has && EnableQuestions config); [|reflexivity].
  destruct (askUserQuestions_run (elements qs) w) as (qs' & rest & Hask & _).
  exists qs', rest. split; [apply Hask; reflexivity|].
  rewrite (Hask w1 eq_refl). cbv zeta.
  destruct (anyAnswered qs').
  - rewrite makeOpenAIRequest_sent by exact Henc.
    unfold firstOutcome, secondOutcome. simpl network. simpl sent.
    rewrite length_app. simpl length.
    replace (length (sent w) + 1)%nat with (S (length (sent w))) by lia.
    reflexivity.
  - destruct (extractPRDescription_total content) as [d Hd].
    exists d. split; [exact Hd|]. rewrite Hd. reflexivity.
Qed.

Lemma GeneratePRMessage_no_key (commits : string) (config : LLMConfig)
  (template : string) (w : World) :
  APIKey config = EmptyString ->
  GeneratePRMessage commits config template w = Ret (("", Some keyNotFound), w).
Proof. intros H. rewrite GeneratePRMessage_eq, H. reflexivity. Qed.

Lemma GeneratePRMessage_unsupported (commits : string) (config : LLMConfig)
  (template : string) (w : World) (v : string) :
  APIKey config <> EmptyString ->
  unsupportedValue (Temperature config) = Some v ->
  GeneratePRMessage commits config template w
  = Ret (("", Some ("failed to marshal request: json: unsupported value: " +:+ v)),
         w).
Proof.
  intros Hkey H. rewrite GeneratePRMessage_eq.
  destruct (String.eqb_spec (APIKey config) "") as [E|_]; [contradiction|].
  rewrite (makeOpenAIRequest_unsupported _ _ _ v H). reflexivity.
Qed.

(** The three ways in which a run of [GeneratePRMessage] starts: without a
    key, with a request body that cannot be encoded, with a first request. *)
Ltac first_request commits config template w Hkey Henc Hrun :=
  destruct (String.eqb_spec (APIKey config) "") as [Hkey|Hkey];
  [ rewrite (GeneratePRMessage_no_key commits config template w Hkey) in *
  | let v := fresh "v" in
    destruct (unsupportedValue (Temperature config)) as [v|] eqn:Henc;
    [ rewrite (GeneratePRMessage_unsupported commits config template w v
                 Hkey Henc) in *
    | pose proof (GeneratePRMessage_run commits config template w Hkey Henc)
        as Hrun;
      cbv zeta in Hrun ] ].

Lemma app_two_length {A : Type} (l : list A) (reqs : list A) :
  l = l ++ reqs -> reqs = [].
Proof.
  intros H. apply (f_equal (@length A)) in H. rewrite length_app in H.
  destruct reqs; [reflexivity|simpl in H; lia].
Qed.

(** The requests of an execution of [GeneratePRMessage], counted. *)
Lemma GeneratePRMessage_requests_with_key (commits : string) (config : LLMConfig)
  (template : string) (w : World) :
  exists res w' reqs,
    GeneratePRMessage commits config template w = Ret (res, w')
    /\ sent w' = sent w ++ reqs
    /\ (length reqs <= 2)%nat
    /\ (APIKey config <> EmptyString ->
        unsupportedValue (Temperature config) = None ->
        (1 <= length reqs)%nat
        /\ (length reqs = 2%nat <-> wantsFollowUp config w)
        /\ (length reqs = 2%nat -> res = trimmed (answerOf (secondOutcome w)))).
Proof.
  first_request commits config template w Hkey Henc Hrun.
  { exists ("", Some keyNotFound), w, []. rewrite app_nil_r.
    repeat split; auto; contradiction. }
  { eexists _, w, []. rewrite app_nil_r.
    repeat split; auto; discriminate. }
  destruct (answerOf (firstOutcome w)) as [content [e|]] eqn:Hans.
  { rewrite Hrun. eexists _, _, [_]. split; [reflexivity|].
    split; [reflexivity|]. split; [simpl; lia|]. intros _ _.
    split; [simpl; lia|]. split; [|simpl; lia].
    split; [simpl; lia|]. intros (_ & c & qs & q' & w' & H & _). congruence. }
  destruct Hrun as (qs & has & Hex & Hrun).
  destruct (has && EnableQuestions config) eqn:Hboth.
  - apply andb_prop in Hboth. destruct Hboth as [-> Hen].
    destruct Hrun as (qs' & rest & Hask & Hrun). cbv zeta in Hrun.
    assert (Hqs : exists qs0, qs = Some qs0).
    { destruct (extractQuestions_shape content) as [E|(qs0 & _ & E)];
        rewrite E in Hex; inversion Hex; eauto. }
    destruct Hqs as [qs0 ->]. simpl elements in Hask.
    destruct (anyAnswered qs') eqn:Hany.
    + rewrite Hrun. eexists _, _, [_; _]. split; [reflexivity|].
      split; [simpl; rewrite <- app_assoc; reflexivity|].
      split; [simpl; lia|]. intros _ _. split; [simpl; lia|].
      split; [|reflexivity]. split; [|reflexivity]. intros _.
      split; [exact Hen|].
      exists content, qs0, qs', (mkWorld (network w) (sent w) rest). auto.
    + destruct Hrun as (d & Hd & Hrun). rewrite Hrun.
      eexists _, _, [_]. split; [reflexivity|]. split; [reflexivity|].
      split; [simpl; lia|]. intros _ _. split; [simpl; lia|].
      split; [|simpl; lia]. split; [simpl; lia|].
      intros (_ & c & q0 & q' & w' & Hc & Hq0 & Hq' & Hany').
      rewrite Hans in Hc. inversion Hc; subst c.
      rewrite Hex in Hq0. inversion Hq0; subst q0.
      rewrite Hask in Hq'. inversion Hq'; subst q'. congruence.
  - rewrite Hrun. eexists _, _, [_]. split; [reflexivity|].
    split; [reflexivity|]. split; [simpl; lia|]. intros _ _.
    split; [simpl; lia|]. split; [|simpl; lia]. split; [simpl; lia|].
    intros (Hen & c & q0 & q' & w' & Hc & Hq0 & _).
    rewrite Hans in Hc. inversion Hc; subst c.
    rewrite Hex in Hq0. inversion Hq0; subst. rewrite Hen in Hboth. discriminate.
Qed.

(** C2 (amended): every execution of [GeneratePRMessage] returns and issues
    two API requests at most.  When the API key is not empty and the request
    body can be encoded (the temperature is a finite number), it issues one
    initial request always, and one follow-up request exactly when
    [EnableQuestions] is true, the first response holds a questions payload
    that [extractQuestions] extracts and one question at least received an
    answer that is not empty ([wantsFollowUp]); the result is then what the
    follow-up response gives, its content trimmed and not scanned for
    questions again.  With an empty API key, or a temperature that JSON
    cannot encode, it issues no request. *)
Theorem GeneratePRMessage_requests (commits : string) (config : LLMConfig)
  (template : string) (w : World) :
  exists res w' reqs,
    GeneratePRMessage commits config template w = Ret (res, w')
    /\ sent w' = sent w ++ reqs
    /\ (length reqs <= 2)%nat
    /\ (APIKey config <> EmptyString ->
        unsupportedValue (Temperature config) = None ->
        (1 <= length reqs)%nat
        /\ (length reqs = 2%nat <-> wantsFollowUp config w)
        /\ (length reqs = 2%nat -> res = trimmed (answerOf (secondOutcome w))))
    /\ (APIKey config = EmptyString
        \/ unsupportedValue (Temperature config) <> None ->
        reqs = []).
Proof.
  destruct (GeneratePRMessage_requests_with_key commits config template w)
    as (res & w' & reqs & Hrun & Hsent & Hle & Hkey).
  exists res, w', reqs. split; [exact Hrun|]. split; [exact Hsent|].
  split; [exact Hle|]. split; [exact Hkey|]. intros Hnone.
  assert (Hsame : w' = w).
  { destruct (String.eqb_spec (APIKey config) "") as [Hk|Hk].
    - rewrite (GeneratePRMessage_no_key _ _ _ _ Hk) in Hrun.
      inversion Hrun. reflexivity.
    - destruct Hnone as [Hn|Hn]; [contradiction|].
      destruct (unsupportedValue (Temperature config)) as [v|] eqn:Henc;
        [|congruence].
      rewrite (GeneratePRMessage_unsupported _ _ _ _ v Hk Henc) in Hrun.
      inversion Hrun. reflexivity. }
  subst w'. exact (app_two_length _ _ Hsent).
Qed.

(** C3: when [GeneratePRMessage] makes its second API call, the messages of
    that call are the messages of the first call (the system prompt and the
    user message that holds the commit messages), then the notice of the
    assistant, then, for each question with an answer that is not empty and
    in the order of the questions, an assistant message with the question and
    a user message with the answer, and last the user message that asks for
    the PR description ([followUpMessages]); [questions'] are the questions
    extracted from the first response with the answers of the user. *)
Theorem second_call_replays_context (commits : string) (config : LLMConfig)
  (template : string) (w : World) (res : string * error) (w' : World)
  (req1 req2 : HttpRequest) :
  GeneratePRMessage commits config template w = Ret (res, w') ->
  sent w' = sent w ++ [req1; req2] ->
  exists content qs questions' wq,
    answerOf (firstOutcome w) = (content, None)
    /\ extractQuestions content = Ret (Some qs, true)
    /\ askUserQuestions qs w = Ret (questions', wq)
    /\ Messages (Body req1) = initialMessages commits config template
    /\ Messages (Body req2) = followUpMessages (Messages (Body req1)) questions'.
Proof.
  intros Hrun Hsent.
  first_request commits config template w Hkey Henc H.
  { inversion Hrun; subst. apply app_two_length in Hsent. discriminate. }
  { inversion Hrun; subst. apply app_two_length in Hsent. discriminate. }
  assert (Hone : forall (r : HttpRequest) (rest : string),
             sent (afterSend (mkWorld (network w) (sent w) rest) r)
             = sent w ++ [req1; req2] -> False).
  { intros r rest E. simpl in E. apply app_inv_head in E. discriminate. }
  destruct (answerOf (firstOutcome w)) as [content [e|]] eqn:Hans.
  { rewrite H in Hrun. inversion Hrun; subst.
    exfalso. exact (Hone _ (stdin w) Hsent). }
  destruct H as (qs & has & Hex & H).
  destruct (has && EnableQuestions config) eqn:Hboth.
  - apply andb_prop in Hboth. destruct Hboth as [-> Hen].
    destruct H as (qs' & rest & Hask & H). cbv zeta in H.
    assert (Hqs : exists qs0, qs = Some qs0).
    { destruct (extractQuestions_shape content) as [E|(qs0 & _ & E)];
        rewrite E in Hex; inversion Hex; eauto. }
    destruct Hqs as [qs0 ->]. simpl elements in Hask.
    destruct (anyAnswered qs').
    + rewrite H in Hrun. inversion Hrun; subst.
      simpl in Hsent. rewrite <- app_assoc in Hsent.
      apply app_inv_head in Hsent. inversion Hsent; subst.
      exists content, qs0, qs', (mkWorld (network w) (sent w) rest).
      repeat split; auto.
    + destruct H as (d & _ & H). rewrite H in Hrun. inversion Hrun; subst.
      exfalso. exact (Hone _ rest Hsent).
  - rewrite H in Hrun. inversion Hrun; subst.
    exfalso. exact (Hone _ (stdin w) Hsent).
Qed.

(** *** The functions that make one call *)

(** The round trip and the checks that [GenerateCommitMessage] and the
    earlier [GeneratePRMessage] write out after building their request. *)
Lemma inline_call (body : ChatRequest) (key : string) (w : World) :
  (do (chatResponse, err) <- roundTrip body key;
   match err with
   | Some _ => io_ret ("", err)
   | None =>
       match Error chatResponse with
       | Some message => io_ret ("", Some (fmtSprintf "API error: %s" [message]))
       | None =>
           match Choices chatResponse with
           | [] => io_ret ("", Some "no response from API")
           | choice :: _ => io_ret (stringsTrimSpace (Content choice), None)
           end
       end
   end) w
  = match unsupportedValue (reqTemperature body) with
    | Some v =>
        Ret (("", Some ("failed to marshal request: json: unsupported value: "
                        +:+ v)), w)
    | None =>
        Ret (trimmed (answerOf (firstOutcome w)),
             afterSend w (newRequest body key))
    end.
Proof.
  unfold io_bind.
  destruct (unsupportedValue (reqTemperature body)) as [v|] eqn:Henc.
  - rewrite (roundTrip_unsupported _ _ _ v Henc). reflexivity.
  - rewrite (roundTrip_sent _ _ _ Henc). unfold answerOf, trimmed.
    destruct (firstOutcome w) as [e|e|e|r]; try reflexivity.
    destruct (Error r) as [m|].
    + rewrite apiError_eq. reflexivity.
    + destruct (Choices r); reflexivity.
Qed.

Lemma GenerateCommitMessage_eq (diff : string) (config : LLMConfig)
  (template : string) (w : World) :
  exists messages,
    GenerateCommitMessage diff config template w
    = if (APIKey config =? "")%string then Ret (("", Some keyNotFound), w)
      else match unsupportedValue (Temperature config) with
           | Some v =>
               Ret (("", Some ("failed to marshal request: json: unsupported value: "
                               +:+ v)), w)
           | None =>
               Ret (trimmed (answerOf (firstOutcome w)),
                    afterSend w (requestFor messages config))
           end.
Proof.
  eexists. unfold GenerateCommitMessage.
  destruct (APIKey config =? "")%string; [reflexivity|].
  cbv zeta. rewrite inline_call. reflexivity.
Qed.

Lemma Older_GeneratePRMessage_eq (commits : string) (config : LLMConfig)
  (template : string) (w : World) :
  exists messages,
    Older.GeneratePRMessage commits (older config) template w
    = if (APIKey config =? "")%string then Ret (("", Some keyNotFound), w)
      else match unsupportedValue (Temperature config) with
           | Some v =>
               Ret (("", Some ("failed to marshal request: json: unsupported value: "
                               +:+ v)), w)
           | None =>
               Ret (trimmed (answerOf (firstOutcome w)),
                    afterSend w (requestFor messages config))
           end.
Proof.
  eexists. unfold Older.GeneratePRMessage, older.
  cbn [Older.APIKey Older.Model Older.Temperature Older.MaxTokens].
  destruct (APIKey config =? "")%string; [reflexivity|].
  cbv zeta. rewrite inline_call. reflexivity.
Qed.

(** [GeneratePRMessage] when no question is to be asked. *)
Lemma GeneratePRMessage_plain (commits : string) (config : LLMConfig)
  (template : string) (w : World) :
  APIKey config <> EmptyString ->
  unsupportedValue (Temperature config) = None ->
  (EnableQuestions config = false
   \/ forall content, answerOf (firstOutcome w) = (content, None) ->
                      extractQuestions content = Ret (None, false)) ->
  GeneratePRMessage commits config template w
  = Ret (trimmed (answerOf (firstOutcome w)),
         afterSend w (requestFor (initialMessages commits config template)
                        config)).
Proof.
  intros Hkey Henc Hplain.
  pose proof (GeneratePRMessage_run commits config template w Hkey Henc) as H.
  cbv zeta in H. unfold trimmed.
  destruct (answerOf (firstOutcome w)) as [content [e|]] eqn:Hans;
    [exact H|].
  destruct H as (qs & has & Hex & H). simpl.
  destruct (has && EnableQuestions config) eqn:Hboth; [|exact H].
  apply andb_prop in Hboth. destruct Hboth as [-> Hen].
  destruct Hplain as [Hoff|Hnone]; [congruence|].
  rewrite (Hnone content eq_refl) in Hex. discriminate.
Qed.

Lemma GeneratePRMessage_total (commits : string) (config : LLMConfig)
  (template : string) (w : World) :
  exists res w', GeneratePRMessage commits config template w = Ret (res, w').
Proof.
  first_request commits config template w Hkey Henc H; [eauto|eauto|].
  destruct (answerOf (firstOutcome w)) as [content [e|]]; [eauto|].
  destruct H as (qs & has & _ & H).
  destruct (has && EnableQuestions config); [|eauto].
  destruct H as (qs' & rest & _ & H). cbv zeta in H.
  destruct (anyAnswered qs'); [eauto|].
  destruct H as (d & _ & H). eauto.
Qed.

(** *** The claims about the API functions *)

(** C4 (amended): when questions are extracted and enabled and no question
    receives an answer that is not empty, [GeneratePRMessage] makes no second
    request and returns [extractPRDescription] of the first response with its
    surrounding white space trimmed.  [extractPRDescription] of a response is:
    the empty string when the trimmed response is empty or begins with the
    questions literal; otherwise the whole response, unchanged, when the
    literal does not occur in it or the scan finds no matching closing brace;
    otherwise the text before the literal and the text after the matching
    closing brace, each trimmed, joined by a blank line when neither is empty
    (the one that is not empty, or the empty string, when one is). *)
Theorem unanswered_questions_use_first_response :
  (forall commits config template w content qs questions' wq,
      APIKey config <> EmptyString ->
      unsupportedValue (Temperature config) = None ->
      EnableQuestions config = true ->
      answerOf (firstOutcome w) = (content, None) ->
      extractQuestions content = Ret (Some qs, true) ->
      askUserQuestions qs w = Ret (questions', wq) ->
      anyAnswered questions' = false ->
      exists d wf,
        extractPRDescription content = Ret d
        /\ GeneratePRMessage commits config template w
           = Ret ((stringsTrimSpace d, None), wf)
        /\ sent wf
           = sent w ++ [requestFor (initialMessages commits config template)
                          config])
  /\ (forall response,
         (onlyQuestions response = true ->
          extractPRDescription response = Ret EmptyString)
         /\ (onlyQuestions response = false ->
             (forall n, ~ occursAt questionsMarker response n) ->
             extractPRDescription response = Ret response)
         /\ (onlyQuestions response = false ->
             forall start,
               firstOccurrence questionsMarker response start ->
               counterNeverReturns response start ->
               extractPRDescription response = Ret response)
         /\ (onlyQuestions response = false ->
             forall start e,
               firstOccurrence questionsMarker response start ->
               counterReturnsAt response start e ->
               extractPRDescription response
               = Ret (joinParagraphs
                        (stringsTrimSpace (substring 0 start response))
                        (stringsTrimSpace
                           (substring (S e) (String.length response - S e)
                              response))))).
Proof.
  split.
  - intros commits config template w content qs qs' wq Hkey Henc Hen Hans Hex
      Hask Hany.
    pose proof (GeneratePRMessage_run commits config template w Hkey Henc) as H.
    cbv zeta in H. rewrite Hans in H. destruct H as (qs0 & has & Hex' & H).
    rewrite Hex in Hex'. inversion Hex'; subst qs0 has. rewrite Hen in H.
    simpl in H. destruct H as (qs1 & rest & Hask' & H).
    rewrite Hask in Hask'. inversion Hask'; subst qs1 wq. rewrite Hany in H.
    destruct H as (d & Hd & H). exists d. eexists. split; [exact Hd|].
    split; [exact H|]. reflexivity.
  - intros response.
    destruct (extractPRDescription_cases response)
      as [[Hq E]|[(Hq & Hwhy & E)|(Hq & st & e & Hf & Hr & E)]];
      (split; [|split; [|split]]); try (rewrite Hq; discriminate).
    + intros _. exact E.
    + intros _ _. exact E.
    + intros _ start _ _. exact E.
    + intros _ start e' Hf' Hr'. exfalso.
      destruct Hwhy as [Hno|(st & Hst & Hnever)].
      * exact (Hno start (proj1 Hf')).
      * rewrite (firstOccurrence_unique _ _ _ _ Hf' Hst) in Hr'.
        exact (counterReturnsAt_not_never _ _ _ Hr' Hnever).
    + intros _ Hno. exfalso. exact (Hno st (proj1 Hf)).
    + intros _ start Hf' Hnever. exfalso.
      rewrite (firstOccurrence_unique _ _ _ _ Hf' Hf) in Hnever.
      exact (counterReturnsAt_not_never _ _ _ Hr Hnever).
    + intros _ start e' Hf' Hr'.
      assert (start = st) by exact (firstOccurrence_unique _ _ _ _ Hf' Hf).
      subst start.
      assert (e' = e) by exact (counterReturnsAt_unique _ _ _ _ Hr' Hr).
      subst e'. exact E.
Qed.

(** C5 (amended): [GenerateCommitMessage] and [GeneratePRMessage] always
    return, and report a failure through their error result, with an empty
    string.  With an empty API key they return the key error and issue no
    request.  With a key, when the answer to the first request is a decoded
    response: an [Error] in it gives an error that holds its message; no
    [Error] and no choice gives the error [no response from API]; otherwise
    [GenerateCommitMessage] succeeds with the trimmed content of the first
    choice, and so does [GeneratePRMessage] when questions are disabled or
    [extractQuestions] finds no questions in that content. *)
Theorem api_functions_report_errors (diff commits : string)
  (config : LLMConfig) (template : string) (w : World) :
  (exists res w', GenerateCommitMessage diff config template w = Ret (res, w')
                  /\ (snd res <> None -> fst res = EmptyString))
  /\ (exists res w', GeneratePRMessage commits config template w = Ret (res, w')
                     /\ (snd res <> None -> fst res = EmptyString))
  /\ (APIKey config = EmptyString ->
      GenerateCommitMessage diff config template w
      = Ret (("", Some keyNotFound), w)
      /\ GeneratePRMessage commits config template w
         = Ret (("", Some keyNotFound), w))
  /\ (APIKey config <> EmptyString ->
      unsupportedValue (Temperature config) = None ->
      forall r, firstOutcome w = Decoded r ->
        exists reqc reqp,
          (forall message, Error r = Some message ->
             GenerateCommitMessage diff config template w
             = Ret (("", Some ("API error: " +:+ message)), afterSend w reqc)
             /\ GeneratePRMessage commits config template w
                = Ret (("", Some ("API error: " +:+ message)), afterSend w reqp))
          /\ (Error r = None -> Choices r = [] ->
              GenerateCommitMessage diff config template w
              = Ret (("", Some "no response from API"), afterSend w reqc)
              /\ GeneratePRMessage commits config template w
                 = Ret (("", Some "no response from API"), afterSend w reqp))
          /\ (forall choice rest, Error r = None -> Choices r = choice :: rest ->
              GenerateCommitMessage diff config template w
              = Ret ((stringsTrimSpace (Content choice), None), afterSend w reqc)
              /\ (EnableQuestions config = false
                  \/ extractQuestions (Content choice) = Ret (None, false) ->
                  GeneratePRMessage commits config template w
                  = Ret ((stringsTrimSpace (Content choice), None),
                         afterSend w reqp)))).
Proof.
  destruct (GenerateCommitMessage_eq diff config template w) as [msgs Hc].
  split; [|split; [|split]].
  - rewrite Hc. destruct (APIKey config =? "")%string; [eexists _, _; split; [reflexivity|reflexivity]|].
    destruct (unsupportedValue (Temperature config));
      [eexists _, _; split; [reflexivity|reflexivity]|].
    eexists _, _. split; [reflexivity|]. unfold trimmed.
    destruct (snd (answerOf (firstOutcome w))); simpl; [reflexivity|congruence].
  - first_request commits config template w Hkey Henc H;
      [eexists _, _; split; reflexivity..|].
    destruct (answerOf (firstOutcome w)) as [content [e|]];
      [eexists _, _; split; [exact H|reflexivity]|].
    destruct H as (qs & has & _ & H).
    destruct (has && EnableQuestions config).
    + destruct H as (qs' & rest & _ & H). cbv zeta in H.
      destruct (anyAnswered qs').
      * eexists _, _. split; [exact H|]. unfold trimmed.
        destruct (snd (answerOf (secondOutcome w))); simpl;
          [reflexivity|congruence].
      * destruct H as (d & _ & H). eexists _, _. split; [exact H|].
        simpl. congruence.
    + eexists _, _. split; [exact H|]. simpl. congruence.
  - intros Hkey. split.
    + rewrite Hc, Hkey. reflexivity.
    + exact (GeneratePRMessage_no_key _ _ _ _ Hkey).
  - intros Hkey Henc r Hr.
    exists (requestFor msgs config),
      (requestFor (initialMessages commits config template) config).
    rewrite Hc. destruct (String.eqb_spec (APIKey config) "") as [E|_];
      [contradiction|].
    rewrite Henc. unfold trimmed, answerOf. rewrite Hr.
    assert (Hp : forall a,
               answerOf (firstOutcome w) = a ->
               (snd a <> None
                \/ EnableQuestions config = false
                \/ extractQuestions (fst a) = Ret (None, false)) ->
               GeneratePRMessage commits config template w
               = Ret (trimmed a,
                      afterSend w (requestFor
                                     (initialMessages commits config template)
                                     config))).
    { intros a Ha Hwhy.
      pose proof (GeneratePRMessage_run commits config template w Hkey Henc) as H.
      cbv zeta in H. rewrite Ha in H. unfold trimmed.
      destruct a as [content [e|]]; simpl in *; [exact H|].
      destruct H as (qs & has & Hex & H).
      destruct (has && EnableQuestions config) eqn:Hboth; [|exact H].
      apply andb_prop in Hboth. destruct Hboth as [-> Hen].
      destruct Hwhy as [Hn|[Hoff|Hnone]]; [congruence|congruence|].
      rewrite Hnone in Hex. discriminate. }
    unfold answerOf in Hp. rewrite Hr in Hp.
    split; [|split].
    + intros m Hm. rewrite Hm. split; [reflexivity|].
      rewrite (Hp _ ltac:(rewrite Hm; reflexivity)
                 ltac:(left; simpl; discriminate)).
      reflexivity.
    + intros He Hch. rewrite He, Hch. split; [reflexivity|].
      rewrite (Hp _ ltac:(rewrite He, Hch; reflexivity)
                 ltac:(left; simpl; discriminate)).
      reflexivity.
    + intros c rest He Hch. rewrite He, Hch. split; [reflexivity|].
      intros Hwhy.
      rewrite (Hp _ ltac:(rewrite He, Hch; reflexivity)
                 ltac:(right; exact Hwhy)).
      reflexivity.
Qed.

(** C7: when [EnableQuestions] is false, the two revisions of
    [GeneratePRMessage] agree: on the same answers of the API both return the
    same value and issue the same number of requests.  With an empty API key
    both return the key error and issue no request; with a key (and a request
    body that can be encoded) both issue exactly one request and return, from
    a decoded response, the error of its [Error], or the error [no response
    from API] when it holds no choice, or the trimmed content of its first
    choice. *)
Theorem variants_agree_without_questions (commits : string)
  (config : LLMConfig) (template : string) (w : World) :
  EnableQuestions config = false ->
  exists res w1 w2,
    GeneratePRMessage commits config template w = Ret (res, w1)
    /\ Older.GeneratePRMessage commits (older config) template w = Ret (res, w2)
    /\ length (sent w1) = length (sent w2)
    /\ (APIKey config = EmptyString ->
        res = ("", Some keyNotFound) /\ sent w1 = sent w /\ sent w2 = sent w)
    /\ (APIKey config <> EmptyString ->
        unsupportedValue (Temperature config) = None ->
        length (sent w1) = S (length (sent w))
        /\ forall r, firstOutcome w = Decoded r ->
             res = match Error r with
                   | Some message => ("", Some ("API error: " +:+ message))
                   | None =>
                       match Choices r with
                       | [] => ("", Some "no response from API")
                       | choice :: _ =>
                           (stringsTrimSpace (Content choice), None)
                       end
                   end).
Proof.
  intros Hoff.
  destruct (Older_GeneratePRMessage_eq commits config template w) as [msgs Ho].
  rewrite Ho.
  destruct (String.eqb_spec (APIKey config) "") as [Hkey|Hkey].
  { rewrite (GeneratePRMessage_no_key _ _ _ _ Hkey).
    eexists _, _, _. split; [reflexivity|]. split; [reflexivity|].
    split; [reflexivity|]. split; [auto|]. intros Hne. contradiction. }
  destruct (unsupportedValue (Temperature config)) as [v|] eqn:Henc.
  { rewrite (GeneratePRMessage_unsupported _ _ _ _ v Hkey Henc).
    eexists _, _, _. split; [reflexivity|]. split; [reflexivity|].
    split; [reflexivity|]. split; [intros E; contradiction|].
    intros _ E. discriminate. }
  rewrite (GeneratePRMessage_plain _ _ _ _ Hkey Henc (or_introl Hoff)).
  eexists _, _, _. split; [reflexivity|]. split; [reflexivity|].
  split; [simpl; rewrite !length_app; reflexivity|].
  split; [intros E; contradiction|]. intros _ _. split.
  - simpl. rewrite length_app. simpl. lia.
  - intros r Hr. unfold trimmed, answerOf. rewrite Hr.
    destruct (Error r); [reflexivity|]. destruct (Choices r); reflexivity.
Qed.

(** *** More about the requests *)

Lemma Older_GenerateCommitMessage_eq (diff : string) (config : LLMConfig)
  (template : string) (w : World) :
  exists messages,
    Older.GenerateCommitMessage diff (older config) template w
    = if (APIKey config =? "")%string then Ret (("", Some keyNotFound), w)
      else match unsupportedValue (Temperature config) with
           | Some v =>
               Ret (("", Some ("failed to marshal request: json: unsupported value: "
                               +:+ v)), w)
           | None =>
               Ret (trimmed (answerOf (firstOutcome w)),
                    afterSend w (requestFor messages config))
           end.
Proof.
  eexists. unfold Older.GenerateCommitMessage, older.
  cbn [Older.APIKey Older.Model Older.Temperature Older.MaxTokens].
  destruct (APIKey config =? "")%string; [reflexivity|].
  cbv zeta. rewrite inline_call. reflexivity.
Qed.

Lemma bearer_eq (key : string) :
  fmtSprintf "Bearer %s" [key] = "Bearer " +:+ key.
Proof. exact (fmtSprintf_last "Bearer " key "s" eq_refl eq_refl). Qed.

(** What every request built by [requestFor] carries. *)
Lemma requestFor_envelope (messages : list ChatMessage) (config : LLMConfig) :
  Method (requestFor messages config) = "POST"
  /\ URL (requestFor messages config)
     = "https://api.openai.com/v1/chat/completions"
  /\ Header (requestFor messages config)
     = [("Content-Type", "application/json");
        ("Authorization", "Bearer " +:+ APIKey config)]
  /\ reqModel (Body (requestFor messages config)) = Model config
  /\ reqTemperature (Body (requestFor messages config)) = Temperature config
  /\ reqMaxTokens (Body (requestFor messages config)) = MaxTokens config.
Proof.
  unfold requestFor, newRequest. cbn [Method URL Header Body reqModel
    reqTemperature reqMaxTokens]. rewrite bearer_eq. repeat split.
Qed.

Lemma extractQuestions_length (response : string)
  (qs : option (list QuestionResponse)) (b : bool) :
  extractQuestions response = Ret (qs, b) -> (length (elements qs) <= 3)%nat.
Proof.
  unfold extractQuestions.
  destruct (questionsJSON response) as [[j|]| |]; simpl; try discriminate.
  - destruct (decodeQuestions_cases j) as [(q & _ & _ & ->)|[_ ->]];
      intros H; inversion H; subst; simpl; [|lia].
    rewrite length_map, length_take. lia.
  - intros H. inversion H. simpl. lia.
Qed.

Lemma anyAnswered_filter (questions : list QuestionResponse) :
  anyAnswered questions = true ->
  (1 <= length (List.filter answered questions))%nat.
Proof.
  induction questions as [|q rest IH]; simpl; [discriminate|].
  unfold answered at 1. destruct (negb (Answer q =? "")%string); simpl.
  - lia.
  - exact IH.
Qed.

Lemma filter_length_le {A : Type} (f : A -> bool) (l : list A) :
  (length (List.filter f l) <= length l)%nat.
Proof.
  induction l as [|a l IH]; simpl; [lia|]. destruct (f a); simpl; lia.
Qed.

Lemma flat_map_asMessages_length (l : list QuestionResponse) :
  length (flat_map asMessages l) = (2 * length l)%nat.
Proof. induction l as [|q l IH]; simpl; [reflexivity|]. rewrite IH. lia. Qed.

(** The world after a run of [GeneratePRMessage]: the requests it has added
    (none, the first, or the first and the follow-up), and when standard
    input is as it was. *)
Lemma GeneratePRMessage_world (commits : string) (config : LLMConfig)
  (template : string) (w : World) (res : string * error) (w' : World) :
  GeneratePRMessage commits config template w = Ret (res, w') ->
  let initial := initialMessages commits config template in
  exists reqs left,
    w' = mkWorld (network w) (sent w ++ reqs) left
    /\ (EnableQuestions config = false -> left = stdin w)
    /\ (reqs = [] -> left = stdin w)
    /\ (reqs = []
        \/ reqs = [requestFor initial config]
        \/ exists content qs questions' wq,
             answerOf (firstOutcome w) = (content, None)
             /\ extractQuestions content = Ret (Some qs, true)
             /\ askUserQuestions qs w = Ret (questions', wq)
             /\ reqs = [requestFor initial config;
                        requestFor (followUpMessages initial questions') config]
             /\ (length questions' <= 3)%nat
             /\ anyAnswered questions' = true).
Proof.
  intros Hrun initial.
  assert (Hw : w = mkWorld (network w) (sent w ++ []) (stdin w)).
  { rewrite app_nil_r. destruct w; reflexivity. }
  first_request commits config template w Hkey Henc H.
  { inversion Hrun; subst w'. exists [], (stdin w).
    split; [exact Hw|]. repeat split; auto. }
  { inversion Hrun; subst w'. exists [], (stdin w).
    split; [exact Hw|]. repeat split; auto. }
  fold initial in H.
  destruct (answerOf (firstOutcome w)) as [content [e|]] eqn:Hans.
  { rewrite H in Hrun. inversion Hrun; subst.
    exists [requestFor initial config], (stdin w).
    split; [reflexivity|]. repeat split; auto. }
  destruct H as (qs & has & Hex & H).
  destruct (has && EnableQuestions config) eqn:Hboth.
  - apply andb_prop in Hboth. destruct Hboth as [-> Hen].
    destruct H as (qs' & rest & Hask & H). cbv zeta in H.
    assert (Hqs : exists qs0, qs = Some qs0).
    { destruct (extractQuestions_shape content) as [E|(qs0 & _ & E)];
        rewrite E in Hex; inversion Hex; eauto. }
    destruct Hqs as [qs0 ->]. simpl elements in Hask.
    destruct (askUserQuestions_run qs0 w) as (qs1 & rest1 & Hask1 & Hlen & _).
    rewrite (Hask1 w eq_refl) in Hask. inversion Hask; subst qs1 rest1.
    pose proof (extractQuestions_length _ _ _ Hex) as H3. simpl in H3.
    destruct (anyAnswered qs') eqn:Hany.
    + rewrite H in Hrun. inversion Hrun; subst.
      exists [requestFor initial config;
              requestFor (followUpMessages initial qs') config], rest.
      split; [unfold afterSend; simpl; rewrite <- app_assoc; reflexivity|].
      split; [congruence|]. split; [discriminate|].
      right. right. exists content, qs0, qs', (mkWorld (network w) (sent w) rest).
      split; [reflexivity|]. split; [exact Hex|].
      split; [exact (Hask1 w eq_refl)|]. split; [reflexivity|].
      split; [lia|exact Hany].
    + destruct H as (d & _ & H). rewrite H in Hrun. inversion Hrun; subst.
      exists [requestFor initial config], rest.
      split; [reflexivity|]. split; [congruence|]. split; [discriminate|]. auto.
  - rewrite H in Hrun. inversion Hrun; subst.
    exists [requestFor initial config], (stdin w).
    split; [reflexivity|]. repeat split; auto.
Qed.


(** X1: when the round trip of the first request fails (the request cannot be
    sent, the body of the response cannot be read, or it is not the JSON of a
    response), each of the four API functions returns the empty string and an
    error that is the text of the failed step followed by the text of the
    underlying error; one request has been sent and nothing else has changed
    (no input is read, no second request is made). *)
Theorem transport_failures_are_reported (diff commits : string)
  (config : LLMConfig) (template : string) (w : World) (err step : string) :
  APIKey config <> EmptyString ->
  unsupportedValue (Temperature config) = None ->
  (firstOutcome w = SendFailed err /\ step = "failed to send request: ")
  \/ (firstOutcome w = ReadFailed err /\ step = "failed to read response: ")
  \/ (firstOutcome w = UnmarshalFailed err
      /\ step = "failed to unmarshal response: ") ->
  exists r1 r2 r3 r4,
    GenerateCommitMessage diff config template w
    = Ret (("", Some (step +:+ err)), afterSend w r1)
    /\ GeneratePRMessage commits config template w
       = Ret (("", Some (step +:+ err)), afterSend w r2)
    /\ Older.GenerateCommitMessage diff (older config) template w
       = Ret (("", Some (step +:+ err)), afterSend w r3)
    /\ Older.GeneratePRMessage commits (older config) template w
       = Ret (("", Some (step +:+ err)), afterSend w r4).
Proof.
  intros Hkey Henc Hfail.
  assert (Hans : answerOf (firstOutcome w) = ("", Some (step +:+ err))).
  { destruct Hfail as [[-> ->]|[[-> ->]|[-> ->]]]; reflexivity. }
  destruct (GenerateCommitMessage_eq diff config template w) as [m1 H1].
  destruct (Older_GenerateCommitMessage_eq diff config template w) as [m3 H3].
  destruct (Older_GeneratePRMessage_eq commits config template w) as [m4 H4].
  pose proof (GeneratePRMessage_run commits config template w Hkey Henc) as H2.
  cbv zeta in H2. rewrite Hans in H2.
  destruct (String.eqb_spec (APIKey config) "") as [E|_]; [contradiction|].
  rewrite Henc, Hans in H1, H3, H4. unfold trimmed in H1, H3, H4.
  simpl in H1, H3, H4.
  eexists _, _, _, _.
  split; [exact H1|]. split; [exact H2|]. split; [exact H3|exact H4].
Qed.

(** X2: when the temperature of the configuration is not a finite number,
    each of the four API functions returns the empty string and the error of
    the encoder, and sends no request: the world is as it was. *)
Theorem unencodable_temperature_sends_nothing (diff commits : string)
  (config : LLMConfig) (template : string) (w : World) (v : string) :
  APIKey config <> EmptyString ->
  unsupportedValue (Temperature config) = Some v ->
  let failure :=
    ("", Some ("failed to marshal request: json: unsupported value: " +:+ v)) in
  GenerateCommitMessage diff config template w = Ret (failure, w)
  /\ GeneratePRMessage commits config template w = Ret (failure, w)
  /\ Older.GenerateCommitMessage diff (older config) template w
     = Ret (failure, w)
  /\ Older.GeneratePRMessage commits (older config) template w
     = Ret (failure, w).
Proof.
  intros Hkey Henc failure.
  destruct (GenerateCommitMessage_eq diff config template w) as [m1 H1].
  destruct (Older_GenerateCommitMessage_eq diff config template w) as [m3 H3].
  destruct (Older_GeneratePRMessage_eq commits config template w) as [m4 H4].
  destruct (String.eqb_spec (APIKey config) "") as [E|_]; [contradiction|].
  rewrite Henc in H1, H3, H4.
  split; [exact H1|]. split; [|split; [exact H3|exact H4]].
  exact (GeneratePRMessage_unsupported _ _ _ _ v Hkey Henc).
Qed.

(** X3: every request that [GeneratePRMessage] or [GenerateCommitMessage]
    sends is a POST to the chat completions URL with a JSON content type,
    the API key of the configuration as bearer token, and the model, the
    temperature and the token limit of the configuration; the requests sent
    before are kept. *)
Theorem every_request_carries_the_config (diff commits : string)
  (config : LLMConfig) (template : string) (w : World) :
  (forall res w',
      GeneratePRMessage commits config template w = Ret (res, w') ->
      exists reqs,
        sent w' = sent w ++ reqs /\ Forall (carriesConfig config) reqs)
  /\ (forall res w',
         GenerateCommitMessage diff config template w = Ret (res, w') ->
         exists reqs,
           sent w' = sent w ++ reqs /\ Forall (carriesConfig config) reqs).
Proof.
  split; intros res w' Hrun.
  - destruct (GeneratePRMessage_world _ _ _ _ _ _ Hrun)
      as (reqs & left & -> & _ & _ & Hreqs).
    exists reqs. split; [reflexivity|].
    destruct Hreqs as [->|[->|(c & qs & qs' & wq & _ & _ & _ & -> & _)]];
      repeat constructor; apply requestFor_envelope.
  - destruct (GenerateCommitMessage_eq diff config template w) as [msgs H].
    rewrite H in Hrun.
    destruct (APIKey config =? "")%string.
    { inversion Hrun; subst. exists []. rewrite app_nil_r. auto. }
    destruct (unsupportedValue (Temperature config)).
    { inversion Hrun; subst. exists []. rewrite app_nil_r. auto. }
    inversion Hrun; subst. exists [requestFor msgs config].
    split; [reflexivity|]. repeat constructor; apply requestFor_envelope.
Qed.

(** X10: when [GeneratePRMessage] sends two requests, the first holds two
    messages and the second holds four messages and two more for each
    answered question: [4 + 2 * n] messages, where [n] is the number of the
    questions, extracted from the first response, to which the user gave an
    answer that is not empty; [n] is one, two or three. *)
Theorem second_call_message_count (commits : string) (config : LLMConfig)
  (template : string) (w : World) (res : string * error) (w' : World)
  (req1 req2 : HttpRequest) :
  GeneratePRMessage commits config template w = Ret (res, w') ->
  sent w' = sent w ++ [req1; req2] ->
  exists content qs questions' wq,
    answerOf (firstOutcome w) = (content, None)
    /\ extractQuestions content = Ret (Some qs, true)
    /\ askUserQuestions qs w = Ret (questions', wq)
    /\ length (Messages (Body req1)) = 2%nat
    /\ length (Messages (Body req2))
       = (4 + 2 * length (List.filter answered questions'))%nat
    /\ (1 <= length (List.filter answered questions') <= 3)%nat.
Proof.
  intros Hrun Hsent.
  destruct (GeneratePRMessage_world _ _ _ _ _ _ Hrun)
    as (reqs & left & -> & _ & _ & Hreqs).
  simpl in Hsent. apply app_inv_head in Hsent.
  destruct Hreqs
    as [->|[->|(c & qs & qs' & wq & Hans & Hex & Hask & -> & Hlen & Hany)]];
    try discriminate.
  inversion Hsent; subst. exists c, qs, qs', wq.
  split; [exact Hans|]. split; [exact Hex|]. split; [exact Hask|].
  split; [reflexivity|]. split.
  - unfold requestFor, newRequest, followUpMessages. cbn [Body Messages].
    rewrite !length_app, flat_map_asMessages_length. simpl. lia.
  - pose proof (anyAnswered_filter _ Hany).
    pose proof (filter_length_le answered qs'). lia.
Qed.

(** *** The prompts *)

(** A format that holds no verb is copied, and the arguments are reported
    as extra arguments. *)
Lemma fmtSprintf_noVerb (format a : string) (args : list string) :
  noVerb format = true ->
  fmtSprintf format (a :: args)
  = format +:+ "%!(EXTRA " +:+ extraArgs (a :: args) +:+ ")".
Proof.
  intros H. induction format as [|c format IH].
  - reflexivity.
  - simpl in H. apply andb_prop in H. destruct H as [Hc H].
    rewrite append_cons. simpl fmtSprintf.
    destruct (Ascii.eqb c "%"); [discriminate|].
    f_equal. exact (IH H).
Qed.

Lemma commitPrompt_eq (template : string) :
  fmtSprintf commitPromptFormat [template]
  = withoutFinalVerb commitPromptFormat +:+ template.
Proof.
  transitivity (fmtSprintf (withoutFinalVerb commitPromptFormat +:+ "%s")
                  [template]).
  - f_equal; vm_compute; reflexivity.
  - apply fmtSprintf_last; vm_compute; reflexivity.
Qed.

Lemma Older_commitPrompt_eq (template : string) :
  fmtSprintf Older.commitPromptFormat [template]
  = withoutFinalVerb Older.commitPromptFormat +:+ template.
Proof.
  transitivity (fmtSprintf (withoutFinalVerb Older.commitPromptFormat +:+ "%s")
                  [template]).
  - f_equal; vm_compute; reflexivity.
  - apply fmtSprintf_last; vm_compute; reflexivity.
Qed.

Lemma Older_prPrompt_eq (template : string) :
  fmtSprintf Older.prPromptFormat [template]
  = withoutFinalVerb Older.prPromptFormat +:+ template.
Proof.
  transitivity (fmtSprintf (withoutFinalVerb Older.prPromptFormat +:+ "%s")
                  [template]).
  - f_equal; vm_compute; reflexivity.
  - apply fmtSprintf_last; vm_compute; reflexivity.
Qed.

Lemma diffMessage_eq (diff : string) :
  fmtSprintf ("Here is the git diff:" +:+ nl +:+ nl +:+ "%s") [diff]
  = "Here is the git diff:" +:+ nl +:+ nl +:+ diff.
Proof.
  exact (fmtSprintf_last ("Here is the git diff:" +:+ nl +:+ nl) diff "s"
           eq_refl eq_refl).
Qed.

Lemma questionsPrompt_noVerb (enableQuestions : bool) :
  noVerb (getQuestionsPrompt enableQuestions) = true.
Proof. destruct enableQuestions; vm_compute; reflexivity. Qed.

(** X4: with a key and a temperature that can be encoded,
    [GenerateCommitMessage] sends one request whose messages are a system
    message, the text of the prompt followed by the template, and a user
    message, the heading of the diff followed by the diff: the template and
    the diff are copied as they are, whatever they hold (a [%] in them is not
    read as a verb).  The same holds of the earlier revision, with the text
    of its own prompt. *)
Theorem GenerateCommitMessage_sends_template_and_diff (diff : string)
  (config : LLMConfig) (template : string) (w : World) :
  APIKey config <> EmptyString ->
  unsupportedValue (Temperature config) = None ->
  let messagesOf := fun prompt =>
    [mkChatMessage "system" (withoutFinalVerb prompt +:+ template);
     mkChatMessage "user" ("Here is the git diff:" +:+ nl +:+ nl +:+ diff)] in
  GenerateCommitMessage diff config template w
  = Ret (trimmed (answerOf (firstOutcome w)),
         afterSend w (requestFor (messagesOf commitPromptFormat) config))
  /\ Older.GenerateCommitMessage diff (older config) template w
     = Ret (trimmed (answerOf (firstOutcome w)),
            afterSend w (requestFor (messagesOf Older.commitPromptFormat) config)).
Proof.
  intros Hkey Henc messagesOf. subst messagesOf. split.
  - unfold GenerateCommitMessage.
    destruct (String.eqb_spec (APIKey config) "") as [E|_]; [contradiction|].
    cbv zeta. rewrite inline_call. cbn [reqTemperature]. rewrite Henc.
    rewrite commitPrompt_eq, diffMessage_eq. reflexivity.
  - unfold Older.GenerateCommitMessage, older.
    cbn [Older.APIKey Older.Model Older.Temperature Older.MaxTokens].
    destruct (String.eqb_spec (APIKey config) "") as [E|_]; [contradiction|].
    cbv zeta. rewrite inline_call. cbn [reqTemperature]. rewrite Henc.
    rewrite Older_commitPrompt_eq, diffMessage_eq. reflexivity.
Qed.

(** X5: the system prompt of the first request of [GeneratePRMessage].  In
    the current revision [fmt.Sprintf] is given the questions prompt as its
    format and the text of the PR prompt and the template as its arguments:
    the format holds no verb, so the system prompt is the questions prompt
    (empty when questions are disabled) followed by the report of two extra
    arguments, which holds the text of the PR prompt with its two [%s] left
    as they are, and the template.  In the earlier revision it is the text
    of the PR prompt followed by the template. *)
Theorem GeneratePRMessage_system_prompt (commits : string)
  (config : LLMConfig) (template : string) (w : World) :
  APIKey config <> EmptyString ->
  unsupportedValue (Temperature config) = None ->
  let user :=
    mkChatMessage "user"
      ("Here are the commit messages from the branch:" +:+ nl +:+ nl +:+ commits) in
  (exists res w' req more,
      GeneratePRMessage commits config template w = Ret (res, w')
      /\ sent w' = sent w ++ req :: more
      /\ Messages (Body req)
         = [mkChatMessage "system"
              (getQuestionsPrompt (EnableQuestions config)
               +:+ "%!(EXTRA string=" +:+ prPromptText
               +:+ ", string=" +:+ template +:+ ")");
            user])
  /\ (exists res req,
         Older.GeneratePRMessage commits (older config) template w
         = Ret (res, afterSend w req)
         /\ Messages (Body req)
            = [mkChatMessage "system"
                 (withoutFinalVerb Older.prPromptFormat +:+ template);
               user]).
Proof.
  intros Hkey Henc user. split.
  - destruct (GeneratePRMessage_total commits config template w)
      as (res & w' & Hrun).
    destruct (GeneratePRMessage_world _ _ _ _ _ _ Hrun)
      as (reqs & k & Hw & _ & _ & Hreqs).
    assert (Hfirst : exists more,
               reqs = requestFor (initialMessages commits config template) config
                      :: more).
    { destruct Hreqs as [->|[->|(c & qs & qs' & wq & _ & _ & _ & -> & _)]];
        eauto.
      exfalso. subst w'.
      pose proof (GeneratePRMessage_run commits config template w Hkey Henc)
        as H. cbv zeta in H.
      assert (Hlen : length (sent w ++ []) <> length (sent w ++ [])); [|congruence].
      destruct (answerOf (firstOutcome w)) as [content [e|]].
      { rewrite H in Hrun. inversion Hrun as [[Hr Hs]].
        apply app_inv_head in Hs. discriminate. }
      destruct H as (qs & has & _ & H).
      destruct (has && EnableQuestions config).
      - destruct H as (qs' & rest & _ & H). cbv zeta in H.
        destruct (anyAnswered qs').
        + rewrite H in Hrun. inversion Hrun as [[Hr Hs Hin]].
          rewrite <- app_assoc in Hs. apply app_inv_head in Hs. discriminate.
        + destruct H as (d & _ & H). rewrite H in Hrun.
          inversion Hrun as [[Hr Hs Hin]].
          apply app_inv_head in Hs. discriminate.
      - rewrite H in Hrun. inversion Hrun as [[Hr Hs]].
        apply app_inv_head in Hs. discriminate. }
    destruct Hfirst as [more ->].
    exists res, w', (requestFor (initialMessages commits config template) config),
      more.
    split; [exact Hrun|]. split; [subst w'; reflexivity|].
    unfold requestFor, newRequest, initialMessages. cbn [Body Messages].
    rewrite (fmtSprintf_noVerb _ _ _ (questionsPrompt_noVerb _)).
    reflexivity.
  - unfold Older.GeneratePRMessage, older.
    cbn [Older.APIKey Older.Model Older.Temperature Older.MaxTokens].
    destruct (String.eqb_spec (APIKey config) "") as [E|_]; [contradiction|].
    cbv zeta. rewrite inline_call. cbn [reqTemperature]. rewrite Henc.
    rewrite Older_prPrompt_eq, commitsMessage_eq.
    eexists _, _. split; [reflexivity|]. reflexivity.
Qed.

(** X6: the two revisions of [GenerateCommitMessage] agree: on the same
    answers of the API both return the same value and send the same number
    of requests, one at most, and neither reads standard input. *)
Theorem GenerateCommitMessage_revisions_agree (diff : string)
  (config : LLMConfig) (template : string) (w : World) :
  exists res w1 w2,
    GenerateCommitMessage diff config template w = Ret (res, w1)
    /\ Older.GenerateCommitMessage diff (older config) template w
       = Ret (res, w2)
    /\ length (sent w1) = length (sent w2)
    /\ (length (sent w1) <= S (length (sent w)))%nat
    /\ stdin w1 = stdin w /\ stdin w2 = stdin w.
Proof.
  destruct (GenerateCommitMessage_eq diff config template w) as [m1 H1].
  destruct (Older_GenerateCommitMessage_eq diff config template w) as [m2 H2].
  rewrite H1, H2.
  destruct (APIKey config =? "")%string.
  { eexists _, _, _. repeat split; auto. }
  destruct (unsupportedValue (Temperature config)).
  { eexists _, _, _. repeat split; auto. }
  eexists _, _, _. split; [reflexivity|]. split; [reflexivity|].
  simpl. rewrite !length_app. simpl. repeat split; lia.
Qed.


(** *** The question loop as a recursion on the questions *)

Lemma alter_middle {A : Type} (f : A -> A) (done : list A) (q : A)
  (todo : list A) :
  alter f (length done) (done ++ q :: todo) = (done ++ [f q]) ++ todo.
Proof.
  rewrite <- (Nat.add_0_r (length done)), alter_app_r, <- app_assoc.
  reflexivity.
Qed.

Lemma length_snoc {A : Type} (done : list A) (q : A) :
  Z.of_nat (S (length done)) = Z.of_nat (length (done ++ [q])).
Proof. rewrite length_app. simpl. f_equal. lia. Qed.

(** The inner loop, from the end of [done] on: the questions that follow get
    the empty answer. *)
Lemma clearAnswers_exact :
  forall (todo done : list QuestionResponse) (fuel : nat),
    (length todo <= fuel)%nat ->
    clearAnswers fuel (done ++ todo) (Z.of_nat (length done))
    = Ret (done ++ map (setAnswer "") todo).
Proof.
  induction todo as [|q todo IH]; intros done fuel Hfuel.
  - simpl map. rewrite !app_nil_r.
    destruct fuel; simpl;
      (destruct (Z.ltb_spec (Z.of_nat (length done)) (Z.of_nat (length done)));
       [lia|reflexivity]).
  - destruct fuel as [|fuel]; [simpl in Hfuel; lia|]. simpl clearAnswers.
    destruct (Z.ltb_spec (Z.of_nat (length done))
                (Z.of_nat (length (done ++ q :: todo)))) as [_|Hge].
    2:{ rewrite length_app in Hge. simpl in Hge. lia. }
    rewrite storeAnswer_in_range by (rewrite length_app; simpl; lia).
    simpl run_bind. rewrite alter_middle.
    replace (Z.of_nat (length done) + 1) with (Z.of_nat (S (length done)))
      by lia.
    rewrite (length_snoc done (setAnswer "" q)).
    rewrite IH by (simpl in Hfuel; lia).
    rewrite <- app_assoc. reflexivity.
Qed.

(** The loop of [askUserQuestions], with the questions of [done] asked and
    those of [todo] to ask: the answers are those of the recursion on what
    the reader holds followed by standard input, and the reader and standard
    input hold together what the recursion leaves. *)
Lemma askLoop_refines :
  forall (todo done : list QuestionResponse) (reader : string) (w : World),
    exists reader' left,
      askLoop (length todo) (Z.of_nat (length done)) (done ++ todo) reader w
      = Ret ((done ++ fst (answerAll todo (reader +:+ stdin w)), reader'),
             mkWorld (network w) (sent w) left)
      /\ reader' +:+ left = snd (answerAll todo (reader +:+ stdin w)).
Proof.
  induction todo as [|q todo IH]; intros done reader w.
  - exists reader, (stdin w). simpl. unfold io_ret.
    destruct w; split; reflexivity.
  - change (length (q :: todo)) with (S (length todo)).
    simpl answerAll.
    destruct (readUntil newline (reader +:+ stdin w)) as [line rest] eqn:Hline.
    destruct (readString_line _ _ _ _ Hline)
      as (reader1 & input1 & Hrs & Hsplit).
    rewrite (askLoop_step _ _ _ q _ _ _ _ _
               ltac:(apply list_lookup_middle; reflexivity) Hrs).
    cbv zeta. fold (skipWord (stringsTrimSpace line)).
    rewrite alter_middle.
    rewrite (length_snoc done (setAnswer (stringsTrimSpace line) q)).
    destruct (skipWord (stringsTrimSpace line)).
    + rewrite clearAnswers_exact.
      2:{ rewrite length_app. lia. }
      exists reader1, input1. rewrite <- app_assoc. split; [reflexivity|].
      exact Hsplit.
    + destruct (IH (done ++ [setAnswer (stringsTrimSpace line) q]) reader1
                  (mkWorld (network w) (sent w) input1))
        as (r' & left & E & Hleft).
      simpl stdin in E, Hleft. simpl network in E. simpl sent in E.
      rewrite Hsplit in E, Hleft.
      exists r', left. rewrite E.
      destruct (answerAll todo rest) as [rest' input'].
      rewrite <- app_assoc. split; [reflexivity|exact Hleft].
Qed.

Lemma askUserQuestions_refines (questions : list QuestionResponse) (w : World) :
  exists ahead left,
    askUserQuestions questions w
    = Ret (fst (answerAll questions (stdin w)),
           mkWorld (network w) (sent w) left)
    /\ ahead +:+ left = snd (answerAll questions (stdin w)).
Proof.
  destruct (askLoop_refines questions [] EmptyString w)
    as (r' & left & E & Hleft).
  change (EmptyString +:+ stdin w) with (stdin w) in E, Hleft.
  exists r', left. split; [|exact Hleft].
  unfold askUserQuestions, io_bind. cbv zeta.
  change (Z.of_nat (length (@nil QuestionResponse))) with 0 in E.
  change ([] ++ questions) with questions in E. rewrite E. reflexivity.
Qed.

(** As long as no line is a skip word, each question takes its line. *)
Lemma answerAll_prefix :
  forall (pre post : list QuestionResponse) (input : string)
         (lines : list string) (rest : string),
    readLines (length pre) input = (lines, rest) ->
    noSkipWord lines = true ->
    answerAll (pre ++ post) input
    = (zip_with answeredBy pre lines ++ fst (answerAll post rest),
       snd (answerAll post rest)).
Proof.
  induction pre as [|q pre IH]; intros post input lines rest Hread Hno.
  - simpl in Hread. inversion Hread; subst.
    simpl. destruct (answerAll post rest); reflexivity.
  - change (length (q :: pre)) with (S (length pre)) in Hread.
    rewrite readLines_S in Hread. simpl answerAll.
    destruct (readUntil newline input) as [line r1].
    destruct (readLines (length pre) r1) as [ls r2] eqn:Hls.
    inversion Hread; subst lines rest.
    simpl in Hno. apply andb_prop in Hno. destruct Hno as [Hline Hno].
    apply negb_true_iff in Hline. rewrite Hline.
    rewrite (IH post r1 ls r2 Hls Hno). reflexivity.
Qed.

Lemma answerAll_no_skip (questions : list QuestionResponse) (input : string)
  (lines : list string) (rest : string) :
  readLines (length questions) input = (lines, rest) ->
  noSkipWord lines = true ->
  answerAll questions input = (zip_with answeredBy questions lines, rest).
Proof.
  intros Hread Hno.
  pose proof (answerAll_prefix questions [] input lines rest Hread Hno) as H.
  rewrite !app_nil_r in H. exact H.
Qed.

(** The answers are read off the first lines of the input, one line for each
    question at most. *)
Lemma answerAll_lines :
  forall (questions : list QuestionResponse) (n : nat) (input1 input2 : string),
    (length questions <= n)%nat ->
    fst (readLines n input2) = fst (readLines n input1) ->
    fst (answerAll questions input2) = fst (answerAll questions input1).
Proof.
  induction questions as [|q questions IH]; intros n input1 input2 Hn Hlines;
    [reflexivity|].
  destruct n as [|n]; [simpl in Hn; lia|].
  rewrite !readLines_S in Hlines. simpl answerAll.
  destruct (readUntil newline input1) as [line1 rest1].
  destruct (readUntil newline input2) as [line2 rest2].
  pose proof (IH n rest1 rest2 ltac:(simpl in Hn; lia)) as Hrest.
  destruct (readLines n rest1) as [lines1 r1].
  destruct (readLines n rest2) as [lines2 r2].
  simpl in Hlines. inversion Hlines; subst line2 lines2.
  destruct (skipWord (stringsTrimSpace line1)); [reflexivity|].
  specialize (Hrest eq_refl).
  destruct (answerAll questions rest1), (answerAll questions rest2).
  simpl in *. f_equal. exact Hrest.
Qed.

Lemma anyAnswered_app (a b : list QuestionResponse) :
  anyAnswered (a ++ b) = anyAnswered a || anyAnswered b.
Proof.
  induction a as [|q a IH]; [reflexivity|]. simpl.
  destruct (negb (Answer q =? "")%string); [reflexivity|exact IH].
Qed.

Lemma filter_cleared (post : list QuestionResponse) :
  List.filter answered (map (setAnswer "") post) = [].
Proof. induction post as [|q post IH]; [reflexivity|exact IH]. Qed.

Lemma skipWord_not_empty (answer : string) :
  stringsToLower EmptyString = EmptyString ->
  skipWord answer = true -> (answer =? "")%string = false.
Proof.
  intros Hlower Hskip. destruct (String.eqb_spec answer "") as [->|]; [|reflexivity].
  unfold skipWord in Hskip. rewrite Hlower in Hskip. discriminate.
Qed.

Lemma allBlank_noSkipWord (lines : list string) :
  stringsToLower EmptyString = EmptyString ->
  allBlank lines = true -> noSkipWord lines = true.
Proof.
  intros Hlower. induction lines as [|line lines IH]; [reflexivity|].
  simpl. intros H. apply andb_prop in H. destruct H as [Hline H].
  apply String.eqb_eq in Hline. rewrite Hline, (IH H).
  unfold skipWord. rewrite Hlower. reflexivity.
Qed.

Lemma allBlank_unanswered :
  forall (questions : list QuestionResponse) (lines : list string),
    allBlank lines = true ->
    anyAnswered (zip_with answeredBy questions lines) = false.
Proof.
  induction questions as [|q questions IH]; intros [|line lines] H;
    try reflexivity.
  simpl in H. apply andb_prop in H. destruct H as [Hline H].
  simpl. rewrite Hline. simpl. exact (IH lines H).
Qed.

(** [GeneratePRMessage] when the questions are asked, by the answers read:
    [left] is what standard input holds afterwards, an end of what follows
    the lines of the answers. *)
Lemma GeneratePRMessage_asked (commits : string) (config : LLMConfig)
  (template : string) (w : World) (content : string)
  (qs : list QuestionResponse) :
  APIKey config <> EmptyString ->
  unsupportedValue (Temperature config) = None ->
  EnableQuestions config = true ->
  answerOf (firstOutcome w) = (content, None) ->
  extractQuestions content = Ret (Some qs, true) ->
  let initial := initialMessages commits config template in
  let questions' := fst (answerAll qs (stdin w)) in
  exists ahead left,
    ahead +:+ left = snd (answerAll qs (stdin w))
    /\ if anyAnswered questions'
       then
         GeneratePRMessage commits config template w
         = Ret (trimmed (answerOf (secondOutcome w)),
                mkWorld (network w)
                  (sent w
                   ++ [requestFor initial config;
                       requestFor (followUpMessages initial questions') config])
                  left)
       else
         exists d,
           extractPRDescription content = Ret d
           /\ GeneratePRMessage commits config template w
              = Ret ((stringsTrimSpace d, None),
                     mkWorld (network w) (sent w ++ [requestFor initial config])
                       left).
Proof.
  intros Hkey Henc Hen Hans Hex initial questions'.
  pose proof (GeneratePRMessage_run commits config template w Hkey Henc) as H.
  cbv zeta in H. rewrite Hans in H. destruct H as (qs0 & has & Hex' & H).
  rewrite Hex in Hex'. inversion Hex'; subst qs0 has. rewrite Hen in H.
  simpl in H. destruct H as (qs1 & rest1 & Hask & H).
  destruct (askUserQuestions_refines qs w) as (ahead & left & Hask' & Hleft).
  rewrite Hask' in Hask. inversion Hask; subst qs1 rest1.
  exists ahead, left. split; [exact Hleft|].
  fold questions' initial in H. destruct (anyAnswered questions').
  - rewrite H. unfold afterSend. simpl. rewrite <- app_assoc. reflexivity.
  - exact H.
Qed.

(** X7: the result of [GeneratePRMessage] and the requests that it sends
    depend on standard input through its first three lines only: on two
    worlds with the same network and the same requests sent, whose inputs
    have the same first three lines, it returns the same value and has sent
    the same requests.  It leaves the network as it was, and standard input
    as it was when [EnableQuestions] is false or when it sends no request. *)
Theorem GeneratePRMessage_uses_three_lines_at_most (commits : string)
  (config : LLMConfig) (template : string) (w1 w2 : World) :
  network w2 = network w1 ->
  sent w2 = sent w1 ->
  fst (readLines 3 (stdin w2)) = fst (readLines 3 (stdin w1)) ->
  exists res w1' w2',
    GeneratePRMessage commits config template w1 = Ret (res, w1')
    /\ GeneratePRMessage commits config template w2 = Ret (res, w2')
    /\ sent w2' = sent w1'
    /\ network w1' = network w1
    /\ (EnableQuestions config = false -> stdin w1' = stdin w1)
    /\ (sent w1' = sent w1 -> stdin w1' = stdin w1).
Proof.
  intros Hnet Hsent Hlines.
  destruct (String.eqb_spec (APIKey config) "") as [Hkey|Hkey].
  { rewrite !(GeneratePRMessage_no_key _ _ _ _ Hkey).
    eexists _, _, _. repeat split; auto. }
  destruct (unsupportedValue (Temperature config)) as [v|] eqn:Henc.
  { rewrite !(GeneratePRMessage_unsupported _ _ _ _ v Hkey Henc).
    eexists _, _, _. repeat split; auto. }
  pose proof (GeneratePRMessage_run commits config template w1 Hkey Henc) as H1.
  pose proof (GeneratePRMessage_run commits config template w2 Hkey Henc) as H2.
  cbv zeta in H1, H2.
  assert (Hfirst : firstOutcome w2 = firstOutcome w1)
    by (unfold firstOutcome; rewrite Hnet, Hsent; reflexivity).
  assert (Hsecond : secondOutcome w2 = secondOutcome w1)
    by (unfold secondOutcome; rewrite Hnet, Hsent; reflexivity).
  rewrite Hfirst, Hsecond in H2. unfold afterSend in H1, H2.
  rewrite Hnet, Hsent in H2.
  assert (Hgrow : forall (l more : list HttpRequest) (a : HttpRequest),
             l ++ a :: more = l -> False).
  { intros l more a E. symmetry in E. apply app_two_length in E.
    discriminate. }
  destruct (answerOf (firstOutcome w1)) as [content [e|]].
  { rewrite H1, H2. eexists _, _, _. split; [reflexivity|].
    split; [reflexivity|]. repeat split; auto. }
  destruct H1 as (qs & has & Hex & H1). destruct H2 as (qs2 & has2 & Hex2 & H2).
  rewrite Hex in Hex2. inversion Hex2; subst qs2 has2.
  destruct (has && EnableQuestions config) eqn:Hboth.
  - apply andb_prop in Hboth. destruct Hboth as [_ Hen].
    destruct H1 as (q1 & rest1 & Hask1 & H1).
    destruct H2 as (q2 & rest2 & Hask2 & H2). cbv zeta in H1, H2.
    destruct (askUserQuestions_refines (elements qs) w1) as (a1 & l1 & E1 & _).
    destruct (askUserQuestions_refines (elements qs) w2) as (a2 & l2 & E2 & _).
    rewrite E1 in Hask1. rewrite E2 in Hask2.
    assert (Hq1 : q1 = fst (answerAll (elements qs) (stdin w1))) by congruence.
    assert (Hq2 : q2 = fst (answerAll (elements qs) (stdin w2))) by congruence.
    assert (Hsame : q2 = q1).
    { rewrite Hq1, Hq2.
      exact (answerAll_lines _ 3 _ _ (extractQuestions_length _ _ _ Hex)
               Hlines). }
    clear Hq1 Hq2 Hask1 Hask2 E1 E2. subst q2.
    destruct (anyAnswered q1).
    + rewrite H1, H2. eexists _, _, _. split; [reflexivity|].
      split; [reflexivity|]. simpl. split; [reflexivity|].
      split; [reflexivity|]. split; [congruence|].
      rewrite <- app_assoc. intros E. exfalso. exact (Hgrow _ _ _ E).
    + destruct H1 as (d & Hd & H1). destruct H2 as (d2 & Hd2 & H2).
      rewrite Hd in Hd2. inversion Hd2; subst d2.
      rewrite H1, H2. eexists _, _, _. split; [reflexivity|].
      split; [reflexivity|]. simpl. split; [reflexivity|].
      split; [reflexivity|]. split; [congruence|].
      intros E. exfalso. exact (Hgrow _ _ _ E).
  - rewrite H1, H2. eexists _, _, _. split; [reflexivity|].
    split; [reflexivity|]. repeat split; auto.
Qed.

(** X8: [askUserQuestions], a loop over indices that updates the questions
    in place, always returns and gives the answers of the recursion
    [answerAll] on the list of the questions: each question takes the next
    line of standard input, trimmed, as its answer; at the first answer that
    is a skip word the questions that follow get the empty answer and no
    more line is taken.  What standard input holds afterwards is an end of
    the input that the recursion leaves: the reader may have read [ahead] of
    the lines it delivered, and what it holds is dropped with it. *)
Theorem askUserQuestions_answers_in_order (questions : list QuestionResponse)
  (w : World) :
  exists ahead left,
    askUserQuestions questions w
    = Ret (fst (answerAll questions (stdin w)),
           mkWorld (network w) (sent w) left)
    /\ ahead +:+ left = snd (answerAll questions (stdin w)).
Proof. exact (askUserQuestions_refines questions w). Qed.

(** X9: when no line of the answers is a skip word, [askUserQuestions] gives
    the question at index [i] the trimmed line number [i] of standard input
    as its answer (the empty answer for a blank line), one line for each
    question; what standard input holds afterwards is an end of the input
    [rest] that follows these lines. *)
Theorem every_question_takes_its_line (questions : list QuestionResponse)
  (w : World) (lines : list string) (rest : string) :
  readLines (length questions) (stdin w) = (lines, rest) ->
  noSkipWord lines = true ->
  exists ahead left,
    askUserQuestions questions w
    = Ret (zip_with answeredBy questions lines,
           mkWorld (network w) (sent w) left)
    /\ ahead +:+ left = rest.
Proof.
  intros Hread Hno.
  destruct (askUserQuestions_refines questions w) as (ahead & left & E & Hleft).
  rewrite (answerAll_no_skip _ _ _ _ Hread Hno) in E, Hleft.
  exists ahead, left. split; [exact E|exact Hleft].
Qed.

(** X11: when the user leaves every question blank (each line taken trims to
    the empty text, as at the end of the input), [GeneratePRMessage] makes
    no second request: it has sent the first request only and returns
    without an error the trimmed [extractPRDescription] of the first
    response; this is the empty description when the response holds nothing
    but the questions.  What standard input holds afterwards is an end of
    the input that follows one line for each question. *)
Theorem blank_answers_make_no_second_request (commits : string)
  (config : LLMConfig) (template : string) (w : World) (content : string)
  (qs : list QuestionResponse) :
  stringsToLower EmptyString = EmptyString ->
  APIKey config <> EmptyString ->
  unsupportedValue (Temperature config) = None ->
  EnableQuestions config = true ->
  answerOf (firstOutcome w) = (content, None) ->
  extractQuestions content = Ret (Some qs, true) ->
  allBlank (fst (readLines (length qs) (stdin w))) = true ->
  exists d ahead left,
    extractPRDescription content = Ret d
    /\ GeneratePRMessage commits config template w
       = Ret ((stringsTrimSpace d, None),
              mkWorld (network w)
                (sent w ++ [requestFor (initialMessages commits config template)
                              config])
                left)
    /\ ahead +:+ left = snd (readLines (length qs) (stdin w))
    /\ (onlyQuestions content = true -> stringsTrimSpace d = EmptyString).
Proof.
  intros Hlower Hkey Henc Hen Hans Hex Hblank.
  destruct (GeneratePRMessage_asked commits config template w content qs
              Hkey Henc Hen Hans Hex) as (ahead & left & Hleft & H).
  destruct (readLines (length qs) (stdin w)) as [lines rest] eqn:Hread.
  simpl in Hblank. simpl snd.
  rewrite (answerAll_no_skip _ _ _ _ Hread
             (allBlank_noSkipWord _ Hlower Hblank)) in H, Hleft.
  simpl in H, Hleft. rewrite (allBlank_unanswered qs lines Hblank) in H.
  destruct H as (d & Hd & H). exists d, ahead, left. split; [exact Hd|].
  split; [exact H|]. split; [exact Hleft|]. intros Honly.
  destruct (extractPRDescription_cases content)
    as [[_ E]|[(Hq & _)|(Hq & _)]]; try congruence.
  rewrite E in Hd. inversion Hd. reflexivity.
Qed.

(** X12: a skip word is itself sent as an answer.  When the questions before
    the question [q] are answered by lines that are no skip words and the
    line taken for [q] trims to a skip word, [GeneratePRMessage] asks no
    more question and makes its second request, whose messages close with
    the question [q], the trimmed line as the answer of the user to it, and
    the final instruction; the questions after [q] are not in it.  What
    standard input holds afterwards is an end of the input [rest] that
    follows the line of the skip word. *)
Theorem skip_word_is_sent_as_the_answer (commits : string)
  (config : LLMConfig) (template : string) (w : World) (content : string)
  (pre : list QuestionResponse) (q : QuestionResponse)
  (post : list QuestionResponse) (lines : list string)
  (rest1 line rest : string) :
  stringsToLower EmptyString = EmptyString ->
  APIKey config <> EmptyString ->
  unsupportedValue (Temperature config) = None ->
  EnableQuestions config = true ->
  answerOf (firstOutcome w) = (content, None) ->
  extractQuestions content = Ret (Some (pre ++ q :: post), true) ->
  readLines (length pre) (stdin w) = (lines, rest1) ->
  noSkipWord lines = true ->
  readUntil newline rest1 = (line, rest) ->
  skipWord (stringsTrimSpace line) = true ->
  let initial := initialMessages commits config template in
  exists ahead left,
    GeneratePRMessage commits config template w
    = Ret (trimmed (answerOf (secondOutcome w)),
           mkWorld (network w)
             (sent w
              ++ [requestFor initial config;
                  requestFor
                    (initial
                     ++ [mkChatMessage "assistant"
                           "I need some additional information to write a better PR description."]
                     ++ flat_map asMessages
                          (List.filter answered (zip_with answeredBy pre lines))
                     ++ [mkChatMessage "assistant" (Question q);
                         mkChatMessage "user" (stringsTrimSpace line);
                         mkChatMessage "user"
                           "Now that you have this additional information, please generate a comprehensive PR description using the template provided earlier."])
                    config])
             left)
    /\ ahead +:+ left = rest.
Proof.
  intros Hlower Hkey Henc Hen Hans Hex Hread Hno Hline Hskip initial.
  destruct (GeneratePRMessage_asked commits config template w content _
              Hkey Henc Hen Hans Hex) as (ahead & left & Hleft & H).
  rewrite (answerAll_prefix _ _ _ _ _ Hread Hno) in H, Hleft.
  simpl answerAll in H, Hleft. rewrite Hline, Hskip in H, Hleft.
  simpl fst in H. simpl snd in Hleft.
  pose proof (skipWord_not_empty _ Hlower Hskip) as Hne.
  assert (Hq : answered (answeredBy q line) = true).
  { unfold answered, answeredBy. simpl. rewrite Hne. reflexivity. }
  rewrite anyAnswered_app in H. simpl anyAnswered in H.
  change (Answer (answeredBy q line)) with (stringsTrimSpace line) in H.
  rewrite Hne in H. simpl negb in H. cbv iota in H.
  rewrite orb_true_r in H. exists ahead, left. split; [|exact Hleft].
  rewrite H. fold initial.
  unfold followUpMessages. rewrite List.filter_app. simpl List.filter.
  rewrite Hq, filter_cleared, flat_map_app. simpl flat_map.
  rewrite <- !app_assoc. reflexivity.
Qed.

(** X13: the questions that [extractQuestions] returns are the [Questions]
    that the decoder reads from the payload, the first three of them at
    most and in their order, each with an empty [Answer]: none counts as
    answered before the user is asked. *)
Theorem extracted_questions_are_unanswered (response : string)
  (qs : list QuestionResponse) :
  extractQuestions response = Ret (Some qs, true) ->
  exists payload questions,
    questionsJSON response = Ret (Some payload)
    /\ jsonUnmarshalQuestions payload = Some questions
    /\ map Question qs = take 3 questions
    /\ Forall (fun q => Answer q = EmptyString) qs
    /\ anyAnswered qs = false.
Proof.
  unfold extractQuestions.
  destruct (questionsJSON response) as [[payload|]| |]; simpl; try discriminate.
  destruct (decodeQuestions_cases payload) as [(questions & Hq & _ & ->)|[_ ->]];
    intros H; inversion H; subst qs.
  exists payload, questions. split; [reflexivity|]. split; [exact Hq|].
  generalize (take 3 questions). intros l. split; [|split].
  - induction l as [|a l IH]; [reflexivity|]. simpl. f_equal. exact IH.
  - induction l as [|a l IH]; constructor; [reflexivity|exact IH].
  - induction l as [|a l IH]; [reflexivity|exact IH].
Qed.


(** *** Trimmed texts *)

Lemma dropSpaces_length_le :
  forall (n : nat) (l : list ascii),
    (length l <= n)%nat -> (length (dropSpaces l) <= length l)%nat.
Proof.
  induction n as [|n IH]; intros [|a r1] H; simpl in H; try (simpl; lia).
  simpl dropSpaces.
  destruct (asciiSpace a).
  { pose proof (IH r1 ltac:(lia)). simpl. lia. }
  destruct r1 as [|b r2]; [lia|]. simpl in H.
  destruct (space2 a b).
  { pose proof (IH r2 ltac:(lia)). simpl. lia. }
  destruct r2 as [|c r3]; [lia|]. simpl in H.
  destruct (space3 a b c); [|lia].
  pose proof (IH r3 ltac:(lia)). simpl. lia.
Qed.

(** A sequence from which nothing is dropped keeps this when it is cut
    short. *)
Lemma dropSpaces_cons (a : ascii) (r1 : list ascii) :
  dropSpaces (a :: r1)
  = if asciiSpace a then dropSpaces r1
    else match r1 with
         | b :: r2 =>
             if space2 a b then dropSpaces r2
             else match r2 with
                  | c :: r3 =>
                      if space3 a b c then dropSpaces r3 else a :: r1
                  | [] => a :: r1
                  end
         | [] => a :: r1
         end.
Proof. reflexivity. Qed.

Lemma dropSpaces_prefix (p q : list ascii) :
  dropSpaces (p ++ q) = p ++ q -> dropSpaces p = p.
Proof.
  intros H.
  assert (Hlen : forall l r, dropSpaces l = r -> (length r <= length l)%nat).
  { intros l r <-. exact (dropSpaces_length_le _ l (le_n _)). }
  destruct p as [|a [|b [|c r3]]]; [reflexivity|..]; simpl app in H;
    rewrite dropSpaces_cons in H |- *; cbv beta iota in H |- *;
    (destruct (asciiSpace a);
     [apply Hlen in H; simpl in H; lia|]); try reflexivity;
    (destruct (space2 a b);
     [apply Hlen in H; simpl in H; lia|]); try reflexivity.
  destruct (space3 a b c); [|reflexivity].
  apply Hlen in H. simpl in H. rewrite length_app in H. lia.
Qed.

Lemma dropSpaces_fixed :
  forall (n : nat) (l : list ascii),
    (length l <= n)%nat -> dropSpaces (dropSpaces l) = dropSpaces l.
Proof.
  induction n as [|n IH]; intros [|a r1] H; simpl in H; try reflexivity;
    try lia.
  simpl dropSpaces at 2 3.
  destruct (asciiSpace a) eqn:Ea; [apply IH; lia|].
  destruct r1 as [|b r2]; [simpl; rewrite Ea; reflexivity|].
  destruct (space2 a b) eqn:Eb; [apply IH; simpl in H; lia|].
  destruct r2 as [|c r3]; [simpl; rewrite Ea, Eb; reflexivity|].
  destruct (space3 a b c) eqn:Ec; [apply IH; simpl in H; lia|].
  simpl. rewrite Ea, Eb, Ec. reflexivity.
Qed.

Lemma dropSpacesRev_fixed :
  forall (n : nat) (l : list ascii),
    (length l <= n)%nat -> dropSpacesRev (dropSpacesRev l) = dropSpacesRev l.
Proof.
  induction n as [|n IH]; intros [|a r1] H; simpl in H; try reflexivity;
    try lia.
  simpl dropSpacesRev at 2 3.
  destruct (asciiSpace a) eqn:Ea; [apply IH; lia|].
  destruct r1 as [|b r2]; [simpl; rewrite Ea; reflexivity|].
  destruct (space2 b a) eqn:Eb; [apply IH; simpl in H; lia|].
  destruct r2 as [|c r3]; [simpl; rewrite Ea, Eb; reflexivity|].
  destruct (space3 c b a) eqn:Ec; [apply IH; simpl in H; lia|].
  simpl. rewrite Ea, Eb, Ec. reflexivity.
Qed.

(** What [dropSpacesRev] returns is the end of what it is given. *)
Lemma dropSpacesRev_suffix :
  forall (n : nat) (l : list ascii),
    (length l <= n)%nat -> exists dropped, l = dropped ++ dropSpacesRev l.
Proof.
  induction n as [|n IH]; intros [|a r1] H; simpl in H;
    try (exists []; reflexivity); try lia.
  simpl dropSpacesRev.
  destruct (asciiSpace a).
  { destruct (IH r1 ltac:(lia)) as [d Hd]. exists (a :: d). simpl.
    f_equal. exact Hd. }
  destruct r1 as [|b r2]; [exists []; reflexivity|].
  destruct (space2 b a).
  { destruct (IH r2 ltac:(simpl in H; lia)) as [d Hd]. exists (a :: b :: d).
    simpl. do 2 f_equal. exact Hd. }
  destruct r2 as [|c r3]; [exists []; reflexivity|].
  destruct (space3 c b a); [|exists []; reflexivity].
  destruct (IH r3 ltac:(simpl in H; lia)) as [d Hd]. exists (a :: b :: c :: d).
  simpl. do 3 f_equal. exact Hd.
Qed.

(** [strings.TrimSpace] leaves a trimmed text as it is. *)
Lemma stringsTrimSpace_trimmed (s : string) :
  stringsTrimSpace (stringsTrimSpace s) = stringsTrimSpace s.
Proof.
  unfold stringsTrimSpace.
  pose proof (dropSpaces_fixed _ (list_ascii_of_string s) (le_n _)) as Hfix.
  generalize dependent (dropSpaces (list_ascii_of_string s)). intros l1 Hfix.
  rewrite list_ascii_of_string_of_list_ascii.
  destruct (dropSpacesRev_suffix _ (rev l1) (le_n _)) as [dropped Hd].
  assert (Hl1 : l1 = rev (dropSpacesRev (rev l1)) ++ rev dropped).
  { rewrite <- rev_app_distr, <- Hd, rev_involutive. reflexivity. }
  rewrite Hl1 in Hfix.
  rewrite (dropSpaces_prefix _ _ Hfix), rev_involutive.
  rewrite (dropSpacesRev_fixed _ (rev l1) (le_n _)). reflexivity.
Qed.

Lemma trimmed_fst (a : string * error) :
  stringsTrimSpace (fst (trimmed a)) = fst (trimmed a).
Proof.
  unfold trimmed. destruct (snd a); simpl fst.
  - reflexivity.
  - apply stringsTrimSpace_trimmed.
Qed.

(** X14: what the API functions return is trimmed: the text returned by
    [GenerateCommitMessage] and [GeneratePRMessage], in both revisions and
    on every path (the empty text that comes with an error included), is
    left as it is by [strings.TrimSpace]: no white space begins or ends
    it. *)
Theorem results_are_trimmed (diff commits : string) (config : LLMConfig)
  (template : string) (w : World) (res : string * error) (w' : World) :
  GenerateCommitMessage diff config template w = Ret (res, w')
  \/ GeneratePRMessage commits config template w = Ret (res, w')
  \/ Older.GenerateCommitMessage diff (older config) template w = Ret (res, w')
  \/ Older.GeneratePRMessage commits (older config) template w = Ret (res, w') ->
  stringsTrimSpace (fst res) = fst res.
Proof.
  assert (Hone : forall messages,
             (if (APIKey config =? "")%string
              then Ret (("", Some keyNotFound), w)
              else match unsupportedValue (Temperature config) with
                   | Some v =>
                       Ret (("", Some ("failed to marshal request: json: unsupported value: "
                                       +:+ v)), w)
                   | None =>
                       Ret (trimmed (answerOf (firstOutcome w)),
                            afterSend w (requestFor messages config))
                   end) = Ret (res, w') ->
             stringsTrimSpace (fst res) = fst res).
  { intros messages H. destruct (APIKey config =? "")%string.
    { inversion H. reflexivity. }
    destruct (unsupportedValue (Temperature config)).
    { inversion H. reflexivity. }
    inversion H. apply trimmed_fst. }
  intros [H|[H|[H|H]]].
  - destruct (GenerateCommitMessage_eq diff config template w) as [m E].
    rewrite E in H. exact (Hone m H).
  - first_request commits config template w Hkey Henc Hrun.
    { inversion H. reflexivity. }
    { inversion H. reflexivity. }
    destruct (answerOf (firstOutcome w)) as [content [e|]].
    { rewrite Hrun in H. inversion H. reflexivity. }
    destruct Hrun as (qs & has & _ & Hrun).
    destruct (has && EnableQuestions config).
    + destruct Hrun as (qs' & rest & _ & Hrun). cbv zeta in Hrun.
      destruct (anyAnswered qs').
      * rewrite Hrun in H. inversion H. apply trimmed_fst.
      * destruct Hrun as (d & _ & Hrun). rewrite Hrun in H. inversion H.
        apply stringsTrimSpace_trimmed.
    + rewrite Hrun in H. inversion H. apply stringsTrimSpace_trimmed.
  - destruct (Older_GenerateCommitMessage_eq diff config template w) as [m E].
    rewrite E in H. exact (Hone m H).
  - destruct (Older_GeneratePRMessage_eq commits config template w) as [m E].
    rewrite E in H. exact (Hone m H).
Qed.

(** *** The text around the payload *)

Lemma around_payload (s : string) (start e : nat) :
  (start <= e < String.length s)%nat ->
  s = substring 0 start s +:+ fromTo s start e
      +:+ substring (S e) (String.length s - S e) s.
Proof.
  intros H. unfold fromTo.
  rewrite <- (substring_all s) at 1.
  replace (String.length s)
    with (start + ((S e - start) + (String.length s - S e)))%nat at 1 by lia.
  rewrite substring_split, substring_split. simpl Nat.add.
  replace (start + (S e - start))%nat with (S e) by lia. reflexivity.
Qed.

(** X15: [extractPRDescription] cuts out the payload that [extractQuestions]
    decodes, when the counter of braces delimits it.  For a response that
    does not begin with the questions, with [payload] the text that
    [extractQuestions] hands to the decoder: the response is some text, the
    payload, some text, and the description is these two texts, each
    trimmed, joined by a blank line when neither is empty; or the counter of
    braces never comes back to zero (the payload was cut at the first
    closing brace) and the description is the whole response, the payload
    still in it. *)
Theorem description_cuts_the_payload (response payload : string) :
  onlyQuestions response = false ->
  questionsJSON response = Ret (Some payload) ->
  (exists before after,
      response = before +:+ payload +:+ after
      /\ extractPRDescription response
         = Ret (joinParagraphs (stringsTrimSpace before)
                  (stringsTrimSpace after)))
  \/ ((exists start, firstOccurrence questionsMarker response start
                     /\ counterNeverReturns response start)
      /\ extractPRDescription response = Ret response).
Proof.
  intros Hq Hjson.
  destruct (extractPRDescription_cases response)
    as [[Hq' _]|[(_ & Hwhy & E)|(_ & start & e & Hfirst & Hret & E)]].
  - congruence.
  - right. split; [|exact E]. destruct Hwhy as [Hno|Hnever]; [|exact Hnever].
    rewrite (questionsJSON_no_marker _ Hno) in Hjson. discriminate.
  - left. rewrite (questionsJSON_counted _ _ _ Hfirst Hret) in Hjson.
    inversion Hjson; subst payload.
    exists (substring 0 start response),
      (substring (S e) (String.length response - S e) response).
    split; [|exact E]. apply around_payload. exact (proj1 Hret).
Qed.

(** *** The configuration *)

Lemma NewLLMConfig_defaults (load : Process -> error * Process) (p : Process) :
  Model (fst (NewLLMConfig load p)) = "gpt-4"
  /\ Temperature (fst (NewLLMConfig load p)) = 0x1.6666666666666p-1%float
  /\ MaxTokens (fst (NewLLMConfig load p)) = 1000
  /\ EnableQuestions (fst (NewLLMConfig load p)) = false.
Proof.
  unfold NewLLMConfig. cbv zeta. cbn [APIKey Model Temperature MaxTokens
    EnableQuestions].
  destruct (osGetenv "OPENAI_KEY" p =? "")%string; [|repeat split].
  destruct (load p) as [[e|] p']; repeat split.
Qed.

(** X16: the configuration that [NewLLMConfig] builds, for every
    [godotenv.Load].  The model is [gpt-4], the temperature 0.7, the token
    limit 1000, and questions are disabled.  When the environment holds a
    value of [OPENAI_KEY] that is not empty, this is the key and the [.env]
    file is not loaded; otherwise the file is loaded and the key is what
    the environment holds for [OPENAI_KEY] afterwards, or is empty when
    loading fails.  The two revisions build the same configuration and
    leave the same process. *)
Theorem NewLLMConfig_resolves_the_key (load : Process -> error * Process)
  (p : Process) :
  let config := fst (NewLLMConfig load p) in
  let p' := snd (NewLLMConfig load p) in
  (Model config = "gpt-4"
   /\ Temperature config = 0x1.6666666666666p-1%float
   /\ MaxTokens config = 1000
   /\ EnableQuestions config = false)
  /\ (osGetenv "OPENAI_KEY" p <> EmptyString ->
      APIKey config = osGetenv "OPENAI_KEY" p /\ p' = p)
  /\ (osGetenv "OPENAI_KEY" p = EmptyString ->
      p' = snd (load p)
      /\ APIKey config = match fst (load p) with
                         | None => osGetenv "OPENAI_KEY" (snd (load p))
                         | Some _ => EmptyString
                         end)
  /\ Older.NewLLMConfig load p = (older config, p').
Proof.
  intros config p'. split; [exact (NewLLMConfig_defaults load p)|].
  subst config p'. unfold NewLLMConfig, Older.NewLLMConfig, older. cbv zeta.
  cbn [APIKey Model Temperature MaxTokens EnableQuestions Older.APIKey
       Older.Model Older.Temperature Older.MaxTokens].
  destruct (String.eqb_spec (osGetenv "OPENAI_KEY" p) "") as [E|E].
  - destruct (load p) as [[e|] q]; simpl; rewrite ?E;
      (split; [intros H; contradiction|]); (split; [|reflexivity]);
      intros _; split; reflexivity.
  - simpl. split; [intros _; split; reflexivity|].
    split; [intros H; contradiction|reflexivity].
Qed.

(** X17: with the configuration of [NewLLMConfig] as it is built, no
    question is ever asked: [GeneratePRMessage] reads nothing from standard
    input and sends one request at most; it never fails to encode the
    request; without a key it returns the key error and sends nothing, and
    with a key it sends the first request and returns what the answer to it
    gives, trimmed, questions or not. *)
Theorem default_configuration_asks_no_question
  (load : Process -> error * Process) (p : Process) (commits template : string)
  (w : World) :
  let config := fst (NewLLMConfig load p) in
  exists res w',
    GeneratePRMessage commits config template w = Ret (res, w')
    /\ stdin w' = stdin w
    /\ (APIKey config = EmptyString ->
        res = ("", Some keyNotFound) /\ sent w' = sent w)
    /\ (APIKey config <> EmptyString ->
        res = trimmed (answerOf (firstOutcome w))
        /\ sent w'
           = sent w ++ [requestFor (initialMessages commits config template)
                          config]).
Proof.
  intros config.
  destruct (NewLLMConfig_defaults load p) as (_ & Ht & _ & Hoff).
  fold config in Ht, Hoff.
  assert (Henc : unsupportedValue (Temperature config) = None).
  { rewrite Ht. vm_compute. reflexivity. }
  destruct (String.eqb_spec (APIKey config) "") as [Hkey|Hkey].
  - rewrite (GeneratePRMessage_no_key _ _ _ _ Hkey). eexists _, _.
    split; [reflexivity|]. split; [reflexivity|].
    split; [auto|]. intros H. contradiction.
  - rewrite (GeneratePRMessage_plain _ _ _ _ Hkey Henc (or_introl Hoff)).
    eexists _, _. split; [reflexivity|]. split; [reflexivity|].
    split; [intros H; contradiction|]. intros _. split; reflexivity.
Qed.

(** *** [formatQuestionsAndAnswers] *)

Lemma questionLine_eq (n : Z) (question : string) :
  fmtSprintfAny ("Question %d: %s" +:+ nl) [ArgInt n; ArgString question]
  = "Question " +:+ formatInt n +:+ ": " +:+ question +:+ nl.
Proof. reflexivity. Qed.

Lemma answerLine_eq (answer : string) :
  fmtSprintfAny ("Answer: %s" +:+ nl +:+ nl) [ArgString answer]
  = "Answer: " +:+ answer +:+ nl +:+ nl.
Proof. reflexivity. Qed.

Lemma formatLoop_cons (i : Z) (qa : QuestionResponse)
  (rest : list QuestionResponse) (sb : string) :
  formatLoop i (qa :: rest) sb
  = formatLoop (i + 1) rest
      ((sb +:+ fmtSprintfAny ("Question %d: %s" +:+ nl)
                 [ArgInt (i + 1); ArgString (Question qa)])
       +:+ fmtSprintfAny ("Answer: %s" +:+ nl +:+ nl) [ArgString (Answer qa)]).
Proof. reflexivity. Qed.

Lemma formatLoop_snoc :
  forall (qas : list QuestionResponse) (i : Z) (sb : string)
         (qa : QuestionResponse),
    formatLoop i (qas ++ [qa]) sb
    = formatLoop i qas sb +:+ numberedBlock (i + Z.of_nat (length qas) + 1) qa.
Proof.
  induction qas as [|q qas IH]; intros i sb qa.
  - change ([] ++ [qa]) with [qa]. rewrite formatLoop_cons.
    rewrite questionLine_eq, answerLine_eq.
    change (formatLoop (i + 1) [] ?x) with x.
    change (formatLoop i [] sb) with sb.
    change (Z.of_nat (length (@nil QuestionResponse))) with 0.
    rewrite Z.add_0_r. unfold numberedBlock. rewrite !append_assoc.
    reflexivity.
  - change ((q :: qas) ++ [qa]) with (q :: (qas ++ [qa])).
    rewrite !formatLoop_cons, IH. do 2 f_equal.
    change (length (q :: qas)) with (S (length qas)). lia.
Qed.

(** X18: [formatQuestionsAndAnswers] writes its heading and then one block
    for each question, in their order and numbered from 1: the line of the
    question with its number and the line of the answer, each text copied
    as it is, and a blank line.  One more question at the end adds its
    block, with the next number, to what was formatted without it. *)
Theorem formatQuestionsAndAnswers_appends_blocks
  (qas : list QuestionResponse) (qa : QuestionResponse) :
  formatQuestionsAndAnswers []
  = "Here are my answers to your questions:" +:+ nl +:+ nl
  /\ formatQuestionsAndAnswers (qas ++ [qa])
     = formatQuestionsAndAnswers qas
       +:+ "Question " +:+ formatInt (Z.of_nat (length qas) + 1) +:+ ": "
       +:+ Question qa +:+ nl +:+ "Answer: " +:+ Answer qa +:+ nl +:+ nl.
Proof.
  split; [reflexivity|]. unfold formatQuestionsAndAnswers.
  rewrite formatLoop_snoc. reflexivity.
Qed.


(** *** [makeOpenAIRequest] on its own *)

(** X19: [makeOpenAIRequest] does not look at the API key and does not trim.
    For every configuration whose temperature can be encoded, the one with
    an empty key included, it sends exactly one request, which holds the
    messages it was given and carries the configuration (the bearer token is
    then empty); and when the answer is a decoded response with no error and
    a choice, it returns the content of the first choice as the API gave
    it, white space included. *)
Theorem makeOpenAIRequest_checks_no_key (messages : list ChatMessage)
  (config : LLMConfig) (w : World) :
  unsupportedValue (Temperature config) = None ->
  exists req res,
    makeOpenAIRequest messages config w = Ret (res, afterSend w req)
    /\ Messages (Body req) = messages
    /\ carriesConfig config req
    /\ (APIKey config = EmptyString ->
        Header req = [("Content-Type", "application/json");
                      ("Authorization", "Bearer ")])
    /\ (forall r choice others,
          firstOutcome w = Decoded r -> Error r = None ->
          Choices r = choice :: others ->
          res = (Content choice, None)).
Proof.
  intros Henc.
  exists (requestFor messages config), (answerOf (firstOutcome w)).
  split; [exact (makeOpenAIRequest_sent _ _ _ Henc)|].
  split; [reflexivity|]. split; [exact (requestFor_envelope messages config)|].
  split.
  - intros Hkey. destruct (requestFor_envelope messages config)
      as (_ & _ & Hh & _). rewrite Hh, Hkey. reflexivity.
  - intros r choice others Hr He Hc. unfold answerOf.
    rewrite Hr, He, Hc. reflexivity.
Qed.

(** *** What follows the payload *)

Lemma get_append_head (a b : string) :
  forall n, (n < String.length a)%nat ->
            String.get n (a +:+ b) = String.get n a.
Proof.
  induction a as [|c a IH]; intros n H; simpl in H; [lia|].
  rewrite append_cons. destruct n as [|n]; [reflexivity|].
  simpl. apply IH. lia.
Qed.

Lemma substring_append_head (a b : string) :
  forall n m, (n + m <= String.length a)%nat ->
              substring n m (a +:+ b) = substring n m a.
Proof.
  induction a as [|c a IH]; intros n m H; simpl in H.
  - assert (n = 0 /\ m = 0)%nat as [-> ->] by lia.
    rewrite substring_zero. reflexivity.
  - rewrite append_cons. destruct n as [|n].
    + destruct m as [|m]; [reflexivity|]. simpl. f_equal. apply IH. lia.
    + simpl. apply IH. lia.
Qed.

Lemma braceCounter_append_head (a b : string) (start : nat) :
  forall k, (start + k <= String.length a)%nat ->
            braceCounter (a +:+ b) start k = braceCounter a start k.
Proof.
  induction k as [|k IH]; intros H; [reflexivity|].
  simpl. rewrite IH by lia. rewrite get_append_head by lia. reflexivity.
Qed.

Lemma firstOccurrence_append_head (sub a b : string) (start : nat) :
  (0 < String.length sub)%nat ->
  firstOccurrence sub a start -> firstOccurrence sub (a +:+ b) start.
Proof.
  intros Hsub [Hocc Hfirst].
  pose proof (occursAt_bound _ _ _ Hsub Hocc) as Hb. split.
  - unfold occursAt. rewrite substring_append_head by lia. exact Hocc.
  - intros m Hm H. apply (Hfirst m Hm). unfold occursAt in *.
    rewrite substring_append_head in H by lia. exact H.
Qed.

Lemma counterReturnsAt_append_head (a b : string) (start e : nat) :
  counterReturnsAt a start e -> counterReturnsAt (a +:+ b) start e.
Proof.
  intros (Hr & Hz & Hfirst). split; [|split].
  - rewrite append_length. lia.
  - unfold counterAt. rewrite braceCounter_append_head by lia. exact Hz.
  - intros e' He'. unfold counterAt.
    rewrite braceCounter_append_head by lia. exact (Hfirst e' He').
Qed.

(** X20: what follows the payload is not read.  When the counter of braces
    delimits a payload in a response, [extractQuestions] returns the same
    questions for the response cut after the closing brace of the payload
    and followed by any other text: a second questions object later in the
    response is never looked at. *)
Theorem text_after_the_payload_is_not_read (response : string)
  (start e : nat) (other : string) :
  firstOccurrence questionsMarker response start ->
  counterReturnsAt response start e ->
  extractQuestions (substring 0 (S e) response +:+ other)
  = extractQuestions response.
Proof.
  intros Hfirst Hret.
  assert (Hpos : (0 < String.length questionsMarker)%nat)
    by (vm_compute; lia).
  pose proof (occursAt_bound _ _ _ Hpos (proj1 Hfirst)) as Hb.
  destruct Hret as (Hr & Hz & Hbefore).
  set (head := substring 0 (S e) response).
  assert (Hlen : String.length head = S e).
  { unfold head. rewrite substring_length. lia. }
  assert (Hget : forall n, (n <= e)%nat ->
                           String.get n head = String.get n response).
  { intros n Hn. unfold head.
    rewrite (substring_correct1 response 0 (S e) n) by lia.
    rewrite Nat.add_0_r. reflexivity. }
  assert (Hsub : forall n m, (n + m <= S e)%nat ->
                             substring n m head = substring n m response).
  { intros n m Hnm.
    rewrite (around_payload response 0 e ltac:(lia)).
    unfold fromTo. rewrite Nat.sub_0_r. fold head.
    rewrite substring_zero.
    change (EmptyString +:+ ?x) with x.
    rewrite substring_append_head by lia. reflexivity. }
  assert (Hcount : forall k, (start + k <= S e)%nat ->
                             braceCounter head start k
                             = braceCounter response start k).
  { induction k as [|k IH]; intros Hk; [reflexivity|].
    simpl. rewrite IH by lia. rewrite Hget by lia. reflexivity. }
  assert (Hmarker : (start + String.length questionsMarker <= S e)%nat).
  { destruct (Nat.le_gt_cases (start + String.length questionsMarker) (S e))
      as [H|H]; [exact H|exfalso].
    assert (Hno : forall k, (start + k <= S e)%nat -> (1 <= k)%nat ->
                            braceCounter response start k = 1).
    { induction k as [|k IH]; intros Hk H1; [lia|]. simpl.
      destruct k as [|k].
      - simpl. rewrite Nat.add_0_r.
        rewrite (occursAt_marker_brace _ _ (proj1 Hfirst)). reflexivity.
      - rewrite IH by lia.
        replace (start + S k)%nat with (S k + start)%nat by lia.
        rewrite (occursAt_get _ _ _ (S k) (proj1 Hfirst)) by lia.
        assert (Hk13 : (S k < 13)%nat).
        { change (String.length questionsMarker) with 13%nat in H. lia. }
        do 13 (destruct k as [|k]; [vm_compute; reflexivity|]). lia. }
    unfold counterAt in Hz. rewrite Hno in Hz by lia. discriminate. }
  assert (Hfirst' : firstOccurrence questionsMarker head start).
  { destruct Hfirst as [Hocc Hnone]. split.
    - unfold occursAt. rewrite Hsub by lia. exact Hocc.
    - intros m Hm H. apply (Hnone m Hm). unfold occursAt in *.
      rewrite Hsub in H by lia. exact H. }
  assert (Hret' : counterReturnsAt head start e).
  { split; [lia|]. split.
    - unfold counterAt. rewrite Hcount by lia. exact Hz.
    - intros e' He'. unfold counterAt. rewrite Hcount by lia.
      exact (Hbefore e' He'). }
  unfold extractQuestions.
  rewrite (questionsJSON_counted _ _ _
             (firstOccurrence_append_head _ _ other _ Hpos Hfirst')
             (counterReturnsAt_append_head _ other _ _ Hret')).
  rewrite (questionsJSON_counted _ _ _ Hfirst (conj Hr (conj Hz Hbefore))).
  unfold fromTo. rewrite substring_append_head by lia.
  rewrite Hsub by lia. reflexivity.
Qed.

End Program.

(** ** The model at work

    The properties above at the sample inputs, with [Json.Unmarshal] as the
    JSON decoder, [asciiToLower] as [strings.ToLower] and [readAvailable] as
    the reads of standard input (a file or a pipe), and the inputs at
    which the claims that had to be amended fail as they were stated. *)

Lemma firstOccurrence_of_index (s sub : string) (n : nat) :
  stringsIndex s sub = Z.of_nat n -> firstOccurrence sub s n.
Proof.
  intros H.
  destruct (stringsIndex_found s sub ltac:(lia)) as (m & Hm & Hfirst).
  assert (m = n) by lia. subst m. exact Hfirst.
Qed.

Lemma noClosingBraceFrom_of_index (s : string) (start : nat) :
  stringsIndex (substring start (String.length s - start) s) "}" = -1 ->
  noClosingBraceFrom s start.
Proof.
  intros E e He Hc.
  apply (stringsIndex_missing _ "}" ltac:(discriminate) E (e - start)%nat).
  apply occursAt_byte. rewrite get_tail.
  replace (e - start + start)%nat with e by lia. exact Hc.
Qed.

Lemma firstClosingBraceAt_of_index (s : string) (start n : nat) :
  stringsIndex (substring start (String.length s - start) s) "}" = Z.of_nat n ->
  firstClosingBraceAt s start (n + start).
Proof.
  intros E. destruct (firstOccurrence_of_index _ _ _ E) as [Hocc Hfirst].
  split; [lia|]. split.
  - apply occursAt_byte in Hocc. rewrite get_tail in Hocc. exact Hocc.
  - intros e' He' Hc. apply (Hfirst (e' - start)%nat); [lia|].
    apply occursAt_byte. rewrite get_tail.
    replace (e' - start + start)%nat with e' by lia. exact Hc.
Qed.

(** The counter never comes back to zero in the two payloads whose question
    holds an opening brace. *)
Lemma braceInQuestion_never : counterNeverReturns braceInQuestion 0.
Proof. apply findClosingBrace_none; vm_compute; reflexivity. Qed.

Lemma notedBraceInQuestion_never : counterNeverReturns notedBraceInQuestion 6.
Proof. apply findClosingBrace_none; vm_compute; reflexivity. Qed.

(** C1, at a response with text around a payload of two questions. *)
Lemma extractQuestions_reports_iff_witness :
  exists result,
    extractQuestions Json.Unmarshal twoQuestions = Ret result
    /\ (result = (None, false)
        \/ exists qs, qs <> [] /\ result = (Some qs, true))
    /\ (snd result = true <->
        exists payload questions,
          delimitedPayload twoQuestions payload
          /\ Json.Unmarshal payload = Some questions
          /\ questions <> []).
Proof.
  apply (extractQuestions_reports_iff Json.Unmarshal twoQuestions).
  vm_compute. reflexivity.
Defined.

(** C1 as it was stated fails on a payload whose question holds an opening
    brace: the counter never comes back to zero, so that no payload is
    delimited by it, and [extractQuestions] reports the question all the
    same, having cut the payload at the first closing brace. *)
Lemma extractQuestions_reports_uncounted_payload :
  extractQuestions Json.Unmarshal braceInQuestion
  = Ret (Some [mkQuestionResponse "Why {?" ""], true)
  /\ ~ (exists payload questions,
           countedPayload braceInQuestion payload
           /\ Json.Unmarshal payload = Some questions
           /\ questions <> []).
Proof.
  split; [vm_compute; reflexivity|].
  intros (payload & questions & (start & e & Hfirst & Hret & _) & _).
  assert (start = 0)%nat.
  { apply (firstOccurrence_unique questionsMarker braceInQuestion);
      [exact Hfirst|].
    apply firstOccurrence_of_index. vm_compute. reflexivity. }
  subst start.
  exact (counterReturnsAt_not_never _ _ _ Hret braceInQuestion_never).
Qed.

(** C6, at the payload that the fallback cuts and at the payload that no
    closing brace follows. *)
Lemma extract_functions_total_witness :
  ((23 < String.length braceInQuestion)%nat
   /\ questionsJSON braceInQuestion = Ret (Some (fromTo braceInQuestion 0 23)))
  /\ extractQuestions Json.Unmarshal cutPayload = Ret (None, false).
Proof.
  split.
  - apply (proj1 (proj2 (proj2
             (extract_functions_total Json.Unmarshal braceInQuestion)))).
    + apply firstOccurrence_of_index. vm_compute. reflexivity.
    + exact braceInQuestion_never.
    + apply (firstClosingBraceAt_of_index braceInQuestion 0 23).
      vm_compute. reflexivity.
  - apply (proj2 (proj2 (proj2
             (extract_functions_total Json.Unmarshal cutPayload)))
             ltac:(vm_compute; reflexivity) 4%nat).
    + apply firstOccurrence_of_index. vm_compute. reflexivity.
    + apply noClosingBraceFrom_of_index. vm_compute. reflexivity.
Defined.

(** C6 as it was stated fails in its last clause: the scan finds no matching
    closing brace in this response, and [extractQuestions] does not return
    [nil] and [false]. *)
Lemma extractQuestions_answers_without_match :
  firstOccurrence questionsMarker notedBraceInQuestion 6
  /\ counterNeverReturns notedBraceInQuestion 6
  /\ findClosingBrace (String.length notedBraceInQuestion)
       notedBraceInQuestion 6 0 = Ret (-1)
  /\ extractQuestions Json.Unmarshal notedBraceInQuestion
     = Ret (Some [mkQuestionResponse "Why {?" ""], true).
Proof.
  split; [apply firstOccurrence_of_index; vm_compute; reflexivity|].
  split; [exact notedBraceInQuestion_never|].
  split; vm_compute; reflexivity.
Qed.


(** C10, at three questions whose second answer is [Skip All]: the third
    line is not delivered; read from a file, it is in the reader when the
    loop is left, and standard input is at its end. *)
Lemma skip_all_stops_the_questions_witness :
  exists questions' w',
    askUserQuestions asciiToLower readAvailable threeQuestions
      (freshWorld "" ""
         ("yes" +:+ nl +:+ " Skip All " +:+ nl +:+ "ignored" +:+ nl))
    = Ret (questions', w')
    /\ stdin w' = EmptyString
    /\ (exists reader',
          askLoop asciiToLower readAvailable (length threeQuestions) 0
            threeQuestions EmptyString
            (freshWorld "" ""
               ("yes" +:+ nl +:+ " Skip All " +:+ nl +:+ "ignored" +:+ nl))
          = Ret ((questions', reader'), w')
          /\ reader' +:+ stdin w' = "ignored" +:+ nl)
    /\ (forall j a, (j <= 1)%nat ->
          ["yes" +:+ nl; " Skip All " +:+ nl] !! j = Some a ->
          Answer <$> questions' !! j = Some (stringsTrimSpace a))
    /\ (forall k q, (1 < k)%nat -> questions' !! k = Some q ->
                    Answer q = EmptyString)
    /\ anyAnswered questions' = true.
Proof.
  destruct (skip_all_stops_the_questions asciiToLower readAvailable
              threeQuestions
              (freshWorld "" ""
                 ("yes" +:+ nl +:+ " Skip All " +:+ nl +:+ "ignored" +:+ nl))
              1 ["yes" +:+ nl; " Skip All " +:+ nl] ("ignored" +:+ nl))
    as (questions' & w' & Hrun & Hloop & Hrest).
  - reflexivity.
  - simpl. lia.
  - vm_compute. reflexivity.
  - intros j a Hj Ha. assert (j = 0)%nat by lia. subst j.
    inversion Ha. vm_compute. reflexivity.
  - intros a Ha. inversion Ha. vm_compute. reflexivity.
  - exists questions', w'. split; [exact Hrun|]. split; [|split; assumption].
    vm_compute in Hrun. inversion Hrun. reflexivity.
Defined.

(** C2, at a run where the first response asks two questions and the user
    answers the first: two requests. *)
Lemma GeneratePRMessage_requests_witness :
  exists res w' reqs,
    GeneratePRMessage Json.Unmarshal asciiToLower readAvailable "fix: a" sampleConfig "T"
      (freshWorld twoQuestions " final " ("yes" +:+ nl +:+ nl))
    = Ret (res, w')
    /\ sent w' = [] ++ reqs
    /\ (length reqs <= 2)%nat
    /\ (1 <= length reqs)%nat
    /\ (length reqs = 2%nat <->
        wantsFollowUp Json.Unmarshal asciiToLower readAvailable sampleConfig
          (freshWorld twoQuestions " final " ("yes" +:+ nl +:+ nl)))
    /\ (length reqs = 2%nat -> res = ("final", None)).
Proof.
  destruct (GeneratePRMessage_requests Json.Unmarshal asciiToLower readAvailable "fix: a"
              sampleConfig "T"
              (freshWorld twoQuestions " final " ("yes" +:+ nl +:+ nl)))
    as (res & w' & reqs & Hrun & Hsent & Hle & Hkey & _).
  destruct (Hkey ltac:(discriminate) ltac:(reflexivity)) as (Hone & Hiff & Hres).
  exists res, w', reqs. split; [exact Hrun|]. split; [exact Hsent|].
  split; [exact Hle|]. split; [exact Hone|]. split; [exact Hiff|].
  intros Htwo. rewrite (Hres Htwo). vm_compute. reflexivity.
Defined.

(** C2 as it was stated fails without an API key, and with a temperature
    that JSON cannot encode: the execution returns an error and issues no
    request at all. *)
Lemma GeneratePRMessage_may_issue_no_request :
  GeneratePRMessage Json.Unmarshal asciiToLower readAvailable "fix: a" noKeyConfig "T"
    (freshWorld twoQuestions " final " EmptyString)
  = Ret (("", Some keyNotFound), freshWorld twoQuestions " final " EmptyString)
  /\ GeneratePRMessage Json.Unmarshal asciiToLower readAvailable "fix: a" nanConfig "T"
       (freshWorld twoQuestions " final " EmptyString)
     = Ret (("", Some "failed to marshal request: json: unsupported value: NaN"),
            freshWorld twoQuestions " final " EmptyString)
  /\ sent (freshWorld twoQuestions " final " EmptyString) = [].
Proof. repeat split; vm_compute; reflexivity. Qed.

(** C3, at the same run: the second request replays the first and adds the
    answered question. *)
Lemma second_call_replays_context_witness :
  exists content qs questions' wq,
    answerOf (firstOutcome (freshWorld twoQuestions " final "
                              ("yes" +:+ nl +:+ nl)))
    = (content, None)
    /\ extractQuestions Json.Unmarshal content = Ret (Some qs, true)
    /\ askUserQuestions asciiToLower readAvailable qs
         (freshWorld twoQuestions " final " ("yes" +:+ nl +:+ nl))
       = Ret (questions', wq)
    /\ Messages (Body (requestFor (initialMessages "fix: a" sampleConfig "T")
                         sampleConfig))
       = initialMessages "fix: a" sampleConfig "T"
    /\ Messages (Body (requestFor
                         (followUpMessages
                            (initialMessages "fix: a" sampleConfig "T")
                            [mkQuestionResponse "Why?" "yes";
                             mkQuestionResponse "Which issue?" ""])
                         sampleConfig))
       = followUpMessages
           (Messages (Body (requestFor
                              (initialMessages "fix: a" sampleConfig "T")
                              sampleConfig)))
           questions'.
Proof.
  eapply (second_call_replays_context Json.Unmarshal asciiToLower readAvailable "fix: a"
            sampleConfig "T"
            (freshWorld twoQuestions " final " ("yes" +:+ nl +:+ nl))).
  - vm_compute. reflexivity.
  - vm_compute. reflexivity.
Defined.

(** C4, at a run where the user answers none of the two questions. *)
Lemma unanswered_questions_use_first_response_witness :
  exists d wf,
    extractPRDescription twoQuestions = Ret d
    /\ GeneratePRMessage Json.Unmarshal asciiToLower readAvailable "fix: a" sampleConfig "T"
         (freshWorld twoQuestions " final " (nl +:+ nl))
       = Ret ((stringsTrimSpace d, None), wf)
    /\ sent wf
       = [] ++ [requestFor (initialMessages "fix: a" sampleConfig "T")
                  sampleConfig].
Proof.
  apply (proj1 (unanswered_questions_use_first_response Json.Unmarshal
                  asciiToLower readAvailable)
           "fix: a"%string sampleConfig "T"%string
           (freshWorld twoQuestions " final " (nl +:+ nl)) twoQuestions
           [mkQuestionResponse "Why?" ""; mkQuestionResponse "Which issue?" ""]
           [mkQuestionResponse "Why?" ""; mkQuestionResponse "Which issue?" ""]
           (freshWorld twoQuestions " final " EmptyString)).
  - discriminate.
  - reflexivity.
  - reflexivity.
  - reflexivity.
  - vm_compute. reflexivity.
  - vm_compute. reflexivity.
  - reflexivity.
Defined.

(** C4 as it was stated fails when [extractPRDescription] returns the whole
    response: [GeneratePRMessage] trims it before it returns it. *)
Lemma GeneratePRMessage_trims_the_description :
  exists d res w',
    extractPRDescription spacedBraceInQuestion = Ret d
    /\ GeneratePRMessage Json.Unmarshal asciiToLower readAvailable "fix: a" sampleConfig "T"
         (freshWorld spacedBraceInQuestion " final " nl)
       = Ret ((res, None), w')
    /\ d = spacedBraceInQuestion
    /\ res <> d.
Proof.
  eexists _, _, _. split; [vm_compute; reflexivity|].
  split; [vm_compute; reflexivity|]. split; [reflexivity|].
  vm_compute. discriminate.
Qed.

(** C5, at a decoded response with one choice and questions disabled. *)
Lemma api_functions_report_errors_witness :
  exists reqc reqp,
    GenerateCommitMessage "diff" plainConfig "T"
      (freshWorld twoQuestions " final " EmptyString)
    = Ret ((stringsTrimSpace twoQuestions, None),
           afterSend (freshWorld twoQuestions " final " EmptyString) reqc)
    /\ GeneratePRMessage Json.Unmarshal asciiToLower readAvailable "fix: a" plainConfig "T"
         (freshWorld twoQuestions " final " EmptyString)
       = Ret ((stringsTrimSpace twoQuestions, None),
              afterSend (freshWorld twoQuestions " final " EmptyString) reqp).
Proof.
  destruct (proj2 (proj2 (proj2
              (api_functions_report_errors Json.Unmarshal asciiToLower readAvailable
                 "diff" "fix: a" plainConfig "T"
                 (freshWorld twoQuestions " final " EmptyString))))
              ltac:(discriminate) ltac:(reflexivity)
              (mkChatResponse [mkChatMessage "assistant" twoQuestions] None)
              ltac:(reflexivity))
    as (reqc & reqp & _ & _ & H).
  destruct (H (mkChatMessage "assistant" twoQuestions) [] eq_refl eq_refl)
    as [Hc Hp].
  exists reqc, reqp. split; [exact Hc|]. apply Hp. left. reflexivity.
Defined.

(** C5 as it was stated fails for [GeneratePRMessage] when questions are
    enabled and extracted: the response is decoded, holds no error and one
    choice, and the result is not the trimmed content of that choice. *)
Lemma GeneratePRMessage_result_is_not_the_first_content :
  exists res w',
    firstOutcome (freshWorld twoQuestions " final " (nl +:+ nl))
    = Decoded (mkChatResponse [mkChatMessage "assistant" twoQuestions] None)
    /\ GeneratePRMessage Json.Unmarshal asciiToLower readAvailable "fix: a" sampleConfig "T"
         (freshWorld twoQuestions " final " (nl +:+ nl))
       = Ret ((res, None), w')
    /\ res = "Draft." +:+ nl +:+ nl +:+ "Thanks."
    /\ res <> stringsTrimSpace twoQuestions.
Proof.
  eexists _, _. split; [reflexivity|]. split; [vm_compute; reflexivity|].
  split; [reflexivity|]. vm_compute. discriminate.
Qed.

(** C7, at a decoded response with one choice. *)
Lemma variants_agree_without_questions_witness :
  exists res w1 w2,
    GeneratePRMessage Json.Unmarshal asciiToLower readAvailable "fix: a" plainConfig "T"
      (freshWorld twoQuestions " final " EmptyString)
    = Ret (res, w1)
    /\ Older.GeneratePRMessage "fix: a" (older plainConfig) "T"
         (freshWorld twoQuestions " final " EmptyString)
       = Ret (res, w2)
    /\ length (sent w1) = 1%nat /\ length (sent w2) = 1%nat
    /\ res = (stringsTrimSpace twoQuestions, None).
Proof.
  destruct (variants_agree_without_questions Json.Unmarshal asciiToLower readAvailable
              "fix: a" plainConfig "T"
              (freshWorld twoQuestions " final " EmptyString) eq_refl)
    as (res & w1 & w2 & H1 & H2 & Hlen & _ & Hkey).
  destruct (Hkey ltac:(discriminate) ltac:(reflexivity)) as [Hone Hres].
  exists res, w1, w2. split; [exact H1|]. split; [exact H2|].
  split; [exact Hone|]. split; [rewrite <- Hlen; exact Hone|].
  exact (Hres _ eq_refl).
Defined.

(** X1, at a world where no request can be sent. *)
Lemma transport_failures_are_reported_witness :
  exists r1 r2 r3 r4,
    GenerateCommitMessage "diff" sampleConfig "T" offlineWorld
    = Ret (("", Some ("failed to send request: "
                      +:+ "dial tcp: no route to host")),
           afterSend offlineWorld r1)
    /\ GeneratePRMessage Json.Unmarshal asciiToLower readAvailable "fix: a" sampleConfig "T"
         offlineWorld
       = Ret (("", Some ("failed to send request: "
                         +:+ "dial tcp: no route to host")),
              afterSend offlineWorld r2)
    /\ Older.GenerateCommitMessage "diff" (older sampleConfig) "T" offlineWorld
       = Ret (("", Some ("failed to send request: "
                         +:+ "dial tcp: no route to host")),
              afterSend offlineWorld r3)
    /\ Older.GeneratePRMessage "fix: a" (older sampleConfig) "T" offlineWorld
       = Ret (("", Some ("failed to send request: "
                         +:+ "dial tcp: no route to host")),
              afterSend offlineWorld r4).
Proof.
  apply (transport_failures_are_reported Json.Unmarshal asciiToLower readAvailable).
  - discriminate.
  - reflexivity.
  - left. split; reflexivity.
Defined.

(** X2, at a configuration whose temperature is not a number. *)
Lemma unencodable_temperature_sends_nothing_witness :
  GenerateCommitMessage "diff" nanConfig "T" offlineWorld
  = Ret (("", Some ("failed to marshal request: json: unsupported value: "
                    +:+ "NaN")), offlineWorld)
  /\ GeneratePRMessage Json.Unmarshal asciiToLower readAvailable "fix: a" nanConfig "T"
       offlineWorld
     = Ret (("", Some ("failed to marshal request: json: unsupported value: "
                       +:+ "NaN")), offlineWorld)
  /\ Older.GenerateCommitMessage "diff" (older nanConfig) "T" offlineWorld
     = Ret (("", Some ("failed to marshal request: json: unsupported value: "
                       +:+ "NaN")), offlineWorld)
  /\ Older.GeneratePRMessage "fix: a" (older nanConfig) "T" offlineWorld
     = Ret (("", Some ("failed to marshal request: json: unsupported value: "
                       +:+ "NaN")), offlineWorld).
Proof.
  apply (unencodable_temperature_sends_nothing Json.Unmarshal asciiToLower readAvailable
           "diff" "fix: a" nanConfig "T" offlineWorld "NaN").
  - discriminate.
  - reflexivity.
Defined.

(** X4, at a template and a diff that hold a [%]. *)
Lemma GenerateCommitMessage_sends_template_and_diff_witness :
  GenerateCommitMessage "+ 100%d" sampleConfig "## %s"
    (freshWorld " feat: a " "" "")
  = Ret (trimmed (answerOf (firstOutcome (freshWorld " feat: a " "" ""))),
         afterSend (freshWorld " feat: a " "" "")
           (requestFor
              [mkChatMessage "system"
                 (withoutFinalVerb commitPromptFormat +:+ "## %s");
               mkChatMessage "user"
                 ("Here is the git diff:" +:+ nl +:+ nl +:+ "+ 100%d")]
              sampleConfig))
  /\ Older.GenerateCommitMessage "+ 100%d" (older sampleConfig) "## %s"
       (freshWorld " feat: a " "" "")
     = Ret (trimmed (answerOf (firstOutcome (freshWorld " feat: a " "" ""))),
            afterSend (freshWorld " feat: a " "" "")
              (requestFor
                 [mkChatMessage "system"
                    (withoutFinalVerb Older.commitPromptFormat +:+ "## %s");
                  mkChatMessage "user"
                    ("Here is the git diff:" +:+ nl +:+ nl +:+ "+ 100%d")]
                 sampleConfig)).
Proof.
  apply (GenerateCommitMessage_sends_template_and_diff "+ 100%d" sampleConfig
           "## %s" (freshWorld " feat: a " "" "")).
  - discriminate.
  - reflexivity.
Defined.

(** X5, at a configuration with questions disabled: the system prompt of the
    current revision is the report of the two extra arguments. *)
Lemma GeneratePRMessage_system_prompt_witness :
  (exists res w' req more,
      GeneratePRMessage Json.Unmarshal asciiToLower readAvailable "fix: a" plainConfig "T"
        (freshWorld " PR " "" "")
      = Ret (res, w')
      /\ sent w' = sent (freshWorld " PR " "" "") ++ req :: more
      /\ Messages (Body req)
         = [mkChatMessage "system"
              (getQuestionsPrompt (EnableQuestions plainConfig)
               +:+ "%!(EXTRA string=" +:+ prPromptText
               +:+ ", string=" +:+ "T" +:+ ")");
            mkChatMessage "user"
              ("Here are the commit messages from the branch:" +:+ nl +:+ nl
               +:+ "fix: a")])
  /\ (exists res req,
         Older.GeneratePRMessage "fix: a" (older plainConfig) "T"
           (freshWorld " PR " "" "")
         = Ret (res, afterSend (freshWorld " PR " "" "") req)
         /\ Messages (Body req)
            = [mkChatMessage "system"
                 (withoutFinalVerb Older.prPromptFormat +:+ "T");
               mkChatMessage "user"
                 ("Here are the commit messages from the branch:" +:+ nl +:+ nl
                  +:+ "fix: a")]).
Proof.
  apply (GeneratePRMessage_system_prompt Json.Unmarshal asciiToLower readAvailable "fix: a"
           plainConfig "T" (freshWorld " PR " "" "")).
  - discriminate.
  - reflexivity.
Defined.

(** X7, at two inputs that differ after their third line. *)
Lemma GeneratePRMessage_uses_three_lines_at_most_witness :
  exists res w1' w2',
    GeneratePRMessage Json.Unmarshal asciiToLower readAvailable "fix: a"
      sampleConfig "T"
      (freshWorld twoQuestions " final "
         ("yes" +:+ nl +:+ nl +:+ "third" +:+ nl +:+ "left"))
    = Ret (res, w1')
    /\ GeneratePRMessage Json.Unmarshal asciiToLower readAvailable "fix: a"
         sampleConfig "T"
         (freshWorld twoQuestions " final "
         ("yes" +:+ nl +:+ nl +:+ "third" +:+ nl +:+ "something else"))
       = Ret (res, w2')
    /\ sent w2' = sent w1'
    /\ network w1'
       = network
           (freshWorld twoQuestions " final "
         ("yes" +:+ nl +:+ nl +:+ "third" +:+ nl +:+ "left"))
    /\ (EnableQuestions sampleConfig = false ->
        stdin w1'
        = stdin
            (freshWorld twoQuestions " final "
         ("yes" +:+ nl +:+ nl +:+ "third" +:+ nl +:+ "left")))
    /\ (sent w1'
        = sent
            (freshWorld twoQuestions " final "
         ("yes" +:+ nl +:+ nl +:+ "third" +:+ nl +:+ "left")) ->
        stdin w1'
        = stdin
            (freshWorld twoQuestions " final "
         ("yes" +:+ nl +:+ nl +:+ "third" +:+ nl +:+ "left"))).
Proof.
  apply (GeneratePRMessage_uses_three_lines_at_most Json.Unmarshal asciiToLower
           readAvailable "fix: a" sampleConfig "T").
  - reflexivity.
  - reflexivity.
  - vm_compute. reflexivity.
Defined.

(** X9, at three questions: an answer, a blank line, an answer between
    spaces; read from a file, the text after the three lines has been read
    ahead and standard input is at its end. *)
Lemma every_question_takes_its_line_witness :
  exists ahead left,
    askUserQuestions asciiToLower readAvailable threeQuestions
      (freshWorld "" "" ("a" +:+ nl +:+ nl +:+ " c " +:+ nl +:+ "left"))
    = Ret (zip_with answeredBy threeQuestions
             ["a" +:+ nl; nl; " c " +:+ nl],
           mkWorld
             (network (freshWorld "" "" ("a" +:+ nl +:+ nl +:+ " c " +:+ nl +:+ "left")))
             (sent (freshWorld "" "" ("a" +:+ nl +:+ nl +:+ " c " +:+ nl +:+ "left")))
             left)
    /\ ahead +:+ left = "left"
    /\ left = EmptyString.
Proof.
  destruct (every_question_takes_its_line asciiToLower readAvailable
              threeQuestions
              (freshWorld "" "" ("a" +:+ nl +:+ nl +:+ " c " +:+ nl +:+ "left"))
              ["a" +:+ nl; nl; " c " +:+ nl] "left")
    as (ahead & left & E & Hleft).
  - vm_compute. reflexivity.
  - vm_compute. reflexivity.
  - exists ahead, left. split; [exact E|]. split; [exact Hleft|].
    vm_compute in E. inversion E. reflexivity.
Defined.

(** X10, at a run where one of two questions is answered: six messages. *)
Lemma second_call_message_count_witness :
  exists res w' req1 req2,
    GeneratePRMessage Json.Unmarshal asciiToLower readAvailable "fix: a"
      sampleConfig "T" (freshWorld twoQuestions " final " ("yes" +:+ nl +:+ nl))
    = Ret (res, w')
    /\ sent w' = [req1; req2]
    /\ length (Messages (Body req2)) = 6%nat
    /\ exists content qs questions' wq,
         answerOf (firstOutcome (freshWorld twoQuestions " final " ("yes" +:+ nl +:+ nl)))
         = (content, None)
         /\ extractQuestions Json.Unmarshal content = Ret (Some qs, true)
         /\ askUserQuestions asciiToLower readAvailable qs
              (freshWorld twoQuestions " final " ("yes" +:+ nl +:+ nl))
            = Ret (questions', wq)
         /\ length (Messages (Body req1)) = 2%nat
         /\ length (Messages (Body req2))
            = (4 + 2 * length (List.filter answered questions'))%nat
         /\ (1 <= length (List.filter answered questions') <= 3)%nat.
Proof.
  eexists _, _, _, _. split; [vm_compute; reflexivity|].
  split; [reflexivity|]. split; [reflexivity|].
  eapply (second_call_message_count Json.Unmarshal asciiToLower readAvailable
            "fix: a" sampleConfig "T"
            (freshWorld twoQuestions " final " ("yes" +:+ nl +:+ nl))).
  - vm_compute. reflexivity.
  - reflexivity.
Defined.

(** X11, at the end of the input: nothing is left to read, every answer is
    blank. *)
Lemma blank_answers_make_no_second_request_witness :
  exists d ahead left,
    extractPRDescription twoQuestions = Ret d
    /\ GeneratePRMessage Json.Unmarshal asciiToLower readAvailable "fix: a"
         sampleConfig "T" (freshWorld twoQuestions " final " "")
       = Ret ((stringsTrimSpace d, None),
              mkWorld (network (freshWorld twoQuestions " final " ""))
                (sent (freshWorld twoQuestions " final " "")
                 ++ [requestFor (initialMessages "fix: a" sampleConfig "T")
                       sampleConfig])
                left)
    /\ ahead +:+ left
       = snd (readLines
                (length [mkQuestionResponse "Why?" "";
                         mkQuestionResponse "Which issue?" ""])
                (stdin (freshWorld twoQuestions " final " "")))
    /\ (onlyQuestions twoQuestions = true -> stringsTrimSpace d = EmptyString).
Proof.
  apply (blank_answers_make_no_second_request Json.Unmarshal asciiToLower
           readAvailable "fix: a" sampleConfig "T"
           (freshWorld twoQuestions " final " "") twoQuestions
           [mkQuestionResponse "Why?" ""; mkQuestionResponse "Which issue?" ""]).
  - reflexivity.
  - discriminate.
  - reflexivity.
  - reflexivity.
  - reflexivity.
  - vm_compute. reflexivity.
  - vm_compute. reflexivity.
Defined.

(** X12, at a run where the second answer is [Skip All]. *)
Lemma skip_word_is_sent_as_the_answer_witness :
  exists ahead left,
    GeneratePRMessage Json.Unmarshal asciiToLower readAvailable "fix: a"
      sampleConfig "T"
      (freshWorld twoQuestions " final "
         ("yes" +:+ nl +:+ " Skip All " +:+ nl +:+ "left"))
    = Ret (trimmed
             (answerOf
                (secondOutcome
                   (freshWorld twoQuestions " final "
         ("yes" +:+ nl +:+ " Skip All " +:+ nl +:+ "left")))),
           mkWorld
             (network
                (freshWorld twoQuestions " final "
         ("yes" +:+ nl +:+ " Skip All " +:+ nl +:+ "left")))
             (sent
                (freshWorld twoQuestions " final "
         ("yes" +:+ nl +:+ " Skip All " +:+ nl +:+ "left"))
              ++ [requestFor (initialMessages "fix: a" sampleConfig "T")
                    sampleConfig;
                  requestFor
                    (initialMessages "fix: a" sampleConfig "T"
                     ++ [mkChatMessage "assistant"
                           "I need some additional information to write a better PR description."]
                     ++ flat_map asMessages
                          (List.filter answered
                             (zip_with answeredBy
                                [mkQuestionResponse "Why?" ""]
                                ["yes" +:+ nl]))
                     ++ [mkChatMessage "assistant"
                           (Question (mkQuestionResponse "Which issue?" ""));
                         mkChatMessage "user"
                           (stringsTrimSpace (" Skip All " +:+ nl));
                         mkChatMessage "user"
                           "Now that you have this additional information, please generate a comprehensive PR description using the template provided earlier."])
                    sampleConfig])
             left)
    /\ ahead +:+ left = "left".
Proof.
  apply (skip_word_is_sent_as_the_answer Json.Unmarshal asciiToLower
           readAvailable "fix: a" sampleConfig "T"
           (freshWorld twoQuestions " final "
         ("yes" +:+ nl +:+ " Skip All " +:+ nl +:+ "left"))
           twoQuestions [mkQuestionResponse "Why?" ""]
           (mkQuestionResponse "Which issue?" "") []
           ["yes" +:+ nl] (" Skip All " +:+ nl +:+ "left") (" Skip All " +:+ nl)
           "left").
  - reflexivity.
  - discriminate.
  - reflexivity.
  - reflexivity.
  - reflexivity.
  - vm_compute. reflexivity.
  - vm_compute. reflexivity.
  - vm_compute. reflexivity.
  - vm_compute. reflexivity.
  - vm_compute. reflexivity.
Defined.

(** X13, at a response with a payload of two questions. *)
Lemma extracted_questions_are_unanswered_witness :
  exists payload questions,
    questionsJSON twoQuestions = Ret (Some payload)
    /\ Json.Unmarshal payload = Some questions
    /\ map Question [mkQuestionResponse "Why?" "";
                     mkQuestionResponse "Which issue?" ""]
       = take 3 questions
    /\ Forall (fun q => Answer q = EmptyString)
         [mkQuestionResponse "Why?" ""; mkQuestionResponse "Which issue?" ""]
    /\ anyAnswered [mkQuestionResponse "Why?" "";
                    mkQuestionResponse "Which issue?" ""] = false.
Proof.
  apply (extracted_questions_are_unanswered Json.Unmarshal twoQuestions).
  vm_compute. reflexivity.
Defined.

(** X14, at a commit message that the API returns between spaces. *)
Lemma results_are_trimmed_witness :
  stringsTrimSpace (fst ("feat: a", @None string))
  = fst ("feat: a", @None string).
Proof.
  apply (results_are_trimmed Json.Unmarshal asciiToLower readAvailable "diff" "fix: a"
           sampleConfig "T" (freshWorld " feat: a " "" "")
           ("feat: a", None)
           (afterSend (freshWorld " feat: a " "" "")
              (requestFor
                 [mkChatMessage "system"
                    (fmtSprintf commitPromptFormat ["T"]);
                  mkChatMessage "user"
                    (fmtSprintf ("Here is the git diff:" +:+ nl +:+ nl +:+ "%s")
                       ["diff"])]
                 sampleConfig))).
  left. vm_compute. reflexivity.
Defined.

(** X15, at a response with text around a payload of two questions. *)
Lemma description_cuts_the_payload_witness :
  (exists before after,
      twoQuestions
      = before
        +:+ (questionsMarker +:+ " [" +:+ dq +:+ "Why?" +:+ dq +:+ ", "
             +:+ dq +:+ "Which issue?" +:+ dq +:+ "]}")
        +:+ after
      /\ extractPRDescription twoQuestions
         = Ret (joinParagraphs (stringsTrimSpace before)
                  (stringsTrimSpace after)))
  \/ ((exists start, firstOccurrence questionsMarker twoQuestions start
                     /\ counterNeverReturns twoQuestions start)
      /\ extractPRDescription twoQuestions = Ret twoQuestions).
Proof.
  apply (description_cuts_the_payload twoQuestions).
  - vm_compute. reflexivity.
  - vm_compute. reflexivity.
Defined.

(** X19, at a configuration without a key and an answer between spaces. *)
Lemma makeOpenAIRequest_checks_no_key_witness :
  exists req res,
    makeOpenAIRequest [mkChatMessage "user" "hello"] noKeyConfig
      (freshWorld " PR " "" "")
    = Ret (res, afterSend (freshWorld " PR " "" "") req)
    /\ Messages (Body req) = [mkChatMessage "user" "hello"]
    /\ carriesConfig noKeyConfig req
    /\ (APIKey noKeyConfig = EmptyString ->
        Header req = [("Content-Type", "application/json");
                      ("Authorization", "Bearer ")])
    /\ (forall r choice others,
          firstOutcome (freshWorld " PR " "" "") = Decoded r ->
          Error r = None ->
          Choices r = choice :: others ->
          res = (Content choice, None)).
Proof.
  apply (makeOpenAIRequest_checks_no_key [mkChatMessage "user" "hello"]
           noKeyConfig (freshWorld " PR " "" "")).
  reflexivity.
Defined.

Lemma counterReturnsAt_of_scan (s : string) (start e : nat) :
  String.get start s = Some lbrace ->
  findClosingBrace (String.length s) s (Z.of_nat start) 0 = Ret (Z.of_nat e) ->
  counterReturnsAt s start e.
Proof.
  intros Hb Hscan.
  destruct (findClosingBrace_spec s start Hb) as [[E _]|(e' & E & R)];
    rewrite E in Hscan; inversion Hscan as [He]; [lia|].
  apply Nat2Z.inj in He. subst e'. exact R.
Qed.

(** X20, at a response with a payload of two questions, cut after the
    payload and followed by a payload of four. *)
Lemma text_after_the_payload_is_not_read_witness :
  extractQuestions Json.Unmarshal
    (substring 0 46 twoQuestions +:+ (" and " +:+ fourQuestions))
  = extractQuestions Json.Unmarshal twoQuestions.
Proof.
  apply (text_after_the_payload_is_not_read Json.Unmarshal twoQuestions 7 45).
  - apply firstOccurrence_of_index. vm_compute. reflexivity.
  - apply counterReturnsAt_of_scan; vm_compute; reflexivity.
Defined.

(** The same three questions and answers on a file and on a terminal.  The
    answers are the same; the file has been read to its end, the line that
    was not asked for included, and the terminal still holds that line. *)
Lemma askUserQuestions_on_a_file_and_on_a_terminal :
  askUserQuestions asciiToLower readAvailable threeQuestions
    (freshWorld "" ""
       ("yes" +:+ nl +:+ " Skip All " +:+ nl +:+ "ignored" +:+ nl))
  = Ret ([mkQuestionResponse "one" "yes";
          mkQuestionResponse "two" "Skip All";
          mkQuestionResponse "three" ""],
         freshWorld "" "" "")
  /\ askUserQuestions asciiToLower readOneLine threeQuestions
       (freshWorld "" ""
          ("yes" +:+ nl +:+ " Skip All " +:+ nl +:+ "ignored" +:+ nl))
     = Ret ([mkQuestionResponse "one" "yes";
             mkQuestionResponse "two" "Skip All";
             mkQuestionResponse "three" ""],
            freshWorld "" "" ("ignored" +:+ nl)).
Proof. split; vm_compute; reflexivity. Qed.
